(** * CHM-to-PDF converter: ordering, reconciliation and asset flattening

    A shallow embedding of the ordering core of the two pipelines of the
    repository, the script pipeline under [CHMconverter/] (automation.py with
    the orderHTM.py script it generates, removeText.py, combinePDFs.py) and the
    in-process pipeline under [CHMconverter-cloud/] (automation_cloud.py),
    followed by the properties of that core.

    Conventions of the embedding.
    - A Python [str] is a [string]: a sequence of code points below 256.  In
      that range the regular-expression class [\d] is exactly ['0'..'9'].
    - A Python [int] is an [N] where the code only counts upwards from 1 or
      reads back a run of digits.
    - Paths follow [posixpath].  The file system seen by the sequencer is a
      finite map from path strings to nodes; a path exists when it is bound.
      Paths are compared as written: two spellings of one file (through
      [..], [.], doubled separators or links) are two keys.
    - The directory walked by the flattening pass is a tree whose entries are
      kept in listing order, the order [os.scandir] returns them in.
    - Code that may raise returns a [result]; a loop that may be cut short by
      an exception returns the state it had reached together with the
      exception, and so does code that raises after it has written: opening
      a file for writing empties it at once. *)

From Stdlib Require Import String Ascii List NArith Lia Bool Sorted Permutation.
From Stdlib Require Import DecimalString DecimalN.
From Stdlib.Strings Require Byte.
From stdpp Require Import gmap strings list.
Import ListNotations.
Open Scope string_scope.
Open Scope list_scope.
Set Warnings "-register-all".

(** ** Python built-ins used by the scripts *)

Module Py.

Inductive exn : Type :=
| KeyError (key : string)
| AttributeError
| ValueError
| IsADirectoryError (path : string)
| FileNotFoundError (path : string)
| SameFileError
| UnicodeDecodeError
| OtherError (what : string).

Inductive result (A : Type) : Type :=
| Ok (a : A)
| Raise (e : exn).
Arguments Ok {A} a.
Arguments Raise {A} e.

Definition bind {A B} (r : result A) (k : A -> result B) : result B :=
  match r with
  | Ok a => k a
  | Raise e => Raise e
  end.

Definition is_ok {A} (r : result A) : bool :=
  match r with Ok _ => true | Raise _ => false end.

(** [[f(x) for x in l]] where [f] may raise: the first exception wins. *)
Fixpoint map_result {A B} (f : A -> result B) (l : list A) : result (list B) :=
  match l with
  | [] => Ok []
  | x :: l' =>
      bind (f x) (fun y => bind (map_result f l') (fun ys => Ok (y :: ys)))
  end.

(** [for x in l: s = body(s, x)] where [body] may raise: the loop stops at
    the first exception; what the iterations before it did stays done. *)
Fixpoint for_each {S A} (body : S -> A -> result S) (l : list A) (s : S)
  : S * option exn :=
  match l with
  | [] => (s, None)
  | x :: l' =>
      match body s x with
      | Ok s' => for_each body l' s'
      | Raise e => (s, Some e)
      end
  end.

(** *** str *)

Definition chr (n : nat) : ascii := ascii_of_nat n.
Definition ord (c : ascii) : nat := nat_of_ascii c.
Definition sep : ascii := "/"%char.

Fixpoint drop (n : nat) (s : string) : string :=
  match n, s with
  | O, _ => s
  | S _, EmptyString => EmptyString
  | S n', String _ s' => drop n' s'
  end.

Fixpoint startswith (p s : string) : bool :=
  match p, s with
  | EmptyString, _ => true
  | String _ _, EmptyString => false
  | String a p', String b s' => Ascii.eqb a b && startswith p' s'
  end.

(** [s.endswith(suf)] *)
Definition endswith (suf s : string) : bool :=
  (String.length suf <=? String.length s)%nat
  && String.eqb (drop (String.length s - String.length suf) s) suf.

(** [s.endswith((a, b, ...))] *)
Definition endswith_any (sufs : list string) (s : string) : bool :=
  existsb (fun suf => endswith suf s) sufs.

(** [sub in s] *)
Fixpoint contains (sub s : string) : bool :=
  startswith sub s
  || match s with
     | EmptyString => false
     | String _ s' => contains sub s'
     end.

(** [c.lower()] on code points below 256: the ASCII capitals and the
    Latin-1 capitals U+00C0..U+00DE other than the sign U+00D7. *)
Definition lower_char (c : ascii) : ascii :=
  let n := ord c in
  if ((65 <=? n) && (n <=? 90))%nat then chr (n + 32)
  else if ((192 <=? n) && (n <=? 222) && negb (n =? 215))%nat then chr (n + 32)
  else c.

Fixpoint lower (s : string) : string :=
  match s with
  | EmptyString => EmptyString
  | String c s' => String (lower_char c) (lower s')
  end.

(** [s.split('#')[0]]: the text before the first ['#']. *)
Fixpoint split_hash_0 (s : string) : string :=
  match s with
  | EmptyString => EmptyString
  | String c s' =>
      if Ascii.eqb c "#" then EmptyString else String c (split_hash_0 s')
  end.

(** [s.replace(old, new)] for a non-empty [old]: occurrences are replaced
    from the left and do not overlap. *)
Fixpoint replace_from (skip : nat) (old new s : string) : string :=
  match s with
  | EmptyString => EmptyString
  | String c s' =>
      match skip with
      | S k => replace_from k old new s'
      | O =>
          if startswith old s
          then new +:+ replace_from (String.length old - 1) old new s'
          else String c (replace_from 0 old new s')
      end
  end.

Definition replace (old new s : string) : string := replace_from 0 old new s.

(** *** posixpath *)

(** [posixpath.join(a, b)] *)
Definition os_path_join (a b : string) : string :=
  if startswith "/" b then b
  else if String.eqb a "" || endswith "/" a then a +:+ b
  else a +:+ "/" +:+ b.

(** [p.rfind('/')], [None] standing for -1. *)
Fixpoint rfind_sep (p : string) : option nat :=
  match p with
  | EmptyString => None
  | String c p' =>
      match rfind_sep p' with
      | Some i => Some (S i)
      | None => if Ascii.eqb c sep then Some O else None
      end
  end.

(** [posixpath.basename(p)]: [i = p.rfind('/') + 1; return p[i:]] *)
Definition basename (p : string) : string :=
  match rfind_sep p with
  | Some i => drop (S i) p
  | None => p
  end.

(** *** int, format *)

Definition is_digit (c : ascii) : bool :=
  ((48 <=? ord c) && (ord c <=? 57))%nat.

(** [str(n)] *)
Definition str_of_int (n : N) : string :=
  NilEmpty.string_of_uint (N.to_uint n).

Fixpoint zeros (k : nat) : string :=
  match k with
  | O => EmptyString
  | S k' => String "0" (zeros k')
  end.

(** [f"{n:04d}"] for [n >= 0]: at least four digits, padded with zeros. *)
Definition format_04d (n : N) : string :=
  let s := str_of_int n in
  zeros (4 - String.length s) +:+ s.

(** [int(s)] on a run of decimal digits, the only way the scripts call it
    (on group 1 of a [\d+] match); anything else is a [ValueError] here. *)
Definition int (s : string) : result N :=
  match s with
  | EmptyString => Raise ValueError
  | _ =>
      match NilEmpty.uint_of_string s with
      | Some d => Ok (N.of_uint d)
      | None => Raise ValueError
      end
  end.

(** *** re *)

(** The longest prefix of digits and what follows it. *)
Fixpoint span_digits (s : string) : string * string :=
  match s with
  | EmptyString => (EmptyString, EmptyString)
  | String c s' =>
      if is_digit c
      then let '(run, rest) := span_digits s' in (String c run, rest)
      else (EmptyString, s)
  end.

(** [re.match(r'(\d+)_', s)]: group 1 of a match at the start of [s].  The
    greedy [\d+] takes the whole run; giving digits back cannot help, the
    next character would be a digit and not ['_']. *)
Definition match_digits_underscore (s : string) : option string :=
  match span_digits s with
  | (String c run, String u _) =>
      if Ascii.eqb u "_" then Some (String c run) else None
  | _ => None
  end.

(** [re.search(r'(\d+)_', s)]: the match at the leftmost position that has
    one; [None] when no position has. *)
Fixpoint search_digits_underscore (s : string) : option string :=
  match match_digits_underscore s with
  | Some g => Some g
  | None =>
      match s with
      | EmptyString => None
      | String _ s' => search_digits_underscore s'
      end
  end.

(** [re.search(r'^(\d+)', s)] *)
Definition search_leading_digits (s : string) : option string :=
  match span_digits s with
  | (String c run, _) => Some (String c run)
  | _ => None
  end.

(** *** sorted *)

Section Sorted.
Context {A : Type} (key : A -> N).

(** [x] goes in front of the first element whose key is not smaller, so
    elements with equal keys keep their order: the sort is stable, and a
    stable sort is determined by the list and the keys. *)
Fixpoint insert_by (x : A) (l : list A) : list A :=
  match l with
  | [] => [x]
  | y :: l' => if (key x <=? key y)%N then x :: l else y :: insert_by x l'
  end.

(** [sorted(l, key=key)] *)
Fixpoint sorted (l : list A) : list A :=
  match l with
  | [] => []
  | x :: l' => insert_by x (sorted l')
  end.
End Sorted.

End Py.

Import Py.

(** ** The file system seen by the sequencer *)

Module Fs.

Inductive node : Type :=
| File (data : list Byte.byte)
| Dir.

(** [os.path.exists(p)] *)
Definition path_exists (fs : gmap string node) (p : string) : bool :=
  match fs !! p with
  | Some _ => true
  | None => false
  end.

(** [open(p, 'rb').read()] *)
Definition read_bytes (p : string) (fs : gmap string node)
  : result (list Byte.byte) :=
  match fs !! p with
  | Some (File data) => Ok data
  | Some Dir => Raise (IsADirectoryError p)
  | None => Raise (FileNotFoundError p)
  end.

(** [open(p, 'w')]: the file is created, or emptied if it is there, when
    it is opened, before anything is written to it. *)
Definition open_w (p : string) (fs : gmap string node)
  : result (gmap string node) :=
  match fs !! p with
  | Some Dir => Raise (IsADirectoryError p)
  | _ => Ok (<[p := File []]> fs)
  end.

(** [shutil.copyfile(src, dst)] *)
Definition copyfile (src dst : string) (fs : gmap string node)
  : result (gmap string node) :=
  if String.eqb src dst then Raise SameFileError
  else
    match fs !! src with
    | None => Raise (FileNotFoundError src)
    | Some Dir => Raise (IsADirectoryError src)
    | Some (File data) =>
        match fs !! dst with
        | Some Dir => Raise (IsADirectoryError dst)
        | _ => Ok (<[dst := File data]> fs)
        end
    end.

(** [shutil.copy2(src, dst)]: a [dst] that is a directory receives the file
    under the basename of [src]. *)
Definition copy2 (src dst : string) (fs : gmap string node)
  : result (gmap string node) :=
  match fs !! dst with
  | Some Dir => copyfile src (os_path_join dst (basename src)) fs
  | _ => copyfile src dst fs
  end.

End Fs.

(** ** Sequencer: the copy loop of orderHTM.py and
       [HTMLOrganizer._copy_files_in_order] *)

Module Sequencer.

(** One copy made by the loop: the source it read, the value of [index]
    that went into the name, and the name it wrote in the target directory. *)
Record SequencedDocument : Type := {
  source_path : string;
  rank : N;
  output_filename : string
}.

Record state : Type := {
  files : gmap string Fs.node;
  last_copied : option string;
  index : N;
  copied : list SequencedDocument;
  stdout : list string
}.

Definition extraction_dir : string := "extractedCHM".
Definition reorganized_dir : string := "reorganized".

(** [base_filename != last_copied], where [last_copied] starts as [None] *)
Definition differs (base_filename : string) (last : option string) : bool :=
  match last with
  | None => true
  | Some l => negb (String.eqb base_filename l)
  end.

Definition initial (fs : gmap string Fs.node) : state :=
  {| files := fs; last_copied := None; index := 1; copied := []; stdout := [] |}.

(** *** automation_cloud.py, [HTMLOrganizer._copy_files_in_order] *)

(** The body of [for filename in html_files]. *)
Definition copy_step (st : state) (filename : string) : result state :=
  let src_path := os_path_join extraction_dir filename in
  let base_filename := basename filename in
  if Fs.path_exists (files st) src_path && differs base_filename (last_copied st)
  then
    let new_filename := format_04d (index st) +:+ "_" +:+ base_filename in
    let dst_path := os_path_join reorganized_dir new_filename in
    bind (Fs.copy2 src_path dst_path (files st)) (fun fs' =>
      Ok {| files := fs';
            last_copied := Some base_filename;
            index := index st + 1;
            copied := copied st ++
              [{| source_path := src_path; rank := index st;
                  output_filename := new_filename |}];
            stdout := stdout st |})
  else Ok st.

Definition _copy_files_in_order (html_files : list string)
  (fs : gmap string Fs.node) : state * option exn :=
  for_each copy_step html_files (initial fs).

(** *** automation.py, the copy loop of the generated orderHTM.py *)

Definition orderHTM_step (st : state) (filename : string) : result state :=
  let current_filename := os_path_join extraction_dir filename in
  let base_filename := basename filename in
  if Fs.path_exists (files st) current_filename
     && differs base_filename (last_copied st)
  then
    let index_prefix := format_04d (index st) +:+ "_" in
    let new_filename := index_prefix +:+ base_filename in
    let desired_filepath := os_path_join reorganized_dir new_filename in
    bind (Fs.copyfile current_filename desired_filepath (files st)) (fun fs' =>
      Ok {| files := fs';
            last_copied := Some base_filename;
            index := index st + 1;
            copied := copied st ++
              [{| source_path := current_filename; rank := index st;
                  output_filename := new_filename |}];
            stdout := stdout st ++
              ["Copied '" +:+ current_filename +:+ "' to '"
                 +:+ desired_filepath +:+ "'"] |})
  else if negb (differs base_filename (last_copied st))
  then
    Ok {| files := files st;
          last_copied := last_copied st;
          index := index st;
          copied := copied st;
          stdout := stdout st ++
            ["Skipped duplicate file: " +:+ current_filename] |}
  else Ok st.

Definition orderHTM_copy_loop (desired_order : list string)
  (fs : gmap string Fs.node) : state * option exn :=
  let '(st, e) := for_each orderHTM_step desired_order (initial fs) in
  match e with
  | None =>
      ({| files := files st; last_copied := last_copied st; index := index st;
          copied := copied st;
          stdout := stdout st ++ ["File copying complete!"] |}, None)
  | Some _ => (st, e)
  end.

End Sequencer.

(** ** The markup tree of BeautifulSoup *)

Module Soup.

(** A parsed document is the list of the top-level nodes of the soup.
    Attribute values are the strings of the markup; the parser presents
    [rel] and [class] as the list of their whitespace-separated tokens. *)
Inductive node : Type :=
| NavigableString (text : string)
| Tag (name : string) (attrs : gmap string string) (contents : list node).

(** The node and everything below it, in document order. *)
Fixpoint descendants (n : node) : list node :=
  match n with
  | NavigableString _ => [n]
  | Tag _ _ cs => n :: flat_map descendants cs
  end.

(** [soup.find_all(name, ...)] with a further test on the tag. *)
Definition find_all (tag_name : string) (test : node -> bool)
  (soup : list node) : list node :=
  filter (fun n =>
            match n with
            | Tag nm _ _ => String.eqb nm tag_name && test n
            | NavigableString _ => false
            end = true)
         (flat_map descendants soup).

(** [tag.string]: the text of a tag whose only child is a string, looked
    for through single-child tags; [None] otherwise. *)
Fixpoint string_of (n : node) : option string :=
  match n with
  | NavigableString t => Some t
  | Tag _ _ [c] => string_of c
  | Tag _ _ _ => None
  end.

(** [param['value']] *)
Definition getitem (attrs : gmap string string) (k : string) : result string :=
  match attrs !! k with
  | Some v => Ok v
  | None => Raise (KeyError k)
  end.

(** ['value' in param.attrs] *)
Definition has_attr (attrs : gmap string string) (k : string) : bool :=
  match attrs !! k with
  | Some _ => true
  | None => false
  end.

Definition attrs_of (n : node) : gmap string string :=
  match n with
  | Tag _ a _ => a
  | NavigableString _ => ∅
  end.

(** Whitespace as [\s] sees it below 256. *)
Definition is_space (c : ascii) : bool :=
  let n := ord c in
  ((9 <=? n) && (n <=? 13) || (28 <=? n) && (n <=? 32)
   || (n =? 133) || (n =? 160))%nat.

(** The whitespace-separated tokens of an attribute value. *)
Fixpoint tokens_from (cur : string) (s : string) : list string :=
  match s with
  | EmptyString => if String.eqb cur "" then [] else [cur]
  | String c s' =>
      if is_space c
      then (if String.eqb cur "" then [] else [cur]) ++ tokens_from "" s'
      else tokens_from (cur +:+ String c "") s'
  end.

Definition tokens (s : string) : list string := tokens_from "" s.

(** Apply [f] to the attributes of every tag that [sel] selects. *)
Fixpoint update_where (sel : string -> gmap string string -> bool)
  (f : gmap string string -> gmap string string) (n : node) : node :=
  match n with
  | NavigableString _ => n
  | Tag nm a cs =>
      Tag nm (if sel nm a then f a else a) (map (update_where sel f) cs)
  end.

(** Drop every tag that [sel] selects, with all it contains. *)
Fixpoint remove_where (sel : node -> bool) (n : node) : list node :=
  match n with
  | NavigableString _ => [n]
  | Tag nm a cs =>
      if sel n then [] else [Tag nm a (flat_map (remove_where sel) cs)]
  end.

(** Drop the first tag, in document order, that [sel] selects.
    [None]: nothing selected below or at [n]; [Some l]: [n] is replaced by
    [l], the empty list when [n] itself went. *)
Fixpoint remove_first (sel : node -> bool) (n : node) : option (list node) :=
  match n with
  | NavigableString _ => None
  | Tag nm a cs =>
      if sel n then Some []
      else
        match
          (fix go (l : list node) : option (list node) :=
             match l with
             | [] => None
             | c :: l' =>
                 match remove_first sel c with
                 | Some r => Some (r ++ l')
                 | None =>
                     match go l' with
                     | Some l'' => Some (c :: l'')
                     | None => None
                     end
                 end
             end) cs
        with
        | Some cs' => Some [Tag nm a cs']
        | None => None
        end
  end.

Fixpoint remove_first_in (sel : node -> bool) (soup : list node)
  : list node :=
  match soup with
  | [] => []
  | n :: soup' =>
      match remove_first sel n with
      | Some r => r ++ soup'
      | None => n :: remove_first_in sel soup'
      end
  end.

End Soup.

(** ** TOC parser *)

Module TocParser.
Import Soup.

Section WithParser.
(** [BeautifulSoup(text, 'html.parser')] *)
Variable html_parser : string -> list node.

(** [lambda x: x and x.lower() == 'local'], given the value of the
    attribute or [None] when the tag has none. *)
Definition name_is_local (x : option string) : bool :=
  match x with
  | None => false
  | Some v => negb (String.eqb v "") && String.eqb (lower v) "local"
  end.

(** [soup.find_all('param', {'name': ...})] *)
Definition local_params (soup : list node) : list node :=
  find_all "param" (fun n => name_is_local (attrs_of n !! "name")) soup.

(** The body of [for param in soup.find_all(...)]. *)
Definition parse_step (html_files : list string) (param : node)
  : result (list string) :=
  if has_attr (attrs_of param) "value"
  then
    bind (getitem (attrs_of param) "value") (fun value =>
      let filename := split_hash_0 value in
      Ok (html_files ++ [filename]))
  else Ok html_files.

(** automation_cloud.py, [HTMLOrganizer._parse_hhc_file], from the text
    read from the file on. *)
Definition _parse_hhc_file (hhc_content : string) : result (list string) :=
  let soup := html_parser hhc_content in
  match for_each parse_step (local_params soup) [] with
  | (html_files, None) => Ok html_files
  | (_, Some e) => Raise e
  end.

(** automation.py, the generated orderHTM.py, from the value of
    [sitemap_content] on: the text of the file between two newlines, as
    the Python reader understands it inside the triple quotes. *)
Definition orderHTM_parse (sitemap_content : string) : result (list string) :=
  let soup := html_parser sitemap_content in
  bind (map_result (fun param => getitem (attrs_of param) "value")
          (local_params soup)) (fun html_files_ordered =>
    Ok (map split_hash_0 html_files_ordered)).
End WithParser.

End TocParser.

(** ** Asset path normalizer: removeText.py and [HTMLProcessor] *)

Module Normalizer.
Import Soup.

(** [if k in tag.attrs: tag[k] = os.path.basename(tag[k])] *)
Definition set_basename (k : string) (a : gmap string string)
  : gmap string string :=
  match a !! k with
  | Some v => <[k := basename v]> a
  | None => a
  end.

Definition is_img (nm : string) (a : gmap string string) : bool :=
  String.eqb nm "img".

(** [find_all('link', rel="stylesheet")]: one of the tokens of [rel] is
    the word. *)
Definition is_stylesheet_link (nm : string) (a : gmap string string) : bool :=
  String.eqb nm "link"
  && match a !! "rel" with
     | Some v => existsb (String.eqb "stylesheet") (tokens v)
     | None => false
     end.

Definition is_script (nm : string) (a : gmap string string) : bool :=
  String.eqb nm "script".

(** removeText.py, [fix_image_paths]: three loops over the tree, one after
    the other. *)
Definition fix_image_paths (soup : list node) : list node :=
  let soup := map (update_where is_img (set_basename "src")) soup in
  let soup := map (update_where is_stylesheet_link (set_basename "href")) soup in
  map (update_where is_script (set_basename "src")) soup.

(** automation_cloud.py, [HTMLProcessor._fix_asset_paths]: the same three
    loops. *)
Definition _fix_asset_paths (soup : list node) : list node :=
  let soup := map (update_where is_img (set_basename "src")) soup in
  let soup := map (update_where is_stylesheet_link (set_basename "href")) soup in
  map (update_where is_script (set_basename "src")) soup.

(** [find('script', string=lambda x: x and text in x)]: the test on one
    node. *)
Definition is_framing_script (text_to_remove : string) (n : node) : bool :=
  match n with
  | Tag nm _ _ =>
      String.eqb nm "script"
      && match string_of n with
         | Some x => negb (String.eqb x "") && contains text_to_remove x
         | None => false
         end
  | NavigableString _ => false
  end.

Definition mojibake : string :=
  String (chr 239) (String (chr 191) (String (chr 189) "")).
Definition nbsp : string := String (chr 160) "".

(** The three [replace] calls. *)
Definition clean (content : string) : string :=
  let content := replace mojibake " " content in
  let content := replace nbsp " " content in
  replace "xe2" " " content.

Section WithCollaborators.
(** [chardet.detect(raw)['encoding']] *)
Variable detect : list Byte.byte -> option string.
(** [open(path, 'r', encoding=enc).read()] on a file holding these bytes *)
Variable decode : option string -> list Byte.byte -> result string.
(** [BeautifulSoup(content, 'html.parser')] *)
Variable html_parser : string -> result (list node).
(** [str(soup)], encoded as UTF-8 *)
Variable render : list node -> result (list Byte.byte).

(** [with open(file_path, 'w', encoding='utf-8') as file:
      file.write(str(soup))]:
    the file is opened, and so emptied, before [str(soup)] is evaluated and
    encoded; an exception from there leaves the file empty. *)
Definition write_soup (file_path : string) (soup : list node)
  (fs : gmap string Fs.node) : gmap string Fs.node * option exn :=
  match Fs.open_w file_path fs with
  | Raise e => (fs, Some e)
  | Ok fs1 =>
      match render soup with
      | Raise e => (fs1, Some e)
      | Ok out => (<[file_path := Fs.File out]> fs1, None)
      end
  end.

(** removeText.py, [remove_show_framing]: the file system it leaves and
    the exception it ends with, if any. *)
Definition remove_show_framing (text_to_remove : string)
  (fs : gmap string Fs.node) (file_path : string)
  : gmap string Fs.node * option exn :=
  match
    bind (Fs.read_bytes file_path fs) (fun raw_data =>
    let encoding := detect raw_data in
    bind (decode encoding raw_data) (fun html_content =>
    let html_content := clean html_content in
    bind (html_parser html_content) (fun soup =>
    let soup := fix_image_paths soup in
    Ok (remove_first_in (is_framing_script text_to_remove) soup))))
  with
  | Raise e => (fs, Some e)
  | Ok soup => write_soup file_path soup fs
  end.

(** removeText.py, the loop at the end of the script: an exception ends
    it, with the file system as the failing call left it. *)
Fixpoint removeText_main (htm_files_sorted : list string)
  (fs : gmap string Fs.node) : gmap string Fs.node * option exn :=
  match htm_files_sorted with
  | [] => (fs, None)
  | file_path :: rest =>
      match remove_show_framing "show framing" fs file_path with
      | (fs1, None) => removeText_main rest fs1
      | (fs1, Some e) => (fs1, Some e)
      end
  end.

(** automation_cloud.py, the [try] body of
    [HTMLProcessor._process_single_file]. *)
Definition process_body (fs : gmap string Fs.node) (file_path : string)
  : gmap string Fs.node * option exn :=
  match
    bind (Fs.read_bytes file_path fs) (fun raw_data =>
    let encoding := detect raw_data in
    bind (decode encoding raw_data) (fun content =>
    let content := clean content in
    bind (html_parser content) (fun soup =>
    let soup := _fix_asset_paths soup in
    Ok (flat_map (remove_where (is_framing_script "show framing")) soup))))
  with
  | Raise e => (fs, Some e)
  | Ok soup => write_soup file_path soup fs
  end.

(** [HTMLProcessor._process_single_file]: [True], or the exception is
    logged and the answer is [False]; either way the file system is as
    the body left it. *)
Definition _process_single_file (fs : gmap string Fs.node)
  (file_path : string) : gmap string Fs.node * bool :=
  match process_body fs file_path with
  | (fs', None) => (fs', true)
  | (fs', Some _) => (fs', false)
  end.

(** [executor.map(self._process_single_file, html_files)]: every worker
    writes its own file only, so the files are taken in turn; the
    answers come in the order of [html_files]. *)
Fixpoint process_files (html_files : list string)
  (fs : gmap string Fs.node) : gmap string Fs.node * list bool :=
  match html_files with
  | [] => (fs, [])
  | p :: rest =>
      let '(fs1, r) := _process_single_file fs p in
      let '(fs2, rs) := process_files rest fs1 in
      (fs2, r :: rs)
  end.
End WithCollaborators.

End Normalizer.

(** ** Asset flattening: [copy_assets_to_flat_structure] *)

Module Flatten.

Inductive tree : Type :=
| File (data : list Byte.byte)
| Dir (entries : list (string * tree)).

Definition dirnames (entries : list (string * tree)) : list string :=
  flat_map (fun e => match snd e with Dir _ => [fst e] | File _ => [] end)
           entries.

(** The files of a listing, each with the bytes a read returns. *)
Definition filenames (entries : list (string * tree))
  : list (string * list Byte.byte) :=
  flat_map (fun e => match snd e with File d => [(fst e, d)] | Dir _ => [] end)
           entries.

(** [os.walk(root)], top down: the directory, then each of its
    subdirectories in listing order. *)
Fixpoint walk (root : string) (t : tree)
  : list (string * list string * list (string * list Byte.byte)) :=
  match t with
  | File _ => []
  | Dir entries =>
      (root, dirnames entries, filenames entries)
      :: (fix subdirs (es : list (string * tree)) :=
            match es with
            | [] => []
            | (name, child) :: es' =>
                match child with
                | Dir _ => walk (os_path_join root name) child ++ subdirs es'
                | File _ => subdirs es'
                end
            end) entries
  end.

Definition is_asset (file : string) : bool :=
  negb (endswith_any [".htm"; ".html"; ".hhc"; ".hhk"] (lower file)).

(** [os.path.exists(os.path.join(html_dir, file))] for a name [file] of a
    listing: the top level has an entry of that name. *)
Definition top_exists (top : list (string * tree)) (file : string) : bool :=
  existsb (fun e => String.eqb (fst e) file) top.

(** The top level of the directory and the copies made so far, as
    (source, destination). *)
Record state : Type := {
  top : list (string * tree);
  copies : list (string * string)
}.

(** The body of the inner loop [for file in files].  [shutil.copy2] of a
    regular file onto a path that does not exist adds the entry; the pass
    writes nothing below a subdirectory, so the bytes listed with the name
    are the bytes of the source at the time of the copy. *)
Definition copy_step (html_dir root : string) (st : state)
  (file : string * list Byte.byte) : state :=
  if is_asset (fst file) then
    let src_path := os_path_join root (fst file) in
    if negb (String.eqb root html_dir) then
      let dst_path := os_path_join html_dir (fst file) in
      if negb (top_exists (top st) (fst file)) then
        {| top := top st ++ [(fst file, File (snd file))];
           copies := copies st ++ [(src_path, dst_path)] |}
      else st
    else st
  else st.

(** removeText.py [copy_assets_to_flat_structure] and automation_cloud.py
    [HTMLProcessor._copy_assets_to_flat_structure]: the same two loops. *)
Definition copy_assets_to_flat_structure (html_dir : string)
  (entries : list (string * tree)) : state :=
  fold_left
    (fun st '(root, _, files) => fold_left (copy_step html_dir root) files st)
    (walk html_dir (Dir entries))
    {| top := entries; copies := [] |}.

End Flatten.

(** ** Merge order: combinePDFs.py and [CloudPDFConverter.combine_pdfs] *)

Module Merge.

(** combinePDFs.py, [extract_number] *)
Definition extract_number (filename : string) : result N :=
  match search_digits_underscore (basename filename) with
  | Some g => int g
  | None =>
      match search_leading_digits (basename filename) with
      | Some g => int g
      | None => Ok 999999%N
      end
  end.

(** [lambda x: int(re.search(r'(\d+)_', os.path.basename(x)).group(1))]:
    [.group] on the [None] of a failed search is an [AttributeError]. *)
Definition prefix_number (x : string) : result N :=
  match search_digits_underscore (basename x) with
  | Some g => int g
  | None => Raise AttributeError
  end.

(** [sorted(l, key=k)] and [l.sort(key=k)]: the keys are computed first,
    in order, and an exception from a key ends the sort. *)
Definition sort_by_key (k : string -> result N) (l : list string)
  : result (list string) :=
  bind (map_result (fun x => bind (k x) (fun n => Ok (n, x))) l) (fun kl =>
    Ok (map snd (sorted fst kl))).

(** [[os.path.join(d, f) for f in os.listdir(d) if f.endswith('.pdf')]] *)
Definition pdf_paths (dir : string) (listing : list string) : list string :=
  map (os_path_join dir)
      (filter (fun f => endswith ".pdf" f = true) listing).

(** combinePDFs.py: the paths in the order they are appended to the merger. *)
Definition combinePDFs_order (listing : list string) : result (list string) :=
  let pdf_files := pdf_paths "pdfs" listing in
  sort_by_key extract_number pdf_files.

(** automation_cloud.py, [CloudPDFConverter.combine_pdfs]: the value
    returned and the paths handed to the merger, in order. *)
Definition combine_pdfs (listing : list string) : bool * list string :=
  let pdf_files := pdf_paths "pdfs" listing in
  match pdf_files with
  | [] => (false, [])
  | _ =>
      match sort_by_key prefix_number pdf_files with
      | Ok pdf_files => (true, pdf_files)
      | Raise _ => (false, [])
      end
  end.

End Merge.

(** ** Listing the ranked pages: removeText.py and [_get_html_files] *)

Module Listing.

(** removeText.py: [f.endswith('.htm') or f.endswith('.html')] *)
Definition script_is_html (f : string) : bool :=
  endswith ".htm" f || endswith ".html" f.

(** automation_cloud.py: [file.lower().endswith(('.htm', '.html'))] *)
Definition cloud_is_html (file : string) : bool :=
  endswith_any [".htm"; ".html"] (lower file).

(** removeText.py, [htm_files] and [htm_files_sorted], from the listing of
    the directory on; the key is the lambda of [combine_pdfs]. *)
Definition htm_files_sorted (listing : list string) : result (list string) :=
  let htm_files :=
    map (os_path_join "reorganized")
        (filter (fun f => script_is_html f = true) listing) in
  Merge.sort_by_key Merge.prefix_number htm_files.

(** automation_cloud.py, [HTMLProcessor._get_html_files] and
    [CloudPDFConverter._get_html_files], from the listing on. *)
Definition _get_html_files (html_dir : string) (listing : list string)
  : result (list string) :=
  let html_files :=
    map (os_path_join html_dir)
        (filter (fun file => cloud_is_html file = true) listing) in
  Merge.sort_by_key Merge.prefix_number html_files.

End Listing.

(** ** Naming the PDFs: [CloudPDFConverter._convert_single_file] *)

Module Convert.

(** [p[:n]] *)
Fixpoint take (n : nat) (s : string) : string :=
  match n, s with
  | O, _ => EmptyString
  | S _, EmptyString => EmptyString
  | S n', String c s' => String c (take n' s')
  end.

(** [p.rfind('.')], [None] standing for -1. *)
Fixpoint rfind_dot (p : string) : option nat :=
  match p with
  | EmptyString => None
  | String c p' =>
      match rfind_dot p' with
      | Some i => Some (S i)
      | None => if Ascii.eqb c "." then Some O else None
      end
  end.

(** Some character of [s] is not a dot: the loop of [_splitext] over the
    characters between the last separator and the last dot. *)
Fixpoint has_non_dot (s : string) : bool :=
  match s with
  | EmptyString => false
  | String c s' => negb (Ascii.eqb c ".") || has_non_dot s'
  end.

(** [posixpath.splitext(p)]: the extension starts at the last dot of the
    last component, unless only dots come before it there. *)
Definition splitext (p : string) : string * string :=
  match rfind_dot p with
  | None => (p, EmptyString)
  | Some dotIndex =>
      let filenameIndex :=
        match rfind_sep p with Some i => S i | None => O end in
      if (filenameIndex <=? dotIndex)%nat
         && has_non_dot (take (dotIndex - filenameIndex) (drop filenameIndex p))
      then (take dotIndex p, drop dotIndex p)
      else (p, EmptyString)
  end.

Definition pdf_dir : string := "pdfs".

(** The path [_convert_single_file] writes the PDF of [html_file] to. *)
Definition pdf_path (html_file : string) : string :=
  let base_name := fst (splitext (basename html_file)) in
  os_path_join pdf_dir (base_name +:+ ".pdf").

End Convert.

(** ** Finding the table of contents: [find_hhc_file] *)

Module Locate.

(** automation.py [find_hhc_file] and automation_cloud.py
    [CloudCHMExtractor.find_hhc_file]: the first file of the walk whose name
    ends in [.hhc], whatever the case. *)
Definition find_in_files (root : string)
  (files : list (string * list Byte.byte)) : option string :=
  match List.find (fun f => endswith ".hhc" (lower (fst f))) files with
  | Some f => Some (os_path_join root (fst f))
  | None => None
  end.

Fixpoint find_in_walk
  (w : list (string * list string * list (string * list Byte.byte)))
  : option string :=
  match w with
  | [] => None
  | (root, _, files) :: w' =>
      match find_in_files root files with
      | Some hhc_path => Some hhc_path
      | None => find_in_walk w'
      end
  end.

Definition find_hhc_file (entries : list (string * Flatten.tree))
  : option string :=
  find_in_walk (Flatten.walk "extractedCHM" (Flatten.Dir entries)).

End Locate.

(** ** Extraction paths: [CloudCHMExtractor._extract_all_files] *)

Module Extract.

(** [ui.path[1:]] when the path starts with a slash *)
Definition relative_path (ui_path : string) : string :=
  if startswith "/" ui_path then drop 1 ui_path else ui_path.

(** The path the callback writes the entry to. *)
Definition output_path (ui_path : string) : string :=
  os_path_join "extractedCHM" (relative_path ui_path).

End Extract.

(** ** Clearing the target: [run_order_htm] and [HTMLOrganizer.organize] *)

Module Organize.

(** [shutil.rmtree(dir)]: the directory and everything below it go. *)
Definition rmtree (dir : string) (fs : gmap string Fs.node)
  : result (gmap string Fs.node) :=
  match fs !! dir with
  | Some Fs.Dir =>
      Ok (filter (fun kv => String.eqb (fst kv) dir
                            || startswith (dir +:+ "/") (fst kv) = false) fs)
  | Some (Fs.File _) => Raise (OtherError "NotADirectoryError")
  | None => Raise (FileNotFoundError dir)
  end.

(** [os.makedirs(dir, exist_ok=True)] for a name without parent *)
Definition makedirs (dir : string) (fs : gmap string Fs.node)
  : result (gmap string Fs.node) :=
  match fs !! dir with
  | Some (Fs.File _) => Raise (OtherError "FileExistsError")
  | _ => Ok (<[dir := Fs.Dir]> fs)
  end.

(** The first lines of [organize]:
    [if os.path.exists(d): shutil.rmtree(d)], then [os.makedirs(d)]. *)
Definition reset_target (fs : gmap string Fs.node)
  : result (gmap string Fs.node) :=
  bind (if Fs.path_exists fs Sequencer.reorganized_dir
        then rmtree Sequencer.reorganized_dir fs
        else Ok fs)
       (makedirs Sequencer.reorganized_dir).

End Organize.

(** ** Measures used by the statements *)

(** How many times [c] occurs in [s]. *)
Fixpoint count_char (c : ascii) (s : string) : nat :=
  match s with
  | EmptyString => 0
  | String a s' => (if Ascii.eqb a c then 1 else 0) + count_char c s'
  end.

Fixpoint all_digits (s : string) : bool :=
  match s with
  | EmptyString => true
  | String c s' => is_digit c && all_digits s'
  end.

(** The ranks [start], [start + 1], ... of [n] documents. *)
Fixpoint ranks_from (start : N) (n : nat) : list N :=
  match n with
  | O => []
  | S n' => start :: ranks_from (start + 1) n'
  end.

(** *** The sequencer, in the words of the specification *)

Module SequencerSpec.
Import Sequencer.

(** The document that reference [filename] becomes at rank [r]. *)
Definition document (filename : string) (r : N) : SequencedDocument :=
  {| source_path := os_path_join extraction_dir filename;
     rank := r;
     output_filename := format_04d r +:+ "_" +:+ basename filename |}.

(** Section 4.2 of the specification, steps 2a to 2e: a reference whose
    candidate path is not in the extracted set is skipped; one whose
    basename is the last copied basename is skipped; any other is emitted
    at the current rank, which then goes up by one. *)
Fixpoint sequence (extracted : string -> bool) (last : option string)
  (r : N) (refs : list string) : list SequencedDocument :=
  match refs with
  | [] => []
  | ref :: refs' =>
      if negb (extracted (os_path_join extraction_dir ref))
      then sequence extracted last r refs'
      else if negb (differs (basename ref) last)
      then sequence extracted last r refs'
      else document ref r
           :: sequence extracted (Some (basename ref)) (r + 1) refs'
  end.

(** Two states that differ at most in what was printed. *)
Definition same_progress (st st' : state) : Prop :=
  files st' = files st /\ last_copied st' = last_copied st
  /\ index st' = index st /\ copied st' = copied st.

Definition is_file (o : option Fs.node) : bool :=
  match o with Some (Fs.File _) => true | _ => false end.

Definition is_dir (o : option Fs.node) : bool :=
  match o with Some Fs.Dir => true | _ => false end.

(** No directory sits where the loop writes: both pipelines remove the
    target directory before the loop runs. *)
Definition target_clear (fs : gmap string Fs.node) : bool :=
  forallb (fun e => negb (startswith "reorganized/" (fst e)
                          && is_dir (Some (snd e))))
          (map_to_list fs).

(** No reference names a directory of the extraction. *)
Definition no_dir_refs (fs : gmap string Fs.node) (refs : list string) : bool :=
  forallb (fun ref => negb (is_dir (fs !! os_path_join extraction_dir ref)))
          refs.

(** The invariant of the loop: [index] is one more than the number of
    copies made, the ranks of the copies count up from 1, and every copy
    carries the name built from its rank. *)
Definition dense (st : state) : Prop :=
  index st = (1 + N.of_nat (length (copied st)))%N
  /\ map rank (copied st) = ranks_from 1 (length (copied st))
  /\ Forall (fun d => exists f, d = document f (rank d)) (copied st).

(** The three facts about one turn of the loop that the rest relies on; both
    pipelines have them. *)
Record step_laws (step : state -> string -> result state)
  : Prop := {
  law_skip : forall st f,
    Fs.path_exists (files st)
      (os_path_join extraction_dir f)
    && differs (basename f) (last_copied st) = false ->
    exists st', step st f = Ok st' /\ same_progress st st';
  law_emit : forall st f st',
    Fs.path_exists (files st)
      (os_path_join extraction_dir f)
    && differs (basename f) (last_copied st) = true ->
    step st f = Ok st' ->
    (exists data dst,
        startswith "reorganized/" dst = true
        /\ files st' = <[dst := Fs.File data]> (files st))
    /\ last_copied st' = Some (basename f)
    /\ index st' = (index st + 1)%N
    /\ copied st'
       = copied st ++ [document f (index st)];
  law_ok : forall st f,
    is_dir
      (files st !! os_path_join extraction_dir f) = false ->
    target_clear (files st) = true ->
    exists st', step st f = Ok st';
  law_congr : forall st1 st2 f,
    same_progress st1 st2 ->
    match step st1 f, step st2 f with
    | Ok st1', Ok st2' => same_progress st1' st2'
    | Raise e1, Raise e2 => e1 = e2
    | _, _ => False
    end
}.

(** A turn of the loop that leaves the reference aside: no exception, no
    copy, the same index, the same last copied basename, the same files. *)
Definition passes_over (step : state -> string -> result state)
  (st : state) (f : string) : Prop :=
  exists st', step st f = Ok st' /\ same_progress st st'.

(** A turn of the loop that copies the reference under the current index
    and moves the index on by one. *)
Definition copies_at_index (step : state -> string -> result state)
  (st : state) (f : string) : Prop :=
  exists st',
    step st f = Ok st'
    /\ copied st' = copied st ++ [document f (index st)]
    /\ index st' = (index st + 1)%N
    /\ last_copied st' = Some (basename f).

End SequencerSpec.

(** *** The merge order, as the statements speak of it *)

Module MergeSpec.

(** The number [extract_number] gives a path; it never raises. *)
Definition merge_key (x : string) : N :=
  match Merge.extract_number x with
  | Ok n => n
  | Raise _ => 0%N
  end.

(** [x] may stand before [y] in the merged document. *)
Definition key_le (x y : string) : Prop := (merge_key x <= merge_key y)%N.

(** The name has a run of digits directly followed by an underscore. *)
Definition has_prefix_group (x : string) : bool :=
  match search_digits_underscore (basename x) with
  | Some _ => true
  | None => false
  end.

End MergeSpec.

(** *** The TOC parser, as the statements speak of it *)

Module TocSpec.
Import Soup.

(** The reference a [param] tag stands for, if it has a value. *)
Definition reference_of (param : node) : list string :=
  match attrs_of param !! "value" with
  | Some v => [split_hash_0 v]
  | None => []
  end.

Definition has_value (param : node) : bool := has_attr (attrs_of param) "value".

End TocSpec.

(** *** The asset references of a document *)

Module NormalizerSpec.
Import Soup Normalizer.

(** The tags of a node, name and attributes, in document order. *)
Fixpoint tags_of (n : node) : list (string * gmap string string) :=
  match n with
  | NavigableString _ => []
  | Tag nm a cs => (nm, a) :: flat_map tags_of cs
  end.

Definition attr_list (a : gmap string string) (k : string) : list string :=
  match a !! k with
  | Some v => [v]
  | None => []
  end.

(** What the three loops select in a tag: the [src] of an image, the
    [href] of a [link] that [find_all('link', rel="stylesheet")] returns,
    the [src] of a script. *)
Definition selected_ref (tag : string * gmap string string) : list string :=
  let '(nm, a) := tag in
  (if is_img nm a then attr_list a "src" else [])
  ++ (if is_stylesheet_link nm a then attr_list a "href" else [])
  ++ (if is_script nm a then attr_list a "src" else []).

Definition selected_refs (soup : list node) : list string :=
  flat_map selected_ref (flat_map tags_of soup).

(** A stylesheet link, in the words of the specification: a [link] whose
    [rel] names a stylesheet.  The keywords of [rel] are the same in any
    case: [StyleSheet] names a stylesheet as [stylesheet] does. *)
Definition is_stylesheet_reference (nm : string) (a : gmap string string)
  : bool :=
  String.eqb nm "link"
  && match a !! "rel" with
     | Some v => existsb (fun t => String.eqb (lower t) "stylesheet") (tokens v)
     | None => false
     end.

(** The asset reference a tag carries: the [src] of an image, the [href] of
    a stylesheet link, the [src] of a script. *)
Definition asset_ref (tag : string * gmap string string) : list string :=
  let '(nm, a) := tag in
  (if is_img nm a then attr_list a "src" else [])
  ++ (if is_stylesheet_reference nm a then attr_list a "href" else [])
  ++ (if is_script nm a then attr_list a "src" else []).

(** The asset references of a document, in document order. *)
Definition asset_refs (soup : list node) : list string :=
  flat_map asset_ref (flat_map tags_of soup).

(** The tag is a stylesheet link for the code exactly when it is one for
    the specification: its [rel] has the keyword in lower case, or not at
    all. *)
Definition rel_as_written (tag : string * gmap string string) : bool :=
  Bool.eqb (is_stylesheet_link (fst tag) (snd tag))
           (is_stylesheet_reference (fst tag) (snd tag)).

(** A value without directory part. *)
Definition flat (v : string) : Prop := count_char sep v = 0.

(** One pass over the tree that rewrites the attributes of every tag. *)
Fixpoint map_attrs
  (g : string -> gmap string string -> gmap string string) (n : node) : node :=
  match n with
  | NavigableString _ => n
  | Tag nm a cs => Tag nm (g nm a) (map (map_attrs g) cs)
  end.

(** What the three loops of [fix_image_paths] do to the attributes of one
    tag, taken together. *)
Definition fix_attrs (nm : string) (a : gmap string string)
  : gmap string string :=
  let a := if is_img nm a then set_basename "src" a else a in
  let a := if is_stylesheet_link nm a then set_basename "href" a else a in
  if is_script nm a then set_basename "src" a else a.

End NormalizerSpec.

(** *** The framing scripts of a document *)

Module ScriptSpec.
Import Soup Normalizer.

Definition is_string (n : node) : bool :=
  match n with
  | NavigableString _ => true
  | Tag _ _ _ => false
  end.

(** What [html.parser] makes of markup: the content of a [script] element
    is text, never a tag. *)
Fixpoint scripts_hold_text (n : node) : bool :=
  match n with
  | NavigableString _ => true
  | Tag nm _ cs =>
      (negb (String.eqb nm "script") || forallb is_string cs)
      && forallb scripts_hold_text cs
  end.

(** [soup.find_all('script', string=lambda x: x and text in x)] *)
Definition framing_scripts (text : string) (soup : list node) : list node :=
  find_all "script" (is_framing_script text) soup.

End ScriptSpec.

(** *** The flattening pass, as the statements speak of it *)

Module FlattenSpec.
Import Flatten.

(** The files the walk comes by, each with the directory it is listed in,
    in the order of the two loops. *)
Definition visits
  (w : list (string * list string * list (string * list Byte.byte)))
  : list (string * (string * list Byte.byte)) :=
  flat_map (fun '(root, _, files) => map (pair root) files) w.

Definition visits_of (html_dir : string) (entries : list (string * tree))
  : list (string * (string * list Byte.byte)) :=
  visits (walk html_dir (Dir entries)).

(** The walk of the subdirectories of a listing, one after the other. *)
Definition subwalk (root : string) (entries : list (string * tree))
  : list (string * list string * list (string * list Byte.byte)) :=
  flat_map (fun e => match snd e with
                     | Dir _ => walk (os_path_join root (fst e)) (snd e)
                     | File _ => []
                     end) entries.

Definition is_file_entry (e : string * tree) : bool :=
  match snd e with File _ => true | Dir _ => false end.

(** The file is an asset listed below the top level: the pass wants it at
    the top. *)
Definition wanted (html_dir : string)
  (v : string * (string * list Byte.byte)) : bool :=
  is_asset (fst (snd v)) && negb (String.eqb (fst v) html_dir).

(** The bytes of the first wanted file of that name the walk comes by. *)
Fixpoint first_asset (html_dir name : string)
  (vs : list (string * (string * list Byte.byte))) : option (list Byte.byte) :=
  match vs with
  | [] => None
  | v :: vs' =>
      if wanted html_dir v && String.eqb (fst (snd v)) name
      then Some (snd (snd v))
      else first_asset html_dir name vs'
  end.

(** The two loops, as one loop over the visits. *)
Definition run (html_dir : string)
  (vs : list (string * (string * list Byte.byte))) (st : state) : state :=
  fold_left (fun st v => copy_step html_dir (fst v) st (snd v)) vs st.

(** Every asset below the top level has its name at the top level. *)
Definition closed (html_dir : string) (entries : list (string * tree)) : Prop :=
  forall v, v ∈ visits_of html_dir entries -> wanted html_dir v = true ->
            top_exists entries (fst (snd v)) = true.

(** Entry names as a file system has them: not empty, without separator. *)
Fixpoint wf_names (t : tree) : bool :=
  match t with
  | File _ => true
  | Dir entries =>
      forallb (fun e => negb (String.eqb (fst e) "")
                        && (count_char sep (fst e) =? 0)%nat
                        && wf_names (snd e)) entries
  end.

End FlattenSpec.

(** *** Invariants of the copy loop *)

Module SequencerInv.
Import Sequencer SequencerSpec.

(** Under a clear target a copying turn writes the source's bytes under
    the name built from the index, and nothing else. *)
Definition writes_ranked_name (step : state -> string -> result state)
  : Prop :=
  forall st f st',
    Fs.path_exists (files st) (os_path_join extraction_dir f)
    && differs (basename f) (last_copied st) = true ->
    target_clear (files st) = true ->
    step st f = Ok st' ->
    exists data,
      files st !! os_path_join extraction_dir f = Some (Fs.File data)
      /\ files st'
         = <[os_path_join reorganized_dir
               (format_04d (index st) +:+ "_" +:+ basename f)
             := Fs.File data]> (files st).

(** The copy of a document: where it is and what it holds. *)
Definition copy_in_place (fs0 : gmap string Fs.node) (st : state)
  (d : SequencedDocument) : Prop :=
  is_file (fs0 !! source_path d) = true
  /\ files st !! os_path_join reorganized_dir (output_filename d)
     = fs0 !! source_path d.

Definition copies_in_place (fs0 : gmap string Fs.node) (st : state) : Prop :=
  target_clear (files st) = true
  /\ dense st
  /\ (forall p, startswith "reorganized/" p = false ->
                files st !! p = fs0 !! p)
  /\ Forall (copy_in_place fs0 st) (copied st).

(** Whatever lies below [reorganized/] lies in a directory: the map lists
    [reorganized] as one. *)
Definition parents_listed (fs : gmap string Fs.node) : bool :=
  forallb (fun e => negb (startswith "reorganized/" (fst e))
                    || is_dir (fs !! reorganized_dir))
          (map_to_list fs).

End SequencerInv.

(** ** Sample inputs *)

Module Fixtures.

(** An extraction with two pages. *)
Definition extracted : gmap string Fs.node :=
  <["extractedCHM/a.htm" := Fs.File []]>
    (<["extractedCHM/sub/b.htm" := Fs.File []]> ∅).

(** The directory of property 6 of the specification, in two listing
    orders. *)
Definition pdfs_listing : list string :=
  ["0002_x.pdf"; "0001_y.pdf"; "0010_z.pdf"].
Definition pdfs_listing' : list string :=
  ["0010_z.pdf"; "0002_x.pdf"; "0001_y.pdf"].

(** What the parser makes of [<param name="Local">]: one [param] tag with
    a name and no value. *)
Definition param_without_value : Soup.node :=
  Soup.Tag "param" {["name" := "Local"]} [].

(** What it makes of [<param name="LOCAL" value="intro.htm#sec2">]. *)
Definition param_with_fragment : Soup.node :=
  Soup.Tag "param" (<["value" := "intro.htm#sec2"]> {["name" := "LOCAL"]}) [].

(** Stand-ins for the collaborators of the normalizer: detection always
    answers ASCII, decoding fails on a byte above 127, the parser takes the
    text as one string node, and the tree is written back as its text. *)
Definition detect_ascii (raw : list Byte.byte) : option string := Some "ascii".

Definition decode_ascii (enc : option string) (raw : list Byte.byte)
  : result string :=
  if forallb (fun b => (Byte.to_N b <? 128)%N) raw
  then Ok (string_of_list_byte raw)
  else Raise UnicodeDecodeError.

Definition parse_text (content : string) : result (list Soup.node) :=
  Ok [Soup.NavigableString content].

Definition render_text (soup : list Soup.node) : result (list Byte.byte) :=
  Ok (flat_map (fun n => match n with
                         | Soup.NavigableString t => list_byte_of_string t
                         | Soup.Tag _ _ _ => []
                         end) soup).

(** Two ranked pages: the first holds the byte FF, the second the text
    [axe2b]. *)
Definition reorganized : gmap string Fs.node :=
  <["reorganized/0001_a.htm" := Fs.File [Byte.xff]]>
    (<["reorganized/0002_b.htm" := Fs.File (list_byte_of_string "axe2b")]> ∅).

Definition reorganized_files : list string :=
  ["reorganized/0001_a.htm"; "reorganized/0002_b.htm"].

(** A document directory: a page and an image at the top, [s.css] in two
    subdirectories with different bytes, and a second [p.png] further down. *)
Definition document_dir : list (string * Flatten.tree) :=
  [("0001_a.htm", Flatten.File []);
   ("css", Flatten.Dir
             [("s.css", Flatten.File [Byte.x01]);
              ("img", Flatten.Dir [("p.png", Flatten.File [Byte.x02])]);
              ("x.htm", Flatten.File [])]);
   ("js", Flatten.Dir [("s.css", Flatten.File [Byte.x03])]);
   ("p.png", Flatten.File [Byte.x09])].

End Fixtures.

(** ** Further sample inputs *)

Module Samples.

(** An extraction with two pages and a directory of images. *)
Definition extracted_with_dir : gmap string Fs.node :=
  <["extractedCHM/images" := Fs.Dir]> Fixtures.extracted.

(** A target left by an earlier run, with a directory where the first page
    goes. *)
Definition stale_target : gmap string Fs.node :=
  <["reorganized" := Fs.Dir]>
    (<["reorganized/0001_a.htm" := Fs.Dir]> Fixtures.extracted).

(** A page with two scripts that mention the framing text. *)
Definition two_framing_scripts : list Soup.node :=
  [Soup.Tag "body" ∅
     [Soup.Tag "script" ∅ [Soup.NavigableString "show framing"];
      Soup.Tag "p" ∅ [Soup.NavigableString "text"];
      Soup.Tag "script" ∅ [Soup.NavigableString "show framing again"]]].

(** A tree that cannot be written out: [str(soup)] raises. *)
Definition render_refused (soup : list Soup.node) : result (list Byte.byte) :=
  Raise (OtherError "RecursionError").

(** The extraction of [Fixtures.extracted] with its root, as the path
    [extractedCHM/] names it. *)
Definition extracted_with_root : gmap string Fs.node :=
  <["extractedCHM/" := Fs.Dir]> Fixtures.extracted.

(** What the parser makes of
    [<link rel="StyleSheet" href="css/site.css">]. *)
Definition capitalised_link : Soup.node :=
  Soup.Tag "link" (<["href" := "css/site.css"]> {["rel" := "StyleSheet"]}) [].

End Samples.

(** * Facts about the built-ins *)

Arguments String.append (s1 s2)%_string_scope : simpl nomatch.

Section StrFacts.

Lemma append_nil_r (s : string) : s +:+ "" = s.
Proof. induction s as [|c s IH]; simpl; [reflexivity | now rewrite IH]. Qed.

Lemma append_assoc (a b c : string) : (a +:+ b) +:+ c = a +:+ (b +:+ c).
Proof. induction a as [|x a IH]; simpl; [reflexivity | now rewrite IH]. Qed.

Lemma length_append (a b : string) :
  String.length (a +:+ b) = String.length a + String.length b.
Proof. induction a as [|x a IH]; simpl; [reflexivity | now rewrite IH]. Qed.

Lemma count_char_append (c : ascii) (a b : string) :
  count_char c (a +:+ b) = count_char c a + count_char c b.
Proof. induction a as [|x a IH]; simpl; [reflexivity | rewrite IH; lia]. Qed.

Lemma count_char_drop_le (c : ascii) (n : nat) (s : string) :
  count_char c (drop n s) <= count_char c s.
Proof.
  revert s; induction n as [|n IH]; intros [|a s]; simpl; try lia.
  specialize (IH s). lia.
Qed.

Lemma startswith_append (p s : string) : startswith p (p +:+ s) = true.
Proof.
  induction p as [|c p IH]; simpl; [reflexivity |].
  now rewrite Ascii.eqb_refl, IH.
Qed.

Lemma startswith_spec (p s : string) :
  startswith p s = true <-> exists r, s = p +:+ r.
Proof.
  split.
  - revert s; induction p as [|c p IH]; intros s H; simpl in *.
    + now exists s.
    + destruct s as [|d s]; [discriminate |].
      apply andb_true_iff in H as [Hc Hp].
      apply Ascii.eqb_eq in Hc; subst d.
      destruct (IH _ Hp) as [r ->]. now exists r.
  - intros [r ->]. apply startswith_append.
Qed.

(** *** rfind and basename *)

Lemma rfind_sep_none (p : string) :
  rfind_sep p = None <-> count_char sep p = 0.
Proof.
  induction p as [|c p IH]; simpl; [tauto |].
  destruct (rfind_sep p) as [i|].
  - split; [discriminate |]. intros H.
    assert (count_char sep p = 0) as H0 by lia.
    apply IH in H0. discriminate.
  - destruct (Ascii.eqb c sep); simpl; [split; [discriminate | lia] | tauto].
Qed.

Lemma rfind_sep_some (p : string) (i : nat) :
  rfind_sep p = Some i -> count_char sep (drop (S i) p) = 0.
Proof.
  revert i; induction p as [|c p IH]; intros i H; simpl in *; [discriminate |].
  destruct (rfind_sep p) as [j|] eqn:Hj.
  - injection H as <-. now apply IH.
  - destruct (Ascii.eqb c sep); [| discriminate].
    injection H as <-. simpl. now apply rfind_sep_none.
Qed.

Lemma basename_no_sep (p : string) : count_char sep (basename p) = 0.
Proof.
  unfold basename. destruct (rfind_sep p) as [i|] eqn:H.
  - now apply rfind_sep_some.
  - now apply rfind_sep_none.
Qed.

Lemma basename_id (p : string) : count_char sep p = 0 -> basename p = p.
Proof.
  intros H. apply rfind_sep_none in H. unfold basename. now rewrite H.
Qed.

Lemma basename_idempotent (p : string) : basename (basename p) = basename p.
Proof. apply basename_id, basename_no_sep. Qed.

Lemma rfind_sep_split (p : string) (i : nat) :
  rfind_sep p = Some i ->
  exists d, p = d +:+ String sep (drop (S i) p) /\ String.length d = i.
Proof.
  revert i; induction p as [|c p IH]; intros i H; simpl in H; [discriminate |].
  destruct (rfind_sep p) as [j|] eqn:Hj.
  - injection H as <-. destruct (IH j eq_refl) as (d & Hd & Hl).
    exists (String c d). split; [| simpl; now rewrite Hl].
    simpl. f_equal. exact Hd.
  - destruct (Ascii.eqb c sep) eqn:Hc; [| discriminate].
    injection H as <-. apply Ascii.eqb_eq in Hc; subst c.
    now exists "".
Qed.

(** The basename is the final segment: what precedes it is empty or ends
    with a separator, and it holds none. *)
Lemma basename_final_segment (p : string) :
  exists d, p = d +:+ basename p
            /\ (d = "" \/ exists d', d = d' +:+ String sep "")
            /\ count_char sep (basename p) = 0.
Proof.
  pose proof (basename_no_sep p) as Hn.
  unfold basename in *. destruct (rfind_sep p) as [i|] eqn:Hi.
  - destruct (rfind_sep_split _ _ Hi) as (d & Hd & _).
    exists (d +:+ String sep ""). split; [| split; [right; now exists d | exact Hn]].
    rewrite append_assoc. exact Hd.
  - exists "". split; [reflexivity | split; [now left | exact Hn]].
Qed.

Lemma drop_append (d x : string) : drop (String.length d) (d +:+ x) = x.
Proof. induction d as [|c d IH]; simpl; [now destruct x | exact IH]. Qed.

Lemma rfind_sep_append (d x : string) :
  count_char sep x = 0 ->
  rfind_sep (d +:+ String sep x) = Some (String.length d).
Proof.
  intros H. induction d as [|c d IH]; simpl.
  - apply rfind_sep_none in H. now rewrite H.
  - now rewrite IH.
Qed.

(** The basename of a name inside a directory is the name. *)
Lemma basename_in_dir (d x : string) :
  count_char sep x = 0 -> basename (d +:+ String sep x) = x.
Proof.
  intros H. unfold basename. rewrite (rfind_sep_append _ _ H).
  change (d +:+ String sep x) with (d +:+ (String sep "" +:+ x)).
  rewrite <- append_assoc.
  replace (S (String.length d)) with (String.length (d +:+ String sep ""))
    by (rewrite length_append; simpl; lia).
  apply drop_append.
Qed.

End StrFacts.

Section FormatFacts.

Lemma all_digits_append (a b : string) :
  all_digits (a +:+ b) = all_digits a && all_digits b.
Proof.
  induction a as [|c a IH]; simpl; [reflexivity |].
  now rewrite IH, andb_assoc.
Qed.

Lemma all_digits_zeros (k : nat) : all_digits (zeros k) = true.
Proof. induction k as [|k IH]; simpl; [reflexivity | exact IH]. Qed.

Lemma all_digits_str_of_uint (d : Decimal.uint) :
  all_digits (NilEmpty.string_of_uint d) = true.
Proof. induction d; simpl; try reflexivity; assumption. Qed.

Lemma format_04d_digits (n : N) : all_digits (format_04d n) = true.
Proof.
  unfold format_04d, str_of_int.
  now rewrite all_digits_append, all_digits_zeros, all_digits_str_of_uint.
Qed.

Lemma length_zeros (k : nat) : String.length (zeros k) = k.
Proof. induction k as [|k IH]; simpl; [reflexivity | now rewrite IH]. Qed.

Lemma format_04d_length (n : N) : 4 <= String.length (format_04d n).
Proof.
  unfold format_04d. rewrite length_append, length_zeros. lia.
Qed.

Lemma format_04d_cons (n : N) :
  exists c s, format_04d n = String c s /\ is_digit c = true.
Proof.
  pose proof (format_04d_length n) as Hl.
  pose proof (format_04d_digits n) as Hd.
  destruct (format_04d n) as [|c s]; simpl in *; [lia |].
  apply andb_true_iff in Hd as [Hc _]. now exists c, s.
Qed.

Lemma uint_of_string_zeros (k : nat) (s : string) :
  NilEmpty.uint_of_string (zeros k +:+ s)
  = option_map (Nat.iter k Decimal.D0) (NilEmpty.uint_of_string s).
Proof.
  induction k as [|k IH]; simpl.
  - now destruct (NilEmpty.uint_of_string s).
  - rewrite IH. now destruct (NilEmpty.uint_of_string s).
Qed.

Lemma of_uint_iter_D0 (k : nat) (d : Decimal.uint) :
  N.of_uint (Nat.iter k Decimal.D0 d) = N.of_uint d.
Proof. induction k as [|k IH]; simpl; [reflexivity | exact IH]. Qed.

(** Reading back what [format_04d] wrote gives the number. *)
Lemma int_format_04d (n : N) : int (format_04d n) = Ok n.
Proof.
  destruct (format_04d_cons n) as (c & s & Heq & _).
  unfold int. rewrite Heq, <- Heq. clear Heq.
  unfold format_04d, str_of_int.
  rewrite uint_of_string_zeros, NilEmpty.usu. simpl.
  now rewrite of_uint_iter_D0, DecimalN.Unsigned.of_to.
Qed.

Lemma format_04d_inj (a b : N) : format_04d a = format_04d b -> a = b.
Proof.
  intros H. pose proof (int_format_04d a) as Ha.
  rewrite H, int_format_04d in Ha. now injection Ha.
Qed.

Lemma is_digit_not_underscore (c : ascii) :
  is_digit c = true -> Ascii.eqb c "_" = false.
Proof.
  intros H. destruct (Ascii.eqb c "_") eqn:E; [| reflexivity].
  apply Ascii.eqb_eq in E; subst c. discriminate.
Qed.

Lemma is_digit_not_sep (c : ascii) :
  is_digit c = true -> Ascii.eqb sep c = false.
Proof.
  intros H. destruct (Ascii.eqb sep c) eqn:E; [| reflexivity].
  apply Ascii.eqb_eq in E; subst c. discriminate.
Qed.

(** A run of digits followed by an underscore can be read in one way. *)
Lemma digits_underscore_inj (d1 d2 x y : string) :
  all_digits d1 = true -> all_digits d2 = true ->
  d1 +:+ String "_" x = d2 +:+ String "_" y -> d1 = d2 /\ x = y.
Proof.
  revert d2; induction d1 as [|c d1 IH]; intros [|e d2] H1 H2 Heq;
    simpl in *.
  - now injection Heq.
  - injection Heq as <- _. discriminate.
  - injection Heq as -> _. discriminate.
  - injection Heq as -> Heq.
    apply andb_true_iff in H1 as [_ H1]. apply andb_true_iff in H2 as [_ H2].
    destruct (IH _ H1 H2 Heq) as [-> ->]. now split.
Qed.

Lemma span_digits_run (d : string) (c : ascii) (r : string) :
  all_digits d = true -> is_digit c = false ->
  span_digits (d +:+ String c r) = (d, String c r).
Proof.
  intros Hd Hc. induction d as [|a d IH]; simpl in *.
  - now rewrite Hc.
  - apply andb_true_iff in Hd as [Ha Hd]. now rewrite Ha, IH.
Qed.

Lemma search_digits_underscore_here (s g : string) :
  match_digits_underscore s = Some g -> search_digits_underscore s = Some g.
Proof.
  intros H. destruct s; cbn [search_digits_underscore]; now rewrite H.
Qed.

(** The search finds the prefix that the sequencer wrote. *)
Lemma search_format_04d (n : N) (base : string) :
  search_digits_underscore (format_04d n +:+ "_" +:+ base)
  = Some (format_04d n).
Proof.
  destruct (format_04d_cons n) as (c & s & Heq & Hc).
  pose proof (format_04d_digits n) as Hd.
  apply search_digits_underscore_here.
  unfold match_digits_underscore.
  change ("_" +:+ base) with (String "_" base).
  rewrite span_digits_run by (assumption || reflexivity).
  now rewrite Heq.
Qed.

End FormatFacts.

(** * Sequencer *)

Section PathFacts.
Import Sequencer.

Lemma startswith_append_l (p a r : string) :
  startswith p a = true -> startswith p (a +:+ r) = true.
Proof.
  intros H. apply startswith_spec in H as [x ->].
  rewrite append_assoc. apply startswith_append.
Qed.

Lemma join_relative (a b : string) :
  startswith "/" b = false -> exists r, os_path_join a b = a +:+ r.
Proof.
  intros H. unfold os_path_join. rewrite H.
  destruct (String.eqb a "" || endswith "/" a); eauto.
Qed.

Lemma no_sep_relative (b : string) :
  count_char sep b = 0 -> startswith "/" b = false.
Proof.
  destruct b as [|c b]; [reflexivity |].
  cbn [count_char startswith]. change "/"%char with sep.
  rewrite (Ascii.eqb_sym sep c). destruct (Ascii.eqb c sep); intros H.
  - simpl in H. discriminate H.
  - reflexivity.
Qed.

(** The name written for rank [r] does not begin with a separator. *)
Lemma new_filename_relative (r : N) (base : string) :
  startswith "/" (format_04d r +:+ "_" +:+ base) = false.
Proof.
  destruct (format_04d_cons r) as (c & s & -> & Hc).
  pose proof (is_digit_not_sep _ Hc) as E. unfold sep in E.
  cbn [String.append startswith]. now rewrite E.
Qed.

Lemma dst_in_target (r : N) (base : string) :
  startswith "reorganized/"
    (os_path_join reorganized_dir (format_04d r +:+ "_" +:+ base)) = true.
Proof.
  unfold os_path_join. rewrite new_filename_relative. reflexivity.
Qed.

Lemma src_outside_target (filename : string) :
  startswith "reorganized/" (os_path_join extraction_dir filename) = false.
Proof.
  unfold os_path_join. destruct (startswith "/" filename) eqn:H.
  - apply startswith_spec in H as [r ->]. reflexivity.
  - reflexivity.
Qed.

End PathFacts.

Section CopyFacts.
Import Sequencer SequencerSpec.

Lemma copyfile_ok (src dst : string) (fs fs' : gmap string Fs.node) :
  Fs.copyfile src dst fs = Ok fs' ->
  exists data, fs !! src = Some (Fs.File data)
               /\ fs' = <[dst := Fs.File data]> fs.
Proof.
  unfold Fs.copyfile. destruct (String.eqb src dst); [discriminate |].
  destruct (fs !! src) as [[data|]|]; try discriminate.
  destruct (fs !! dst) as [[?|]|]; try discriminate;
    intros [= <-]; now exists data.
Qed.

Lemma copyfile_succeeds (src dst : string) (fs : gmap string Fs.node)
  (data : list Byte.byte) :
  src <> dst -> fs !! src = Some (Fs.File data) -> fs !! dst <> Some Fs.Dir ->
  Fs.copyfile src dst fs = Ok (<[dst := Fs.File data]> fs).
Proof.
  intros Hne Hs Hd. unfold Fs.copyfile.
  destruct (String.eqb_spec src dst) as [? | _]; [contradiction |].
  rewrite Hs. destruct (fs !! dst) as [[?|]|]; try reflexivity.
  now contradiction Hd.
Qed.

Lemma copy2_ok (src dst : string) (fs fs' : gmap string Fs.node) :
  Fs.copy2 src dst fs = Ok fs' ->
  exists data dst',
    fs !! src = Some (Fs.File data) /\ fs' = <[dst' := Fs.File data]> fs
    /\ (dst' = dst \/ dst' = os_path_join dst (basename src)).
Proof.
  unfold Fs.copy2. intros H.
  destruct (fs !! dst) as [[?|]|]; apply copyfile_ok in H as (d & Hs & ->);
    exists d; eauto.
Qed.

Lemma copy2_succeeds (src dst : string) (fs : gmap string Fs.node)
  (data : list Byte.byte) :
  src <> dst -> fs !! src = Some (Fs.File data) -> fs !! dst <> Some Fs.Dir ->
  Fs.copy2 src dst fs = Ok (<[dst := Fs.File data]> fs).
Proof.
  intros Hne Hs Hd. unfold Fs.copy2.
  destruct (fs !! dst) as [[?|]|] eqn:E; try (now contradiction Hd);
    apply copyfile_succeeds; auto; rewrite E; discriminate.
Qed.

(** What [target_clear] computes. *)
Lemma target_clear_spec (fs : gmap string Fs.node) :
  target_clear fs = true <->
  forall p, startswith "reorganized/" p = true -> fs !! p <> Some Fs.Dir.
Proof.
  unfold target_clear. rewrite forallb_forall. split.
  - intros H p Hp Hd.
    apply elem_of_map_to_list, list_elem_of_In in Hd.
    specialize (H _ Hd). cbn [fst snd] in H. rewrite Hp in H. discriminate.
  - intros H [p n] Hin. cbn [fst snd].
    apply list_elem_of_In, elem_of_map_to_list in Hin.
    destruct (startswith "reorganized/" p) eqn:Hp; [| reflexivity].
    destruct n; [reflexivity |]. now contradiction (H p Hp).
Qed.

Lemma target_clear_insert (fs : gmap string Fs.node) (p : string)
  (data : list Byte.byte) :
  target_clear fs = true -> target_clear (<[p := Fs.File data]> fs) = true.
Proof.
  rewrite !target_clear_spec. intros H q Hq.
  destruct (decide (p = q)) as [-> | Hne].
  - rewrite lookup_insert_eq. discriminate.
  - rewrite lookup_insert_ne by assumption. now apply H.
Qed.

Lemma join_dir_in_target (dst name : string) :
  startswith "reorganized/" dst = true -> count_char sep name = 0 ->
  startswith "reorganized/" (os_path_join dst name) = true.
Proof.
  intros Hd Hn. destruct (join_relative dst name (no_sep_relative _ Hn)) as [r ->].
  now apply startswith_append_l.
Qed.

End CopyFacts.

Section StepLaws.
Import Sequencer SequencerSpec.

Lemma path_exists_true (fs : gmap string Fs.node) (p : string) :
  Fs.path_exists fs p = true -> exists n, fs !! p = Some n.
Proof. unfold Fs.path_exists. destruct (fs !! p); [eauto | discriminate]. Qed.

Lemma src_dst_differ (f : string) (r : N) (base : string) :
  os_path_join extraction_dir f
  <> os_path_join reorganized_dir (format_04d r +:+ "_" +:+ base).
Proof.
  intros E. pose proof (src_outside_target f) as H.
  rewrite E, dst_in_target in H. discriminate.
Qed.

Lemma copy_step_laws : step_laws copy_step.
Proof.
  split.
  - intros st f H. exists st. unfold copy_step. rewrite H.
    repeat split; reflexivity.
  - intros st f st' H. unfold copy_step. rewrite H.
    destruct (Fs.copy2 _ _ _) as [fs'|] eqn:Hc; [| discriminate].
    cbn [bind]. intros [= <-]. cbn [files last_copied index copied].
    split; [| auto].
    apply copy2_ok in Hc as (data & dst' & _ & -> & Hdst).
    exists data, dst'. split; [| reflexivity].
    destruct Hdst as [-> | ->].
    + apply dst_in_target.
    + apply join_dir_in_target; [apply dst_in_target | apply basename_no_sep].
  - intros st f Hd Hc. unfold copy_step.
    destruct (_ && _) eqn:H; [| eauto].
    apply andb_true_iff in H as [He _].
    apply path_exists_true in He as [n Hn]. rewrite Hn in Hd.
    destruct n as [data|]; [| discriminate].
    erewrite copy2_succeeds; [cbn [bind]; eauto | apply src_dst_differ | exact Hn |].
    apply target_clear_spec; [assumption | apply dst_in_target].
  - intros [fs1 l1 i1 c1 o1] [fs2 l2 i2 c2 o2] f (Hf & Hl & Hi & Hc).
    cbn [files last_copied index copied] in *. subst.
    unfold copy_step. cbn [files last_copied index copied stdout].
    destruct (_ && _); [| repeat split].
    destruct (Fs.copy2 _ _ _); cbn [bind]; [repeat split | reflexivity].
Qed.

Lemma orderHTM_step_laws : step_laws orderHTM_step.
Proof.
  split.
  - intros st f H. unfold orderHTM_step. rewrite H.
    destruct (negb _); eexists; (split; [reflexivity |]);
      repeat split; reflexivity.
  - intros st f st' H. unfold orderHTM_step. cbv zeta.
    rewrite H, !append_assoc.
    destruct (Fs.copyfile _ _ _) as [fs'|] eqn:Hc; [| discriminate].
    cbn [bind]. intros [= <-]. cbn [files last_copied index copied].
    split; [| auto].
    apply copyfile_ok in Hc as (data & _ & ->).
    exists data. eexists. split; [| reflexivity].
    apply dst_in_target.
  - intros st f Hd Hc. unfold orderHTM_step. cbv zeta.
    destruct (_ && _) eqn:H; [| destruct (negb _); eauto].
    apply andb_true_iff in H as [He _].
    apply path_exists_true in He as [n Hn]. rewrite Hn in Hd.
    destruct n as [data|]; [| discriminate].
    rewrite !append_assoc.
    erewrite copyfile_succeeds; [cbn [bind]; eauto | apply src_dst_differ | exact Hn |].
    apply target_clear_spec; [assumption | apply dst_in_target].
  - intros [fs1 l1 i1 c1 o1] [fs2 l2 i2 c2 o2] f (Hf & Hl & Hi & Hc).
    cbn [files last_copied index copied] in *. subst.
    unfold orderHTM_step. cbn [files last_copied index copied stdout].
    destruct (_ && _).
    + destruct (Fs.copyfile _ _ _); cbn [bind]; [repeat split | reflexivity].
    + destruct (negb _); repeat split.
Qed.

End StepLaws.

Lemma for_each_app {S A : Type} (body : S -> A -> result S)
  (l1 l2 : list A) (s : S) :
  for_each body (l1 ++ l2) s
  = match for_each body l1 s with
    | (s1, None) => for_each body l2 s1
    | (s1, Some e) => (s1, Some e)
    end.
Proof.
  revert s; induction l1 as [|x l1 IH]; intros s; simpl; [reflexivity |].
  destruct (body s x); [apply IH | reflexivity].
Qed.

Section SequencerLoop.
Import Sequencer SequencerSpec.

Variable step : state -> string -> result state.
Hypothesis laws : step_laws step.

Lemma step_frame (st st' : state) (f : string) :
  step st f = Ok st' ->
  (forall p, startswith "reorganized/" p = false ->
             files st' !! p = files st !! p)
  /\ (target_clear (files st) = true -> target_clear (files st') = true).
Proof.
  intros Hs.
  destruct (Fs.path_exists (files st) (os_path_join extraction_dir f)
            && differs (basename f) (last_copied st)) eqn:Hc.
  - destruct (law_emit _ laws _ _ _ Hc Hs) as ((data & dst & Hd & ->) & _).
    split.
    + intros p Hp. apply lookup_insert_ne. intros ->. congruence.
    + apply target_clear_insert.
  - destruct (law_skip _ laws _ _ Hc) as (st'' & Hs' & Hf & _).
    rewrite Hs in Hs'. injection Hs' as <-. rewrite Hf. auto.
Qed.

Lemma step_keeps_sources (st st' : state) (f g : string) :
  step st f = Ok st' ->
  files st' !! os_path_join extraction_dir g
  = files st !! os_path_join extraction_dir g.
Proof.
  intros Hs. apply (proj1 (step_frame _ _ _ Hs)), src_outside_target.
Qed.

Lemma loop_invariant (I : state -> Prop) :
  (forall st f st', I st -> step st f = Ok st' -> I st') ->
  forall refs st, I st -> I (fst (for_each step refs st)).
Proof.
  intros Hstep refs. induction refs as [|r refs IH]; intros st HI; simpl.
  - exact HI.
  - destruct (step st r) as [st1|e] eqn:Hs; [| exact HI].
    apply IH. eapply Hstep; eauto.
Qed.

Lemma ranks_from_snoc (s : N) (n : nat) :
  ranks_from s (S n) = ranks_from s n ++ [(s + N.of_nat n)%N].
Proof.
  revert s; induction n as [|n IH]; intros s.
  - simpl. now rewrite N.add_0_r.
  - change (ranks_from s (S (S n))) with (s :: ranks_from (s + 1) (S n)).
    rewrite IH. simpl. do 3 f_equal. lia.
Qed.

Lemma step_dense (st st' : state) (f : string) :
  dense st -> step st f = Ok st' -> dense st'.
Proof.
  intros (Hi & Hr & Hd) Hs.
  destruct (Fs.path_exists (files st) (os_path_join extraction_dir f)
            && differs (basename f) (last_copied st)) eqn:Hc.
  - destruct (law_emit _ laws _ _ _ Hc Hs) as (_ & _ & Hi' & Hc').
    unfold dense. rewrite Hi', Hc', length_app, map_app, Nat.add_1_r.
    rewrite ranks_from_snoc, <- Hr. cbn [map length rank document].
    repeat split.
    + lia.
    + now rewrite Hi.
    + apply Forall_app. split; [exact Hd |].
      constructor; [| constructor]. now exists f.
  - destruct (law_skip _ laws _ _ Hc) as (st'' & Hs' & _ & _ & Hi' & Hc').
    rewrite Hs in Hs'. injection Hs' as <-.
    unfold dense. now rewrite Hi', Hc'.
Qed.

Lemma loop_dense (refs : list string) (fs : gmap string Fs.node) :
  dense (fst (for_each step refs (initial fs))).
Proof.
  apply loop_invariant; [intros; eapply step_dense; eauto |].
  repeat split; constructor.
Qed.

Lemma sequence_ext (ex1 ex2 : string -> bool) (refs : list string) :
  (forall f, ex1 (os_path_join extraction_dir f)
             = ex2 (os_path_join extraction_dir f)) ->
  forall last r, sequence ex1 last r refs = sequence ex2 last r refs.
Proof.
  intros H. induction refs as [|f refs IH]; intros last r; simpl.
  - reflexivity.
  - now rewrite H, !IH.
Qed.

(** The copies made are the documents of the specification's algorithm,
    all of them when the loop runs to its end and the first ones when an
    exception cuts it short. *)
Lemma loop_refines (refs : list string) :
  forall st st' e,
    for_each step refs st = (st', e) ->
    exists rest,
      copied st ++ sequence (Fs.path_exists (files st)) (last_copied st)
                     (index st) refs
      = copied st' ++ rest
      /\ (e = None -> rest = []).
Proof.
  induction refs as [|f refs IH]; intros st st' e Hrun; simpl in Hrun.
  - injection Hrun as <- <-. exists []. now split.
  - destruct (step st f) as [st1|x] eqn:Hs.
    + destruct (IH _ _ _ Hrun) as (rest & Heq & Hnone).
      exists rest. split; [| exact Hnone]. rewrite <- Heq. clear Heq.
      rewrite (sequence_ext (Fs.path_exists (files st1))
                 (Fs.path_exists (files st)))
        by (intros g; unfold Fs.path_exists;
            now rewrite (step_keeps_sources _ _ _ g Hs)).
      cbn [sequence].
      destruct (Fs.path_exists (files st) (os_path_join extraction_dir f)
                && differs (basename f) (last_copied st)) eqn:Hc.
      * destruct (law_emit _ laws _ _ _ Hc Hs) as (_ & -> & -> & ->).
        apply andb_true_iff in Hc as [-> ->]. cbn [negb].
        now rewrite <- app_assoc.
      * destruct (law_skip _ laws _ _ Hc) as (st'' & Hs' & _ & Hl & Hi & Hcp).
        rewrite Hs in Hs'. injection Hs' as <-. rewrite Hl, Hi, Hcp.
        apply andb_false_iff in Hc as [-> | ->]; cbn [negb]; [reflexivity |].
        now destruct (negb _).
    + injection Hrun as <- <-. eexists. split; [reflexivity | discriminate].
Qed.

Lemma no_dir_refs_ext (fs1 fs2 : gmap string Fs.node) (refs : list string) :
  (forall g, fs1 !! os_path_join extraction_dir g
             = fs2 !! os_path_join extraction_dir g) ->
  no_dir_refs fs1 refs = no_dir_refs fs2 refs.
Proof.
  intros H. unfold no_dir_refs.
  induction refs as [|g refs IH]; cbn [forallb]; [reflexivity |].
  now rewrite H, IH.
Qed.

Lemma loop_ok (refs : list string) :
  forall st,
    no_dir_refs (files st) refs = true ->
    target_clear (files st) = true ->
    snd (for_each step refs st) = None.
Proof.
  induction refs as [|f refs IH]; intros st Hn Ht; [reflexivity |].
  cbn [no_dir_refs forallb] in Hn. apply andb_true_iff in Hn as [Hf Hn].
  apply negb_true_iff in Hf.
  destruct (law_ok _ laws _ _ Hf Ht) as [st1 Hs].
  cbn [for_each]. rewrite Hs. apply IH.
  - rewrite (no_dir_refs_ext (files st1) (files st)); [exact Hn |].
    intros g. exact (step_keeps_sources _ _ _ g Hs).
  - now apply (proj2 (step_frame _ _ _ Hs)).
Qed.

(** A run that meets no directory makes exactly the documents of the
    specification's algorithm. *)
Lemma loop_complete (refs : list string) (fs : gmap string Fs.node) :
  no_dir_refs fs refs = true -> target_clear fs = true ->
  snd (for_each step refs (initial fs)) = None
  /\ copied (fst (for_each step refs (initial fs)))
     = sequence (Fs.path_exists fs) None 1 refs.
Proof.
  intros Hn Ht. pose proof (loop_ok refs (initial fs) Hn Ht) as Hok.
  split; [exact Hok |].
  destruct (for_each step refs (initial fs)) as [st' e] eqn:Hrun.
  destruct (loop_refines _ _ _ _ Hrun) as (rest & Heq & Hnone).
  cbn [snd] in Hok. rewrite (Hnone Hok), app_nil_r in Heq.
  symmetry. exact Heq.
Qed.

Lemma same_progress_refl (st : state) : same_progress st st.
Proof. repeat split. Qed.

Lemma loop_keeps_sources (refs : list string) (g : string) :
  forall st,
    files (fst (for_each step refs st)) !! os_path_join extraction_dir g
    = files st !! os_path_join extraction_dir g.
Proof.
  induction refs as [|f refs IH]; intros st; simpl; [reflexivity |].
  destruct (step st f) as [st1|e] eqn:Hs; [| reflexivity].
  rewrite IH. exact (step_keeps_sources _ _ _ g Hs).
Qed.

Lemma loop_congr (refs : list string) :
  forall st1 st2,
    same_progress st1 st2 ->
    same_progress (fst (for_each step refs st1)) (fst (for_each step refs st2))
    /\ snd (for_each step refs st1) = snd (for_each step refs st2).
Proof.
  induction refs as [|f refs IH]; intros st1 st2 Hp; simpl; [now split |].
  pose proof (law_congr _ laws st1 st2 f Hp) as Hc.
  destruct (step st1 f) as [a|e1], (step st2 f) as [b|e2]; try contradiction.
  - now apply IH.
  - subst. now split.
Qed.

(** Taking a dangling reference out of the list changes nothing but,
    possibly, what is printed. *)
Lemma loop_skips_dangling (pre post : list string) (f : string)
  (fs : gmap string Fs.node) :
  Fs.path_exists fs (os_path_join extraction_dir f) = false ->
  same_progress (fst (for_each step (pre ++ post) (initial fs)))
                (fst (for_each step (pre ++ f :: post) (initial fs)))
  /\ snd (for_each step (pre ++ post) (initial fs))
     = snd (for_each step (pre ++ f :: post) (initial fs)).
Proof.
  intros Hf. rewrite !for_each_app.
  pose proof (loop_keeps_sources pre f (initial fs)) as Hk.
  destruct (for_each step pre (initial fs)) as [st1 [e|]];
    [split; [apply same_progress_refl | reflexivity] |].
  cbn [fst initial files] in Hk.
  assert (Fs.path_exists (files st1) (os_path_join extraction_dir f)
          && differs (basename f) (last_copied st1) = false) as Hc.
  { unfold Fs.path_exists in *. rewrite Hk.
    destruct (fs !! _); [discriminate | reflexivity]. }
  destruct (law_skip _ laws _ _ Hc) as (st1' & Hs & Hp).
  cbn [for_each]. rewrite Hs. apply loop_congr. exact Hp.
Qed.

End SequencerLoop.

(** ** The claims about the sequencer *)

Section SequencerClaims.
Import Sequencer SequencerSpec.

Lemma orderHTM_copy_loop_progress (refs : list string)
  (fs : gmap string Fs.node) :
  same_progress (fst (for_each orderHTM_step refs (initial fs)))
                (fst (orderHTM_copy_loop refs fs))
  /\ snd (orderHTM_copy_loop refs fs)
     = snd (for_each orderHTM_step refs (initial fs)).
Proof.
  unfold orderHTM_copy_loop.
  destruct (for_each orderHTM_step refs (initial fs)) as [st [e|]];
    cbn [fst snd]; repeat split.
Qed.

Lemma orderHTM_copy_loop_copied (refs : list string)
  (fs : gmap string Fs.node) :
  copied (fst (orderHTM_copy_loop refs fs))
  = copied (fst (for_each orderHTM_step refs (initial fs))).
Proof. now destruct (orderHTM_copy_loop_progress refs fs) as ((_ & _ & _ & ->) & _). Qed.

Lemma differs_same (b : string) : differs b (Some b) = false.
Proof. unfold differs. now rewrite String.eqb_refl. Qed.

Lemma differs_other (b c : string) :
  String.eqb b c = false -> differs b (Some c) = true.
Proof. unfold differs. now intros ->. Qed.

Lemma is_file_exists (fs : gmap string Fs.node) (p : string) :
  is_file (fs !! p) = true ->
  Fs.path_exists fs p = true /\ is_dir (fs !! p) = false.
Proof.
  unfold is_file, Fs.path_exists, is_dir.
  destruct (fs !! p) as [[?|]|]; now intros.
Qed.

Lemma missing_not_dir (fs : gmap string Fs.node) (p : string) :
  Fs.path_exists fs p = false -> is_dir (fs !! p) = false.
Proof.
  unfold Fs.path_exists, is_dir. destruct (fs !! p); [discriminate | reflexivity].
Qed.

(** One skipped turn and one copying turn, for any loop body with the
    three laws. *)
Lemma step_collapses (step : state -> string -> result state) :
  step_laws step ->
  (forall st f,
      last_copied st = Some (basename f) -> passes_over step st f)
  /\ (forall st f,
        is_file (files st !! os_path_join extraction_dir f) = true ->
        differs (basename f) (last_copied st) = true ->
        target_clear (files st) = true ->
        copies_at_index step st f).
Proof.
  intros laws. split.
  - intros st f Hl. apply (law_skip _ laws).
    rewrite Hl, differs_same. apply andb_false_r.
  - intros st f Hf Hd Ht. apply is_file_exists in Hf as [He Hnd].
    destruct (law_ok _ laws _ _ Hnd Ht) as [st' Hs].
    exists st'. split; [exact Hs |].
    assert (Fs.path_exists (files st) (os_path_join extraction_dir f)
            && differs (basename f) (last_copied st) = true) as Hc
      by now rewrite He, Hd.
    destruct (law_emit _ laws _ _ _ Hc Hs) as (_ & Hl & Hi & Hcp). auto.
Qed.

Lemma run_a_a_b_a (step : state -> string -> result state)
  (fs : gmap string Fs.node) (a b : string) :
  step_laws step ->
  is_file (fs !! os_path_join extraction_dir a) = true ->
  is_file (fs !! os_path_join extraction_dir b) = true ->
  String.eqb (basename a) (basename b) = false ->
  target_clear fs = true ->
  snd (for_each step [a; a; b; a] (initial fs)) = None
  /\ copied (fst (for_each step [a; a; b; a] (initial fs)))
     = [document a 1; document b 2; document a 3].
Proof.
  intros laws Ha Hb Hab Ht.
  apply is_file_exists in Ha as [Ha Hda]. apply is_file_exists in Hb as [Hb Hdb].
  destruct (loop_complete step laws [a; a; b; a] fs) as [Hok Hc].
  - cbn [no_dir_refs forallb]. now rewrite Hda, Hdb.
  - exact Ht.
  - split; [exact Hok |]. rewrite Hc. cbn [sequence].
    pose proof Hab as Hba. rewrite String.eqb_sym in Hba.
    rewrite Ha, Hb, differs_same. cbn [negb differs].
    rewrite Hab, Hba. reflexivity.
Qed.

Lemma run_a_m_a (step : state -> string -> result state)
  (fs : gmap string Fs.node) (a m : string) :
  step_laws step ->
  is_file (fs !! os_path_join extraction_dir a) = true ->
  Fs.path_exists fs (os_path_join extraction_dir m) = false ->
  target_clear fs = true ->
  snd (for_each step [a; m; a] (initial fs)) = None
  /\ copied (fst (for_each step [a; m; a] (initial fs))) = [document a 1].
Proof.
  intros laws Ha Hm Ht.
  apply is_file_exists in Ha as [Ha Hda].
  destruct (loop_complete step laws [a; m; a] fs) as [Hok Hc].
  - cbn [no_dir_refs forallb]. now rewrite Hda, (missing_not_dir _ _ Hm).
  - exact Ht.
  - split; [exact Hok |]. rewrite Hc. cbn [sequence].
    rewrite Ha, Hm, differs_same. reflexivity.
Qed.

Lemma ranks_from_lower (s x : N) (n : nat) :
  x ∈ ranks_from s n -> (s <= x)%N.
Proof.
  revert s; induction n as [|n IH]; intros s H; simpl in H.
  - inversion H.
  - apply elem_of_cons in H as [-> | H]; [lia |].
    apply IH in H. lia.
Qed.

Lemma ranks_from_NoDup (s : N) (n : nat) : NoDup (ranks_from s n).
Proof.
  revert s; induction n as [|n IH]; intros s; simpl; constructor.
  - intros H. apply ranks_from_lower in H. lia.
  - apply IH.
Qed.

Lemma document_name_inj (f g : string) (r q : N) :
  output_filename (document f r) = output_filename (document g q) -> r = q.
Proof.
  cbn [output_filename document]. intros H.
  apply digits_underscore_inj in H as [H _]; try apply format_04d_digits.
  now apply format_04d_inj.
Qed.

Lemma dense_names_NoDup (l : list SequencedDocument) :
  Forall (fun d => exists f, d = document f (rank d)) l ->
  NoDup (map rank l) -> NoDup (map output_filename l).
Proof.
  induction l as [|d l IH]; intros Hf Hn; simpl; [constructor |].
  apply Forall_cons in Hf as [[f Hd] Hf].
  simpl in Hn. apply NoDup_cons in Hn as [Hnot Hn].
  constructor; [| now apply IH].
  intros Hin. apply Hnot. apply list_elem_of_fmap in Hin as (d' & Heq & Hd').
  rewrite Forall_forall in Hf. destruct (Hf _ Hd') as [g Hg].
  rewrite Hd, Hg in Heq. apply document_name_inj in Heq.
  apply list_elem_of_fmap. exists d'. split; [| exact Hd'].
  rewrite Hd. cbn [rank document]. exact Heq.
Qed.

Lemma dense_result (st : state) :
  dense st ->
  map rank (copied st) = ranks_from 1 (length (copied st))
  /\ Forall (fun d => exists base,
               output_filename d = format_04d (rank d) +:+ "_" +:+ base)
       (copied st)
  /\ NoDup (map output_filename (copied st)).
Proof.
  intros (_ & Hr & Hf). split; [exact Hr |]. split.
  - eapply Forall_impl; [exact Hf |]. intros d [f ->]. now eexists.
  - apply dense_names_NoDup; [exact Hf |]. rewrite Hr. apply ranks_from_NoDup.
Qed.

Lemma step_dangling (step : state -> string -> result state)
  (st : state) (f : string) :
  step_laws step ->
  Fs.path_exists (files st) (os_path_join extraction_dir f) = false ->
  passes_over step st f.
Proof.
  intros laws H. apply (law_skip _ laws). now rewrite H.
Qed.

(** C1. Both loops collapse consecutive duplicates and nothing else: a
    reference whose basename is the basename last copied is passed over and
    takes no rank; a reference to an existing file whose basename differs
    from the last copied one is copied under the current index, whether or
    not that basename was copied earlier; and for existing files [a] and [b]
    the order [a; a; b; a] gives [a] at rank 1, [b] at rank 2 and [a] again
    at rank 3. *)
Theorem sequencer_collapses_consecutive_only :
  (forall st f,
      last_copied st = Some (basename f) ->
      passes_over copy_step st f /\ passes_over orderHTM_step st f)
  /\ (forall st f,
        is_file (files st !! os_path_join extraction_dir f) = true ->
        differs (basename f) (last_copied st) = true ->
        target_clear (files st) = true ->
        copies_at_index copy_step st f /\ copies_at_index orderHTM_step st f)
  /\ (forall fs a b,
        is_file (fs !! os_path_join extraction_dir a) = true ->
        is_file (fs !! os_path_join extraction_dir b) = true ->
        String.eqb (basename a) (basename b) = false ->
        target_clear fs = true ->
        (snd (_copy_files_in_order [a; a; b; a] fs) = None
         /\ copied (fst (_copy_files_in_order [a; a; b; a] fs))
            = [document a 1; document b 2; document a 3])
        /\ (snd (orderHTM_copy_loop [a; a; b; a] fs) = None
            /\ copied (fst (orderHTM_copy_loop [a; a; b; a] fs))
               = [document a 1; document b 2; document a 3])).
Proof.
  destruct (step_collapses _ copy_step_laws) as [Hc1 Hc2].
  destruct (step_collapses _ orderHTM_step_laws) as [Hl1 Hl2].
  split; [auto | split; [auto |]].
  intros fs a b Ha Hb Hab Ht. split.
  - exact (run_a_a_b_a copy_step fs a b copy_step_laws Ha Hb Hab Ht).
  - rewrite (proj2 (orderHTM_copy_loop_progress _ _)), orderHTM_copy_loop_copied.
    exact (run_a_a_b_a orderHTM_step fs a b orderHTM_step_laws Ha Hb Hab Ht).
Qed.

Lemma sequencer_collapses_consecutive_only_witness :
  copied (fst (_copy_files_in_order ["a.htm"; "a.htm"; "sub/b.htm"; "a.htm"]
                 Fixtures.extracted))
  = [document "a.htm" 1; document "sub/b.htm" 2; document "a.htm" 3]
  /\ copied (fst (orderHTM_copy_loop ["a.htm"; "a.htm"; "sub/b.htm"; "a.htm"]
                    Fixtures.extracted))
     = [document "a.htm" 1; document "sub/b.htm" 2; document "a.htm" 3].
Proof.
  destruct sequencer_collapses_consecutive_only as (_ & _ & H).
  destruct (H Fixtures.extracted "a.htm" "sub/b.htm") as ((_ & Hc) & (_ & Hl));
    [reflexivity | reflexivity | reflexivity | reflexivity |].
  split; [exact Hc | exact Hl].
Defined.

(** C2. In both loops the ranks of the copies made are 1, 2, ..., N for the
    N copies made, every copy is named by its rank in four digits at least,
    an underscore and a basename, and no two copies of one pass have the
    same name. *)
Theorem sequencer_ranks_dense_names_unique (refs : list string)
  (fs : gmap string Fs.node) :
  (map rank (copied (fst (_copy_files_in_order refs fs)))
   = ranks_from 1 (length (copied (fst (_copy_files_in_order refs fs))))
   /\ Forall (fun d => exists base,
                output_filename d = format_04d (rank d) +:+ "_" +:+ base)
        (copied (fst (_copy_files_in_order refs fs)))
   /\ NoDup (map output_filename (copied (fst (_copy_files_in_order refs fs)))))
  /\ (map rank (copied (fst (orderHTM_copy_loop refs fs)))
      = ranks_from 1 (length (copied (fst (orderHTM_copy_loop refs fs))))
      /\ Forall (fun d => exists base,
                   output_filename d = format_04d (rank d) +:+ "_" +:+ base)
           (copied (fst (orderHTM_copy_loop refs fs)))
      /\ NoDup (map output_filename (copied (fst (orderHTM_copy_loop refs fs))))).
Proof.
  split.
  - apply dense_result, (loop_dense copy_step copy_step_laws).
  - rewrite orderHTM_copy_loop_copied.
    apply (dense_result (fst (for_each orderHTM_step refs (initial fs)))),
      (loop_dense orderHTM_step orderHTM_step_laws).
Qed.

(** A reference whose candidate path does not exist is passed over by
    both loops: the turn raises nothing, copies nothing and leaves the index
    as it was; and a whole run with the reference in the list raises what the
    run without it raises and ends with the same files, copies, index and
    last copied basename. *)
Lemma missing_reference_skipped :
  (forall st f,
      Fs.path_exists (files st) (os_path_join extraction_dir f) = false ->
      copy_step st f = Ok st /\ passes_over orderHTM_step st f)
  /\ (forall pre post f fs,
        Fs.path_exists fs (os_path_join extraction_dir f) = false ->
        _copy_files_in_order (pre ++ f :: post) fs
        = _copy_files_in_order (pre ++ post) fs
        /\ same_progress (fst (orderHTM_copy_loop (pre ++ post) fs))
                         (fst (orderHTM_copy_loop (pre ++ f :: post) fs))
        /\ snd (orderHTM_copy_loop (pre ++ f :: post) fs)
           = snd (orderHTM_copy_loop (pre ++ post) fs)).
Proof.
  split.
  - intros st f H. split.
    + unfold copy_step. now rewrite H.
    + now apply step_dangling; [apply orderHTM_step_laws |].
  - intros pre post f fs H. split; [| split].
    + unfold _copy_files_in_order. rewrite !for_each_app.
      pose proof (loop_keeps_sources copy_step copy_step_laws pre f (initial fs))
        as Hk.
      destruct (for_each copy_step pre (initial fs)) as [st1 [e|]];
        [reflexivity |].
      cbn [fst initial files] in Hk. cbn [for_each].
      unfold copy_step at 1. unfold Fs.path_exists in *. rewrite Hk.
      destruct (fs !! _); [discriminate | reflexivity].
    + destruct (loop_skips_dangling orderHTM_step orderHTM_step_laws
                  pre post f fs H) as [Hp _].
      destruct (orderHTM_copy_loop_progress (pre ++ post) fs)
        as ((E1 & E2 & E3 & E4) & _).
      destruct (orderHTM_copy_loop_progress (pre ++ f :: post) fs)
        as ((F1 & F2 & F3 & F4) & _).
      destruct Hp as (G1 & G2 & G3 & G4).
      unfold same_progress. rewrite E1, E2, E3, E4, F1, F2, F3, F4. auto.
    + rewrite !(proj2 (orderHTM_copy_loop_progress _ _)).
      symmetry.
      apply (loop_skips_dangling orderHTM_step orderHTM_step_laws pre post f fs H).
Qed.

(** C9. Passing over a dangling reference leaves the last copied basename
    in place: for an existing file [a] and a missing [m], the order
    [a; m; a] makes one copy only, [a] at rank 1, in both loops. *)
Theorem dangling_reference_keeps_collapse_state (fs : gmap string Fs.node)
  (a m : string) :
  is_file (fs !! os_path_join extraction_dir a) = true ->
  Fs.path_exists fs (os_path_join extraction_dir m) = false ->
  target_clear fs = true ->
  (snd (_copy_files_in_order [a; m; a] fs) = None
   /\ copied (fst (_copy_files_in_order [a; m; a] fs)) = [document a 1])
  /\ (snd (orderHTM_copy_loop [a; m; a] fs) = None
      /\ copied (fst (orderHTM_copy_loop [a; m; a] fs)) = [document a 1]).
Proof.
  intros Ha Hm Ht. split.
  - exact (run_a_m_a copy_step fs a m copy_step_laws Ha Hm Ht).
  - rewrite (proj2 (orderHTM_copy_loop_progress _ _)), orderHTM_copy_loop_copied.
    exact (run_a_m_a orderHTM_step fs a m orderHTM_step_laws Ha Hm Ht).
Qed.

Lemma dangling_reference_keeps_collapse_state_witness :
  (snd (_copy_files_in_order ["a.htm"; "missing.htm"; "a.htm"]
          Fixtures.extracted) = None
   /\ copied (fst (_copy_files_in_order ["a.htm"; "missing.htm"; "a.htm"]
                     Fixtures.extracted))
      = [document "a.htm" 1])
  /\ (snd (orderHTM_copy_loop ["a.htm"; "missing.htm"; "a.htm"]
             Fixtures.extracted) = None
      /\ copied (fst (orderHTM_copy_loop ["a.htm"; "missing.htm"; "a.htm"]
                        Fixtures.extracted))
         = [document "a.htm" 1]).
Proof.
  apply (dangling_reference_keeps_collapse_state Fixtures.extracted
           "a.htm" "missing.htm"); reflexivity.
Defined.

End SequencerClaims.

(** * Merge order *)

Section SortedFacts.
Context {A : Type} (key : A -> N).

Lemma insert_by_Permutation (x : A) (l : list A) :
  insert_by key x l ≡ₚ x :: l.
Proof.
  induction l as [|y l IH]; simpl; [reflexivity |].
  destruct (key x <=? key y)%N; [reflexivity |].
  rewrite IH. apply perm_swap.
Qed.

Lemma sorted_Permutation (l : list A) : sorted key l ≡ₚ l.
Proof.
  induction l as [|x l IH]; simpl; [reflexivity |].
  now rewrite insert_by_Permutation, IH.
Qed.

Lemma insert_by_StronglySorted (x : A) (l : list A) :
  StronglySorted (fun a b => (key a <= key b)%N) l ->
  StronglySorted (fun a b => (key a <= key b)%N) (insert_by key x l).
Proof.
  induction l as [|y l IH]; intros Hs; simpl.
  - repeat constructor.
  - apply StronglySorted_inv in Hs as [Hs Hy].
    destruct (key x <=? key y)%N eqn:E.
    + apply N.leb_le in E. constructor; [now constructor |].
      constructor; [exact E |].
      eapply List.Forall_impl; [| exact Hy]. simpl. intros; lia.
    + apply N.leb_gt in E. constructor; [now apply IH |].
      rewrite Forall_forall in Hy. apply Forall_forall. intros z Hz.
      rewrite insert_by_Permutation in Hz.
      apply elem_of_cons in Hz as [-> | Hz]; [lia | now apply Hy].
Qed.

Lemma sorted_StronglySorted (l : list A) :
  StronglySorted (fun a b => (key a <= key b)%N) (sorted key l).
Proof.
  induction l as [|x l IH]; simpl; [constructor |].
  now apply insert_by_StronglySorted.
Qed.

Lemma insert_by_comm (x y : A) (l : list A) :
  key x <> key y ->
  insert_by key x (insert_by key y l) = insert_by key y (insert_by key x l).
Proof.
  intros Hne. induction l as [|z l IH]; simpl.
  - destruct (key x <=? key y)%N eqn:E1, (key y <=? key x)%N eqn:E2;
      try reflexivity.
    + apply N.leb_le in E1, E2. lia.
    + apply N.leb_gt in E1, E2. lia.
  - destruct (key y <=? key z)%N eqn:Ey, (key x <=? key z)%N eqn:Ex; simpl;
      rewrite ?Ey, ?Ex.
    + destruct (key x <=? key y)%N eqn:E1, (key y <=? key x)%N eqn:E2;
        try reflexivity.
      * apply N.leb_le in E1, E2. lia.
      * apply N.leb_gt in E1, E2. lia.
    + apply N.leb_le in Ey. apply N.leb_gt in Ex.
      destruct (key x <=? key y)%N eqn:E1; [apply N.leb_le in E1; lia |].
      reflexivity.
    + apply N.leb_gt in Ey. apply N.leb_le in Ex.
      destruct (key y <=? key x)%N eqn:E1; [apply N.leb_le in E1; lia |].
      reflexivity.
    + now rewrite IH.
Qed.

(** Nothing that comes after an element has a smaller key. *)
Lemma sorted_after (l pre post : list A) (x y : A) :
  sorted key l = pre ++ x :: post -> y ∈ post -> (key x <= key y)%N.
Proof.
  intros Heq Hy. pose proof (sorted_StronglySorted l) as Hs.
  rewrite Heq in Hs. clear Heq.
  induction pre as [|p pre IH]; simpl in Hs;
    apply StronglySorted_inv in Hs as [Hs Hhd].
  - rewrite Forall_forall in Hhd. now apply Hhd.
  - now apply IH.
Qed.

(** With pairwise distinct keys the result does not depend on the order the
    elements come in. *)
Lemma sorted_order_independent (l l' : list A) :
  l ≡ₚ l' -> NoDup (map key l) -> sorted key l = sorted key l'.
Proof.
  induction 1 as [| x l l' Hp IH | x y l | l l' l'' Hp1 IH1 Hp2 IH2];
    intros Hn; simpl.
  - reflexivity.
  - simpl in Hn. apply NoDup_cons in Hn as [_ Hn]. now rewrite IH.
  - simpl in Hn. apply NoDup_cons in Hn as [Hy _].
    apply insert_by_comm. intros E. apply Hy. rewrite E. left.
  - rewrite IH1 by assumption. apply IH2.
    assert (map key l ≡ₚ map key l') as Hm by now apply Permutation_map.
    now rewrite <- Hm.
Qed.

(** The sort is stable: elements with one key keep their order. *)
Lemma insert_by_filter (n : N) (x : A) (l : list A) :
  StronglySorted (fun a b => (key a <= key b)%N) l ->
  filter (fun a => key a = n) (insert_by key x l)
  = filter (fun a => key a = n) (x :: l).
Proof.
  induction l as [|y l IH]; intros Hs; simpl; [reflexivity |].
  apply StronglySorted_inv in Hs as [Hs Hy].
  destruct (key x <=? key y)%N eqn:E; [reflexivity |].
  apply N.leb_gt in E.
  rewrite (filter_cons _ y), IH, !filter_cons by assumption.
  repeat case_decide; try reflexivity. lia.
Qed.

Lemma sorted_stable (n : N) (l : list A) :
  filter (fun a => key a = n) (sorted key l) = filter (fun a => key a = n) l.
Proof.
  induction l as [|x l IH]; simpl; [reflexivity |].
  rewrite insert_by_filter by apply sorted_StronglySorted.
  now rewrite !filter_cons, IH.
Qed.

Lemma insert_by_decorated (x : A) (s : list (N * A)) :
  Forall (fun p => fst p = key (snd p)) s ->
  map snd (insert_by fst (key x, x) s) = insert_by key x (map snd s).
Proof.
  induction s as [|[k y] s IHs]; intros Hf; simpl; [reflexivity |].
  apply Forall_cons in Hf as [Hk Hf]. simpl in Hk. subst k.
  destruct (key x <=? key y)%N; simpl; [reflexivity |]. now rewrite IHs.
Qed.

End SortedFacts.

(** Sorting the pairs (key, element) by their first component and dropping
    the keys is sorting the elements by key. *)
Lemma sorted_decorated {A : Type} (key : A -> N) (l : list A) :
  map snd (sorted fst (map (fun x => (key x, x)) l)) = sorted key l.
Proof.
  induction l as [|x l IH]; simpl; [reflexivity |].
  rewrite insert_by_decorated, IH; [reflexivity |].
  rewrite (sorted_Permutation fst). apply Forall_forall.
  intros p Hp. apply list_elem_of_fmap in Hp as (y & -> & _). reflexivity.
Qed.


Section MergeFacts.
Import Merge MergeSpec.

Lemma uint_of_digit (c : ascii) (d : Decimal.uint) :
  is_digit c = true -> exists d', uint_of_char c (Some d) = Some d'.
Proof.
  destruct c as [b0 b1 b2 b3 b4 b5 b6 b7].
  destruct b0, b1, b2, b3, b4, b5, b6, b7; intros H;
    try discriminate H; simpl; eauto.
Qed.

Lemma uint_of_digits (s : string) :
  all_digits s = true -> exists d, NilEmpty.uint_of_string s = Some d.
Proof.
  induction s as [|c s IH]; simpl; intros H; [eauto |].
  apply andb_true_iff in H as [Hc Hs].
  destruct (IH Hs) as [d ->]. now apply uint_of_digit.
Qed.

Lemma int_of_digits (c : ascii) (s : string) :
  all_digits (String c s) = true -> exists n, int (String c s) = Ok n.
Proof.
  intros H. unfold int. destruct (uint_of_digits _ H) as [d ->]. eauto.
Qed.

Lemma span_digits_fst (s : string) : all_digits (fst (span_digits s)) = true.
Proof.
  induction s as [|c s IH]; simpl; [reflexivity |].
  destruct (is_digit c) eqn:E; [| reflexivity].
  destruct (span_digits s) as [run rest]. simpl in *. now rewrite E.
Qed.

Lemma match_digits_underscore_group (s g : string) :
  match_digits_underscore s = Some g ->
  exists c r, g = String c r /\ all_digits g = true.
Proof.
  unfold match_digits_underscore. pose proof (span_digits_fst s) as H.
  destruct (span_digits s) as [[|c run] [|u rest]]; try discriminate.
  destruct (Ascii.eqb u "_"); [| discriminate].
  intros [= <-]. now exists c, run.
Qed.

Lemma search_digits_underscore_group (s g : string) :
  search_digits_underscore s = Some g ->
  exists c r, g = String c r /\ all_digits g = true.
Proof.
  induction s as [|a s IH]; cbn [search_digits_underscore].
  - destruct (match_digits_underscore "") eqn:E; [| discriminate].
    intros [= <-]. now apply match_digits_underscore_group in E.
  - destruct (match_digits_underscore (String a s)) eqn:E; [| exact IH].
    intros [= <-]. now apply match_digits_underscore_group in E.
Qed.

Lemma search_leading_digits_group (s g : string) :
  search_leading_digits s = Some g ->
  exists c r, g = String c r /\ all_digits g = true.
Proof.
  unfold search_leading_digits. pose proof (span_digits_fst s) as H.
  destruct (span_digits s) as [[|c run] rest]; [discriminate |].
  intros [= <-]. now exists c, run.
Qed.

(** [extract_number] never raises. *)
Lemma extract_number_total (x : string) :
  extract_number x = Ok (merge_key x).
Proof.
  unfold merge_key. unfold extract_number.
  destruct (search_digits_underscore (basename x)) as [g|] eqn:E1.
  - apply search_digits_underscore_group in E1 as (c & r & -> & Hd).
    now destruct (int_of_digits _ _ Hd) as [n ->].
  - destruct (search_leading_digits (basename x)) as [g|] eqn:E2; [| reflexivity].
    apply search_leading_digits_group in E2 as (c & r & -> & Hd).
    now destruct (int_of_digits _ _ Hd) as [n ->].
Qed.

Lemma prefix_number_group (x : string) :
  has_prefix_group x = true -> prefix_number x = Ok (merge_key x).
Proof.
  unfold has_prefix_group, prefix_number. intros H.
  rewrite <- extract_number_total. unfold extract_number.
  now destruct (search_digits_underscore (basename x)).
Qed.

Lemma prefix_number_no_group (x : string) :
  has_prefix_group x = false -> prefix_number x = Raise AttributeError.
Proof.
  unfold has_prefix_group, prefix_number.
  now destruct (search_digits_underscore (basename x)).
Qed.

Lemma sort_by_key_total (k : string -> result N) (key : string -> N)
  (l : list string) :
  Forall (fun x => k x = Ok (key x)) l ->
  sort_by_key k l = Ok (sorted key l).
Proof.
  intros H. unfold sort_by_key.
  assert (map_result (fun x => bind (k x) (fun n => Ok (n, x))) l
          = Ok (map (fun x => (key x, x)) l)) as ->.
  { induction H as [|x l Hx _ IH]; simpl; [reflexivity |].
    now rewrite Hx, IH. }
  cbn [bind]. now rewrite sorted_decorated.
Qed.

Lemma sort_by_key_raises (l : list string) :
  forallb has_prefix_group l = false ->
  sort_by_key prefix_number l = Raise AttributeError.
Proof.
  intros H. unfold sort_by_key.
  assert (map_result (fun x => bind (prefix_number x) (fun n => Ok (n, x))) l
          = Raise AttributeError) as ->; [| reflexivity].
  induction l as [|x l IH]; simpl in *; [discriminate |].
  destruct (has_prefix_group x) eqn:E.
  - rewrite (prefix_number_group _ E). cbn [bind]. now rewrite IH.
  - now rewrite (prefix_number_no_group _ E).
Qed.

(** The two stages agree on the rank: the PDF of the document ranked [r]
    by the sequencer is given the number [r] by both merge scripts. *)
Lemma ranked_pdf_number (r : N) (base : string) :
  count_char sep base = 0 ->
  extract_number (os_path_join "pdfs" (format_04d r +:+ "_" +:+ base)) = Ok r
  /\ prefix_number (os_path_join "pdfs" (format_04d r +:+ "_" +:+ base)) = Ok r.
Proof.
  intros Hb.
  assert (basename (os_path_join "pdfs" (format_04d r +:+ "_" +:+ base))
          = format_04d r +:+ "_" +:+ base) as Hbase.
  { unfold os_path_join. rewrite new_filename_relative. cbn [String.eqb orb].
    change (endswith "/" "pdfs") with false. cbv iota.
    change ("pdfs" +:+ "/" +:+ ?x) with ("pdfs" +:+ String sep x).
    apply basename_in_dir. rewrite !count_char_append, Hb.
    assert (count_char sep (format_04d r) = 0) as ->.
    { pose proof (format_04d_digits r) as Hd.
      induction (format_04d r) as [|c s IH]; [reflexivity |].
      simpl in Hd. apply andb_true_iff in Hd as [Hc Hd]. simpl.
      rewrite Ascii.eqb_sym, (is_digit_not_sep _ Hc). now apply IH. }
    reflexivity. }
  unfold extract_number, prefix_number.
  now rewrite Hbase, search_format_04d, int_format_04d.
Qed.

Lemma pdf_paths_Permutation (dir : string) (l l' : list string) :
  l ≡ₚ l' -> pdf_paths dir l ≡ₚ pdf_paths dir l'.
Proof.
  intros H. unfold pdf_paths. apply Permutation_map. now rewrite H.
Qed.

(** What [CloudPDFConverter.combine_pdfs] does, case by case. *)
Lemma combine_pdfs_cases (listing : list string) :
  combine_pdfs listing
  = match pdf_paths "pdfs" listing with
    | [] => (false, [])
    | pdf_files =>
        if forallb has_prefix_group pdf_files
        then (true, sorted merge_key pdf_files)
        else (false, [])
    end.
Proof.
  unfold combine_pdfs. destruct (pdf_paths "pdfs" listing) as [|x l] eqn:E;
    [reflexivity |].
  destruct (forallb has_prefix_group (x :: l)) eqn:Hf.
  - rewrite (sort_by_key_total _ merge_key); [reflexivity |].
    rewrite forallb_forall in Hf. apply Forall_forall. intros y Hy.
    apply prefix_number_group, Hf, list_elem_of_In, Hy.
  - now rewrite sort_by_key_raises.
Qed.

End MergeFacts.

Section MergeClaims.
Import Merge MergeSpec.

(** C3, as stated, fails.  In combinePDFs.py a name with no digits before an
    underscore but with digits at its start ([12.pdf]) is given those digits
    and not the sentinel, and goes first here; the sentinel 999999 is smaller
    than the prefix of [1000000_a.pdf], so [notes.pdf] is not last; and
    [combine_pdfs] of automation_cloud.py gives up on a directory that holds
    a name with no digits before an underscore. *)
Lemma merge_claim_counterexample :
  (has_prefix_group "pdfs/12.pdf" = false
   /\ extract_number "pdfs/12.pdf" = Ok 12%N
   /\ combinePDFs_order ["0050_a.pdf"; "12.pdf"]
      = Ok ["pdfs/12.pdf"; "pdfs/0050_a.pdf"])
  /\ (has_prefix_group "pdfs/notes.pdf" = false
      /\ extract_number "pdfs/notes.pdf" = Ok 999999%N
      /\ combinePDFs_order ["1000000_a.pdf"; "notes.pdf"]
         = Ok ["pdfs/notes.pdf"; "pdfs/1000000_a.pdf"])
  /\ combine_pdfs ["0001_a.pdf"; "notes.pdf"] = (false, []).
Proof. repeat split; vm_compute; reflexivity. Qed.

(** C3, amended.  combinePDFs.py appends the PDFs in the stable ascending
    order of [extract_number], which never raises: the number of a path is
    that of the first run of digits directly followed by an underscore in
    its basename, else that of the digits its basename starts with, else
    999999.  The order is a rearrangement of the paths listed, and with
    pairwise distinct numbers it does not depend on the order of the
    listing.  [combine_pdfs] of automation_cloud.py appends in the same order
    when there is a PDF and every basename has digits before an
    underscore. *)
Theorem merge_order_by_extracted_number :
  (forall listing,
      combinePDFs_order listing
      = Ok (sorted merge_key (pdf_paths "pdfs" listing)))
  /\ (forall l,
        sorted merge_key l ≡ₚ l
        /\ StronglySorted key_le (sorted merge_key l)
        /\ forall n, filter (fun x => merge_key x = n) (sorted merge_key l)
                     = filter (fun x => merge_key x = n) l)
  /\ (forall l pre x post y,
        sorted merge_key l = pre ++ x :: post -> y ∈ post ->
        (merge_key x <= merge_key y)%N)
  /\ (forall listing listing',
        listing ≡ₚ listing' ->
        NoDup (map merge_key (pdf_paths "pdfs" listing)) ->
        combinePDFs_order listing = combinePDFs_order listing')
  /\ (forall x,
        match search_digits_underscore (basename x) with
        | Some g => int g = Ok (merge_key x)
        | None =>
            match search_leading_digits (basename x) with
            | Some g => int g = Ok (merge_key x)
            | None => merge_key x = 999999%N
            end
        end)
  /\ (forall listing,
        pdf_paths "pdfs" listing <> [] ->
        forallb has_prefix_group (pdf_paths "pdfs" listing) = true ->
        combine_pdfs listing
        = (true, sorted merge_key (pdf_paths "pdfs" listing))).
Proof.
  assert (forall listing,
             combinePDFs_order listing
             = Ok (sorted merge_key (pdf_paths "pdfs" listing))) as Horder.
  { intros listing. unfold combinePDFs_order. apply sort_by_key_total.
    apply Forall_forall. intros x _. apply extract_number_total. }
  split; [exact Horder |]. split; [| split; [| split; [| split]]].
  - intros l. split; [apply sorted_Permutation |].
    split; [apply sorted_StronglySorted | intros n; apply sorted_stable].
  - intros l pre x post y. apply sorted_after.
  - intros listing listing' Hp Hn. rewrite !Horder. f_equal.
    apply sorted_order_independent; [| exact Hn].
    now apply pdf_paths_Permutation.
  - intros x. pose proof (extract_number_total x) as H.
    unfold extract_number in H.
    destruct (search_digits_underscore (basename x)); [exact H |].
    destruct (search_leading_digits (basename x)); [exact H |].
    now injection H.
  - intros listing Hne Hf. rewrite combine_pdfs_cases.
    destruct (pdf_paths "pdfs" listing); [contradiction |].
    cbv beta iota zeta. now rewrite Hf.
Qed.

Lemma merge_order_by_extracted_number_witness :
  combinePDFs_order Fixtures.pdfs_listing
  = Ok ["pdfs/0001_y.pdf"; "pdfs/0002_x.pdf"; "pdfs/0010_z.pdf"]
  /\ combinePDFs_order Fixtures.pdfs_listing
     = combinePDFs_order Fixtures.pdfs_listing'
  /\ combine_pdfs Fixtures.pdfs_listing
     = (true, ["pdfs/0001_y.pdf"; "pdfs/0002_x.pdf"; "pdfs/0010_z.pdf"]).
Proof.
  destruct merge_order_by_extracted_number as (H1 & _ & _ & H3 & _ & H5).
  split; [rewrite H1; vm_compute; reflexivity |]. split.
  - apply H3.
    + symmetry. exact (Permutation_cons_append _ _).
    + apply (bool_decide_unpack _). vm_compute. reflexivity.
  - rewrite H5; [vm_compute; reflexivity | discriminate | reflexivity].
Defined.

End MergeClaims.

(** * TOC parser *)

Lemma for_each_total {S A : Type} (body : S -> A -> result S) (l : list A) :
  (forall s x, exists s', body s x = Ok s') ->
  forall s, snd (for_each body l s) = None.
Proof.
  intros H. induction l as [|x l IH]; intros s; simpl; [reflexivity |].
  destruct (H s x) as [s' ->]. apply IH.
Qed.

Section TocFacts.
Import Soup TocParser TocSpec.
Variable html_parser : string -> list node.

Lemma parse_step_reference (html_files : list string) (param : node) :
  parse_step html_files param = Ok (html_files ++ reference_of param).
Proof.
  unfold parse_step, reference_of, has_attr, getitem.
  destruct (attrs_of param !! "value"); cbn [bind]; [reflexivity |].
  now rewrite app_nil_r.
Qed.

Lemma parse_loop_references (params : list node) (acc : list string) :
  for_each parse_step params acc
  = (acc ++ flat_map reference_of params, None).
Proof.
  revert acc; induction params as [|p params IH]; intros acc; simpl.
  - now rewrite app_nil_r.
  - rewrite parse_step_reference, IH. now rewrite app_assoc.
Qed.

(** The in-process parser never raises: it returns the references of the
    [param] tags that have a value, in document order. *)
Lemma _parse_hhc_file_total (hhc_content : string) :
  _parse_hhc_file html_parser hhc_content
  = Ok (flat_map reference_of (local_params (html_parser hhc_content))).
Proof.
  unfold _parse_hhc_file. now rewrite parse_loop_references.
Qed.

Lemma values_of_params (params : list node) :
  map_result (fun param => getitem (attrs_of param) "value") params
  = if forallb has_value params
    then Ok (flat_map (fun p => match attrs_of p !! "value" with
                                | Some v => [v]
                                | None => []
                                end) params)
    else Raise (KeyError "value").
Proof.
  induction params as [|p params IH]; [reflexivity |].
  cbn [map_result forallb flat_map]. rewrite IH.
  assert (has_value p = has_attr (attrs_of p) "value") as -> by reflexivity.
  unfold has_attr, getitem.
  destruct (attrs_of p !! "value") as [v|]; cbn [bind andb]; [| reflexivity].
  now destruct (forallb has_value params).
Qed.

Lemma references_of_values (params : list node) :
  map split_hash_0
      (flat_map (fun p => match attrs_of p !! "value" with
                          | Some v => [v]
                          | None => []
                          end) params)
  = flat_map reference_of params.
Proof.
  induction params as [|p params IH]; simpl; [reflexivity |].
  rewrite map_app, IH. unfold reference_of at 2.
  now destruct (attrs_of p !! "value").
Qed.

(** The script's parser raises [KeyError] as soon as one matching [param]
    tag has no value, and agrees with the in-process parser otherwise. *)
Lemma orderHTM_parse_cases (sitemap_content : string) :
  orderHTM_parse html_parser sitemap_content
  = if forallb has_value (local_params (html_parser sitemap_content))
    then _parse_hhc_file html_parser sitemap_content
    else Raise (KeyError "value").
Proof.
  unfold orderHTM_parse. rewrite values_of_params, _parse_hhc_file_total.
  destruct (forallb has_value _); cbn [bind]; [| reflexivity].
  now rewrite references_of_values.
Qed.

End TocFacts.

Section TocClaims.
Import Soup TocParser TocSpec.

Lemma name_is_local_lower (v : string) :
  name_is_local (Some v) = String.eqb (lower v) "local".
Proof.
  unfold name_is_local. destruct v; reflexivity.
Qed.

(** C6. The in-process parser [_parse_hhc_file] is total: whatever tree the
    markup parser builds from the text, it returns the references of the
    matching [param] tags that have a value, in document order, and the
    empty list when no tag matches; the name is compared after lowering its
    case.  The parser of the generated orderHTM.py returns the same list
    when every matching tag has a value, and raises [KeyError] when one has
    none. *)
Theorem toc_parser_total_in_process_only :
  (forall html_parser text,
      _parse_hhc_file html_parser text
      = Ok (flat_map reference_of (local_params (html_parser text))))
  /\ (forall html_parser text,
        local_params (html_parser text) = [] ->
        _parse_hhc_file html_parser text = Ok []
        /\ orderHTM_parse html_parser text = Ok [])
  /\ (forall v, name_is_local (Some v) = String.eqb (lower v) "local")
  /\ (forall html_parser text,
        forallb has_value (local_params (html_parser text)) = true ->
        orderHTM_parse html_parser text = _parse_hhc_file html_parser text)
  /\ (forall html_parser text,
        forallb has_value (local_params (html_parser text)) = false ->
        orderHTM_parse html_parser text = Raise (KeyError "value")).
Proof.
  split; [apply _parse_hhc_file_total |].
  split; [| split; [apply name_is_local_lower | split]].
  - intros p text H. rewrite orderHTM_parse_cases, _parse_hhc_file_total, H.
    now split.
  - intros p text H. now rewrite orderHTM_parse_cases, H.
  - intros p text H. now rewrite orderHTM_parse_cases, H.
Qed.

Lemma toc_parser_total_in_process_only_witness :
  orderHTM_parse (fun _ => [Fixtures.param_without_value])
    "<param name='Local'>"
  = Raise (KeyError "value")
  /\ _parse_hhc_file (fun _ => [Fixtures.param_without_value])
       "<param name='Local'>"
     = Ok []
  /\ orderHTM_parse (fun _ => [Fixtures.param_with_fragment])
       "<param name='LOCAL' value='intro.htm#sec2'>"
     = Ok ["intro.htm"].
Proof.
  destruct toc_parser_total_in_process_only as (H1 & _ & _ & H4 & H5).
  split; [apply H5; reflexivity |].
  split; [rewrite H1; reflexivity |].
  rewrite H4, H1; reflexivity.
Defined.

End TocClaims.

(** * Asset path normalizer *)

Section SoupFacts.
Import Soup Normalizer NormalizerSpec.

(** Induction on a tree whose children are a list of trees. *)
Lemma node_induction (P : node -> Prop) :
  (forall t, P (NavigableString t)) ->
  (forall nm a cs, Forall P cs -> P (Tag nm a cs)) ->
  forall n, P n.
Proof.
  intros Hs Ht. fix IH 1. intros [t | nm a cs]; [apply Hs |].
  apply Ht. induction cs as [|c cs IHcs]; constructor; [apply IH | exact IHcs].
Qed.

Lemma update_where_map_attrs (sel : string -> gmap string string -> bool)
  (f : gmap string string -> gmap string string) (n : node) :
  update_where sel f n = map_attrs (fun nm a => if sel nm a then f a else a) n.
Proof.
  induction n as [t | nm a cs IH] using node_induction; simpl; [reflexivity |].
  f_equal. induction IH as [|c cs Hc _ IHcs]; simpl; [reflexivity |].
  now rewrite Hc, IHcs.
Qed.

Lemma map_attrs_compose
  (g1 g2 : string -> gmap string string -> gmap string string) (n : node) :
  map_attrs g2 (map_attrs g1 n) = map_attrs (fun nm a => g2 nm (g1 nm a)) n.
Proof.
  induction n as [t | nm a cs IH] using node_induction; simpl; [reflexivity |].
  f_equal. induction IH as [|c cs Hc _ IHcs]; simpl; [reflexivity |].
  now rewrite Hc, IHcs.
Qed.

Lemma tags_of_map_attrs
  (g : string -> gmap string string -> gmap string string) (n : node) :
  tags_of (map_attrs g n) = map (fun t => (fst t, g (fst t) (snd t))) (tags_of n).
Proof.
  induction n as [t | nm a cs IH] using node_induction; simpl; [reflexivity |].
  f_equal. induction IH as [|c cs Hc _ IHcs]; simpl; [reflexivity |].
  now rewrite map_app, Hc, IHcs.
Qed.

Lemma fix_image_paths_map_attrs (soup : list node) :
  fix_image_paths soup = map (map_attrs fix_attrs) soup.
Proof.
  unfold fix_image_paths. rewrite !map_map. apply map_ext. intros n.
  rewrite !update_where_map_attrs, !map_attrs_compose. reflexivity.
Qed.

Lemma _fix_asset_paths_same (soup : list node) :
  _fix_asset_paths soup = fix_image_paths soup.
Proof. reflexivity. Qed.

Lemma attr_list_set_basename (k : string) (a : gmap string string) :
  attr_list (set_basename k a) k = map basename (attr_list a k).
Proof.
  unfold attr_list, set_basename. destruct (a !! k) as [v|] eqn:E.
  - now rewrite lookup_insert_eq.
  - now rewrite E.
Qed.

Lemma set_basename_other (k k' : string) (a : gmap string string) :
  k <> k' -> set_basename k a !! k' = a !! k'.
Proof.
  intros Hne. unfold set_basename. destruct (a !! k); [| reflexivity].
  now rewrite lookup_insert_ne.
Qed.

(** The three loops rewrite the asset reference of a tag to its basename. *)
Lemma selected_ref_fix_attrs (nm : string) (a : gmap string string) :
  selected_ref (nm, fix_attrs nm a) = map basename (selected_ref (nm, a)).
Proof.
  unfold selected_ref, fix_attrs, is_img, is_script, is_stylesheet_link.
  destruct (String.eqb_spec nm "img") as [-> | Himg]; cbn [andb].
  - cbn [String.eqb Ascii.eqb Bool.eqb andb app]. rewrite !app_nil_r.
    apply attr_list_set_basename.
  - destruct (String.eqb_spec nm "script") as [-> | Hscript].
    + cbn [String.eqb Ascii.eqb Bool.eqb andb app].
      rewrite ?app_nil_r. apply attr_list_set_basename.
    + destruct (String.eqb_spec nm "link") as [-> | Hlink]; cbn [andb app];
        [| reflexivity].
      destruct (a !! "rel") as [v|] eqn:Hrel; [| now rewrite Hrel].
      destruct (existsb (String.eqb "stylesheet") (tokens v)) eqn:Hst.
      * rewrite set_basename_other, Hrel, Hst by discriminate.
        rewrite ?app_nil_r. apply attr_list_set_basename.
      * now rewrite Hrel, Hst.
Qed.

Lemma flat_map_map {A B C : Type} (f : B -> list C) (g : A -> B) (l : list A) :
  flat_map f (map g l) = flat_map (fun x => f (g x)) l.
Proof. induction l as [|x l IH]; simpl; [reflexivity | now rewrite IH]. Qed.

Lemma map_flat_map {A B C : Type} (f : A -> list B) (g : B -> C) (l : list A) :
  map g (flat_map f l) = flat_map (fun x => map g (f x)) l.
Proof.
  induction l as [|x l IH]; simpl; [reflexivity | now rewrite map_app, IH].
Qed.

Lemma flat_map_eq {A B : Type} (f g : A -> list B) (l : list A) :
  (forall x, f x = g x) -> flat_map f l = flat_map g l.
Proof.
  intros H. induction l as [|x l IH]; simpl; [reflexivity | now rewrite H, IH].
Qed.

Lemma tags_of_soup_map_attrs
  (g : string -> gmap string string -> gmap string string) (soup : list node) :
  flat_map tags_of (map (map_attrs g) soup)
  = map (fun t => (fst t, g (fst t) (snd t))) (flat_map tags_of soup).
Proof.
  induction soup as [|n soup IH]; simpl; [reflexivity |].
  now rewrite map_app, tags_of_map_attrs, IH.
Qed.

Lemma selected_refs_fix_image_paths (soup : list node) :
  selected_refs (fix_image_paths soup) = map basename (selected_refs soup).
Proof.
  unfold selected_refs.
  rewrite fix_image_paths_map_attrs, tags_of_soup_map_attrs.
  rewrite flat_map_map, map_flat_map. apply flat_map_eq.
  intros [nm a]. apply selected_ref_fix_attrs.
Qed.

Lemma selected_refs_flat_after_fix (soup : list node) :
  Forall flat (selected_refs (fix_image_paths soup)).
Proof.
  rewrite selected_refs_fix_image_paths. apply Forall_forall. intros v Hv.
  apply list_elem_of_fmap in Hv as (p & -> & _). apply basename_no_sep.
Qed.

Lemma Forall_flat_map_iff {A B : Type} (Q : B -> Prop) (f : A -> list B)
  (l : list A) :
  Forall Q (flat_map f l) <-> Forall (fun x => Forall Q (f x)) l.
Proof.
  induction l as [|x l IH]; simpl.
  - split; constructor.
  - rewrite Forall_app, Forall_cons, IH. tauto.
Qed.

(** Taking tags out of a tree leaves the tags that stay as they were. *)
Lemma tags_remove_where (P : string * gmap string string -> Prop)
  (sel : node -> bool) (n : node) :
  Forall P (tags_of n) -> Forall P (flat_map tags_of (remove_where sel n)).
Proof.
  induction n as [t | nm a cs IH] using node_induction; intros H.
  - constructor.
  - cbn [remove_where]. destruct (sel (Tag nm a cs)); [constructor |].
    cbn [flat_map tags_of]. rewrite app_nil_r.
    cbn [tags_of] in H. apply Forall_cons in H as [Hhd Hcs].
    constructor; [exact Hhd |].
    induction IH as [|c cs Hc _ IHcs]; [constructor |].
    cbn [flat_map] in *. apply Forall_app in Hcs as [H1 H2].
    rewrite flat_map_app. apply Forall_app. auto.
Qed.

Lemma tags_remove_where_soup (P : string * gmap string string -> Prop)
  (sel : node -> bool) (soup : list node) :
  Forall P (flat_map tags_of soup) ->
  Forall P (flat_map tags_of (flat_map (remove_where sel) soup)).
Proof.
  induction soup as [|n soup IH]; cbn [flat_map]; intros H; [constructor |].
  apply Forall_app in H as [H1 H2]. rewrite flat_map_app. apply Forall_app.
  split; [now apply tags_remove_where | now apply IH].
Qed.

Lemma tags_remove_first (P : string * gmap string string -> Prop)
  (sel : node -> bool) (n : node) :
  forall r, remove_first sel n = Some r ->
            Forall P (tags_of n) -> Forall P (flat_map tags_of r).
Proof.
  induction n as [t | nm a cs IH] using node_induction; intros r Hr H.
  - discriminate.
  - cbn [remove_first] in Hr. destruct (sel (Tag nm a cs)).
    + injection Hr as <-. constructor.
    + cbn [tags_of] in H. apply Forall_cons in H as [Hhd Hcs].
      match type of Hr with
      | match ?g cs with _ => _ end = _ => destruct (g cs) as [cs'|] eqn:Hgo
      end; [| discriminate].
      injection Hr as <-. cbn [flat_map tags_of]. rewrite app_nil_r.
      constructor; [exact Hhd |].
      clear Hhd. revert cs' Hgo Hcs.
      induction IH as [|c cs Hc _ IHcs]; intros cs' Hgo Hcs; [discriminate |].
      cbn [flat_map] in Hcs. apply Forall_app in Hcs as [H1 H2].
      destruct (remove_first sel c) as [rc|] eqn:Hrc.
      * injection Hgo as <-. rewrite flat_map_app. apply Forall_app.
        split; [now apply Hc | exact H2].
      * match type of Hgo with
        | match ?g cs with _ => _ end = _ => destruct (g cs) as [cs''|] eqn:Hgo'
        end; [| discriminate].
        injection Hgo as <-. cbn [flat_map]. apply Forall_app.
        split; [exact H1 | now apply IHcs].
Qed.

Lemma tags_remove_first_in (P : string * gmap string string -> Prop)
  (sel : node -> bool) (soup : list node) :
  Forall P (flat_map tags_of soup) ->
  Forall P (flat_map tags_of (remove_first_in sel soup)).
Proof.
  induction soup as [|n soup IH]; cbn [flat_map remove_first_in]; intros H;
    [constructor |].
  apply Forall_app in H as [H1 H2].
  destruct (remove_first sel n) as [r|] eqn:Hr.
  - rewrite flat_map_app. apply Forall_app.
    split; [now apply (tags_remove_first P sel n) | exact H2].
  - cbn [flat_map]. apply Forall_app. split; [exact H1 | now apply IH].
Qed.

Lemma tags_flat_after_fix (soup : list node) :
  Forall (fun t => Forall flat (selected_ref t))
         (flat_map tags_of (fix_image_paths soup)).
Proof.
  pose proof (selected_refs_flat_after_fix soup) as H. unfold selected_refs in H.
  now apply Forall_flat_map_iff in H.
Qed.

Lemma fix_attrs_rel (nm : string) (a : gmap string string) :
  fix_attrs nm a !! "rel" = a !! "rel".
Proof.
  unfold fix_attrs. cbv zeta.
  repeat match goal with
         | |- context [if ?b then _ else _] => destruct b
         end;
    rewrite ?set_basename_other by discriminate; reflexivity.
Qed.

Lemma rel_as_written_fix (nm : string) (a : gmap string string) :
  rel_as_written (nm, fix_attrs nm a) = rel_as_written (nm, a).
Proof.
  unfold rel_as_written, is_stylesheet_link, is_stylesheet_reference.
  cbn [fst snd]. now rewrite fix_attrs_rel.
Qed.

Lemma asset_ref_selected (t : string * gmap string string) :
  rel_as_written t = true -> asset_ref t = selected_ref t.
Proof.
  destruct t as [nm a]. unfold rel_as_written, asset_ref, selected_ref.
  cbn [fst snd]. intros H. apply Bool.eqb_prop in H. now rewrite H.
Qed.

Lemma asset_ref_fix_attrs (t : string * gmap string string) :
  rel_as_written t = true ->
  asset_ref (fst t, fix_attrs (fst t) (snd t)) = map basename (asset_ref t).
Proof.
  intros H. rewrite (asset_ref_selected t H), asset_ref_selected.
  - destruct t as [nm a]. apply selected_ref_fix_attrs.
  - destruct t as [nm a]. cbn [fst snd]. now rewrite rel_as_written_fix.
Qed.

Lemma flat_map_ext_Forall {A B : Type} (f g : A -> list B) (l : list A) :
  Forall (fun x => f x = g x) l -> flat_map f l = flat_map g l.
Proof.
  induction 1 as [|x l Hx _ IH]; simpl; [reflexivity | now rewrite Hx, IH].
Qed.

Lemma asset_refs_fix_image_paths (soup : list node) :
  Forall (fun t => rel_as_written t = true) (flat_map tags_of soup) ->
  asset_refs (fix_image_paths soup) = map basename (asset_refs soup).
Proof.
  intros H. unfold asset_refs.
  rewrite fix_image_paths_map_attrs, tags_of_soup_map_attrs.
  rewrite flat_map_map, map_flat_map. apply flat_map_ext_Forall.
  eapply Forall_impl; [exact H |]. intros t Ht. now apply asset_ref_fix_attrs.
Qed.

Lemma tags_asset_flat_after_fix (soup : list node) :
  Forall (fun t => rel_as_written t = true) (flat_map tags_of soup) ->
  Forall (fun t => Forall flat (asset_ref t))
         (flat_map tags_of (fix_image_paths soup)).
Proof.
  intros H. rewrite fix_image_paths_map_attrs, tags_of_soup_map_attrs.
  apply Forall_fmap. eapply Forall_impl; [exact H |].
  intros t Ht.
  change (Forall flat (asset_ref (fst t, fix_attrs (fst t) (snd t)))).
  rewrite (asset_ref_fix_attrs t Ht).
  apply Forall_forall. intros v Hv.
  apply list_elem_of_fmap in Hv as (p & -> & _). apply basename_no_sep.
Qed.

End SoupFacts.

Section NormalizerClaims.
Import Soup Normalizer NormalizerSpec.

(** The word [stylesheet] is looked for among the tokens of [rel] as it is
    written: a link with [rel="alternate stylesheet"] is selected, one with
    [rel="StyleSheet"] is not. *)
Example stylesheet_rel_compared_as_written :
  is_stylesheet_link "link" {["rel" := "alternate stylesheet"]} = true
  /\ is_stylesheet_link "link" {["rel" := "StyleSheet"]} = false.
Proof. split; reflexivity. Qed.

(** C8. Both normalizers replace the [src] of every image, the [src] of
    every script and the [href] of every [link] their search returns, one
    whose [rel] has the keyword [stylesheet] in lower case, by its basename,
    the part after the last separator, which holds no separator:
    [subdir/images/pic.png] becomes [pic.png].  In a document whose
    stylesheet links all write the keyword in lower case every asset
    reference is so replaced, and none left after the framing scripts are
    taken out has a separator.  A stylesheet link that writes
    [rel="StyleSheet"] is passed over: its [href] keeps its directory. *)
Theorem asset_references_become_basenames :
  (forall p,
      flat (basename p)
      /\ exists d, p = d +:+ basename p
                   /\ (d = "" \/ exists d', d = d' +:+ String sep ""))
  /\ basename "subdir/images/pic.png" = "pic.png"
  /\ (forall soup,
        selected_refs (fix_image_paths soup)
        = map basename (selected_refs soup)
        /\ selected_refs (_fix_asset_paths soup)
           = map basename (selected_refs soup))
  /\ (forall soup,
        Forall (fun t => rel_as_written t = true) (flat_map tags_of soup) ->
        asset_refs (fix_image_paths soup) = map basename (asset_refs soup)
        /\ asset_refs (_fix_asset_paths soup) = map basename (asset_refs soup))
  /\ (forall soup text,
        Forall (fun t => rel_as_written t = true) (flat_map tags_of soup) ->
        Forall flat
          (asset_refs (remove_first_in (is_framing_script text)
                         (fix_image_paths soup)))
        /\ Forall flat
             (asset_refs (flat_map (remove_where (is_framing_script text))
                            (_fix_asset_paths soup))))
  /\ (asset_refs [Samples.capitalised_link] = ["css/site.css"]
      /\ asset_refs (fix_image_paths [Samples.capitalised_link])
         = ["css/site.css"]
      /\ asset_refs (_fix_asset_paths [Samples.capitalised_link])
         = ["css/site.css"]
      /\ count_char sep "css/site.css" = 1).
Proof.
  split; [| split; [reflexivity | split; [| split; [| split]]]].
  - intros p. split; [apply basename_no_sep |].
    destruct (basename_final_segment p) as (d & H1 & H2 & _). eauto.
  - intros soup. change (_fix_asset_paths soup) with (fix_image_paths soup).
    split; apply selected_refs_fix_image_paths.
  - intros soup H. change (_fix_asset_paths soup) with (fix_image_paths soup).
    split; now apply asset_refs_fix_image_paths.
  - intros soup text H.
    change (_fix_asset_paths soup) with (fix_image_paths soup).
    unfold asset_refs.
    split; apply Forall_flat_map_iff.
    + now apply tags_remove_first_in, tags_asset_flat_after_fix.
    + now apply tags_remove_where_soup, tags_asset_flat_after_fix.
  - repeat split.
Qed.

End NormalizerClaims.

Section BatchFacts.
Import Soup Normalizer SequencerSpec.
Variable detect : list Byte.byte -> option string.
Variable decode : option string -> list Byte.byte -> result string.
Variable html_parser : string -> result (list Soup.node).
Variable render : list Soup.node -> result (list Byte.byte).

#[local] Abbreviation process_one := (_process_single_file detect decode html_parser render).
#[local] Abbreviation process_batch := (process_files detect decode html_parser render).
#[local] Abbreviation cloud_body := (process_body detect decode html_parser render).
#[local] Abbreviation script_one :=
  (remove_show_framing detect decode html_parser render "show framing").
#[local] Abbreviation script_batch := (removeText_main detect decode html_parser render).

(** Both bodies have one shape: what is read from the file is prepared,
    and the tree that comes out is written over the file. *)
#[local] Abbreviation shaped prep fs p :=
  (match bind (Fs.read_bytes p fs) prep with
   | Raise e => (fs, Some e)
   | Ok soup => write_soup render p soup fs
   end).

Lemma shaped_cases (prep : list Byte.byte -> result (list node))
  (fs : gmap string Fs.node) (p : string) :
  (forall q, q <> p -> fst (shaped prep fs p) !! q = fs !! q)
  /\ is_file (fst (shaped prep fs p) !! p) = is_file (fs !! p)
  /\ is_dir (fst (shaped prep fs p) !! p) = is_dir (fs !! p)
  /\ (snd (shaped prep fs p) = None -> is_file (fs !! p) = true)
  /\ (snd (shaped prep fs p) <> None ->
      fst (shaped prep fs p) !! p = fs !! p
      \/ fst (shaped prep fs p) !! p = Some (Fs.File [])).
Proof.
  unfold Fs.read_bytes.
  destruct (fs !! p) as [[data|]|] eqn:E; cbn [bind fst snd];
    try (rewrite E; repeat split; try discriminate; auto).
  destruct (prep data) as [soup|e]; cbn [fst snd];
    [| rewrite E; repeat split; try discriminate; auto].
  unfold write_soup, Fs.open_w. rewrite E.
  destruct (render soup) as [out|e]; cbn [fst snd].
  - rewrite lookup_insert_eq. repeat split; try congruence.
    intros q Hq. now rewrite !lookup_insert_ne by now apply not_eq_sym.
  - rewrite lookup_insert_eq. repeat split; try discriminate; auto.
    intros q Hq. now rewrite lookup_insert_ne by now apply not_eq_sym.
Qed.

(** The outcome for a page depends on that page alone. *)
Lemma shaped_local (prep : list Byte.byte -> result (list node))
  (fsA fsB : gmap string Fs.node) (p : string) :
  fsA !! p = fsB !! p ->
  snd (shaped prep fsA p) = snd (shaped prep fsB p)
  /\ fst (shaped prep fsA p) !! p = fst (shaped prep fsB p) !! p.
Proof.
  intros H. unfold Fs.read_bytes. rewrite <- H.
  destruct (fsA !! p) as [[data|]|] eqn:E; cbn [bind fst snd];
    try (split; [reflexivity | congruence]).
  destruct (prep data) as [soup|e]; cbn [fst snd];
    [| split; [reflexivity | congruence]].
  unfold write_soup, Fs.open_w. rewrite <- H, E.
  destruct (render soup) as [out|e]; cbn [fst snd];
    now rewrite !lookup_insert_eq.
Qed.

Lemma cloud_body_cases (fs : gmap string Fs.node) (p : string) :
  (forall q, q <> p -> fst (cloud_body fs p) !! q = fs !! q)
  /\ is_file (fst (cloud_body fs p) !! p) = is_file (fs !! p)
  /\ is_dir (fst (cloud_body fs p) !! p) = is_dir (fs !! p)
  /\ (snd (cloud_body fs p) = None -> is_file (fs !! p) = true)
  /\ (snd (cloud_body fs p) <> None ->
      fst (cloud_body fs p) !! p = fs !! p
      \/ fst (cloud_body fs p) !! p = Some (Fs.File [])).
Proof. unfold process_body. apply shaped_cases. Qed.

Lemma cloud_body_local (fsA fsB : gmap string Fs.node) (p : string) :
  fsA !! p = fsB !! p ->
  snd (cloud_body fsA p) = snd (cloud_body fsB p)
  /\ fst (cloud_body fsA p) !! p = fst (cloud_body fsB p) !! p.
Proof. unfold process_body. apply shaped_local. Qed.

Lemma script_body_cases (text : string) (fs : gmap string Fs.node)
  (p : string) :
  (forall q, q <> p ->
     fst (remove_show_framing detect decode html_parser render text fs p) !! q
     = fs !! q)
  /\ is_file (fst (remove_show_framing detect decode html_parser render
                     text fs p) !! p) = is_file (fs !! p)
  /\ is_dir (fst (remove_show_framing detect decode html_parser render
                    text fs p) !! p) = is_dir (fs !! p)
  /\ (snd (remove_show_framing detect decode html_parser render text fs p)
      = None -> is_file (fs !! p) = true)
  /\ (snd (remove_show_framing detect decode html_parser render text fs p)
      <> None ->
      fst (remove_show_framing detect decode html_parser render text fs p) !! p
      = fs !! p
      \/ fst (remove_show_framing detect decode html_parser render text fs p)
           !! p = Some (Fs.File [])).
Proof. unfold remove_show_framing. apply shaped_cases. Qed.

Lemma process_one_fst (fs : gmap string Fs.node) (p : string) :
  fst (process_one fs p) = fst (cloud_body fs p)
  /\ snd (process_one fs p)
     = match snd (cloud_body fs p) with None => true | Some _ => false end.
Proof.
  unfold _process_single_file. now destruct (cloud_body fs p) as [fs' [e|]].
Qed.

Lemma process_files_app (l1 l2 : list string) (fs : gmap string Fs.node) :
  process_batch (l1 ++ l2) fs
  = (fst (process_batch l2 (fst (process_batch l1 fs))),
     snd (process_batch l1 fs) ++ snd (process_batch l2 (fst (process_batch l1 fs)))).
Proof.
  revert fs; induction l1 as [|p l1 IH]; intros fs;
    cbn [process_files app fst snd].
  - now destruct (process_batch l2 fs).
  - destruct (process_one fs p) as [fs1 r]. rewrite IH.
    destruct (process_batch l1 fs1) as [fs2 rs]. reflexivity.
Qed.

Lemma process_files_cons (p : string) (l : list string)
  (fs : gmap string Fs.node) :
  process_batch (p :: l) fs
  = (fst (process_batch l (fst (cloud_body fs p))),
     match snd (cloud_body fs p) with None => true | Some _ => false end
     :: snd (process_batch l (fst (cloud_body fs p)))).
Proof.
  cbn [process_files]. destruct (process_one_fst fs p) as [H1 H2].
  destruct (process_one fs p) as [fs1 r]. cbn [fst snd] in *. subst.
  now destruct (process_batch l _).
Qed.

Lemma process_files_length (l : list string) (fs : gmap string Fs.node) :
  length (snd (process_batch l fs)) = length l.
Proof.
  revert fs; induction l as [|p l IH]; intros fs; [reflexivity |].
  rewrite process_files_cons. cbn [snd length]. now rewrite IH.
Qed.

(** A batch leaves every path outside it as it was. *)
Lemma process_files_outside (l : list string) :
  forall fs q, q ∉ l -> fst (process_batch l fs) !! q = fs !! q.
Proof.
  induction l as [|p l IH]; intros fs q Hq; [reflexivity |].
  apply not_elem_of_cons in Hq as [Hne Hq].
  rewrite process_files_cons. cbn [fst]. rewrite (IH _ q Hq).
  now apply (cloud_body_cases fs p).
Qed.

(** Two runs of a batch from file systems that agree on its pages give
    the same answers and leave the same pages. *)
Lemma process_files_local (l : list string) :
  forall fsA fsB,
    (forall q, q ∈ l -> fsA !! q = fsB !! q) ->
    snd (process_batch l fsA) = snd (process_batch l fsB)
    /\ forall q, q ∈ l ->
         fst (process_batch l fsA) !! q = fst (process_batch l fsB) !! q.
Proof.
  induction l as [|p l IH]; intros fsA fsB H.
  - split; [reflexivity |]. intros q Hq. inversion Hq.
  - rewrite !process_files_cons. cbn [fst snd].
    destruct (cloud_body_local fsA fsB p (H p ltac:(left))) as [He Hp].
    assert (forall q, q ∈ l ->
              fst (cloud_body fsA p) !! q = fst (cloud_body fsB p) !! q) as H1.
    { intros q Hq. destruct (decide (q = p)) as [-> | Hne]; [exact Hp |].
      rewrite (proj1 (cloud_body_cases fsA p) q Hne).
      rewrite (proj1 (cloud_body_cases fsB p) q Hne).
      apply H. now right. }
    destruct (IH _ _ H1) as [Hs Hf]. split.
    + now rewrite He, Hs.
    + intros q Hq. destruct (decide (q ∈ l)) as [Hin | Hout].
      * now apply Hf.
      * rewrite !process_files_outside by exact Hout.
        apply elem_of_cons in Hq as [-> | Hq]; [exact Hp | contradiction].
Qed.

(** A document whose processing raises is answered [False]; the
    documents after it are processed from the file system it left, which
    differs from the one before at most in the page, then empty. *)
Lemma process_files_failure (pre post : list string) (p : string)
  (fs fs2 : gmap string Fs.node) (e : exn) :
  cloud_body (fst (process_batch pre fs)) p = (fs2, Some e) ->
  process_batch (pre ++ p :: post) fs
  = (fst (process_batch post fs2),
     snd (process_batch pre fs) ++ false :: snd (process_batch post fs2)).
Proof.
  intros H. rewrite process_files_app, process_files_cons, H. reflexivity.
Qed.

(** With the failing page not listed again, the rest of the batch comes
    out as in the batch without it. *)
Lemma process_files_skips_failure (pre post : list string) (p : string)
  (fs fs2 : gmap string Fs.node) (e : exn) :
  cloud_body (fst (process_batch pre fs)) p = (fs2, Some e) ->
  p ∉ post ->
  snd (process_batch (pre ++ p :: post) fs)
  = snd (process_batch pre fs)
    ++ false :: snd (process_batch post (fst (process_batch pre fs)))
  /\ forall q, q <> p ->
       fst (process_batch (pre ++ p :: post) fs) !! q
       = fst (process_batch (pre ++ post) fs) !! q.
Proof.
  intros H Hp. rewrite (process_files_failure pre post p fs fs2 e H).
  rewrite (process_files_app pre post). cbn [fst snd].
  set (fs1 := fst (process_batch pre fs)) in *.
  assert (forall q, q <> p -> fs2 !! q = fs1 !! q) as Hfr.
  { intros q Hq. pose proof (proj1 (cloud_body_cases fs1 p) q Hq) as Hc.
    now rewrite H in Hc. }
  assert (forall q, q ∈ post -> fs2 !! q = fs1 !! q) as Hag.
  { intros q Hq. apply Hfr. intros ->. contradiction. }
  destruct (process_files_local post fs2 fs1 Hag) as [Hs Hf].
  split; [now rewrite Hs |].
  intros q Hq. destruct (decide (q ∈ post)) as [Hin | Hout].
  - now apply Hf.
  - rewrite !process_files_outside by exact Hout. now apply Hfr.
Qed.

Lemma removeText_main_app (l1 l2 : list string) (fs : gmap string Fs.node) :
  script_batch (l1 ++ l2) fs
  = match script_batch l1 fs with
    | (fs1, None) => script_batch l2 fs1
    | (fs1, Some e) => (fs1, Some e)
    end.
Proof.
  revert fs; induction l1 as [|p l1 IH]; intros fs; [reflexivity |].
  cbn [app removeText_main]. destruct (script_one fs p) as [fs1 [e|]];
    [reflexivity | apply IH].
Qed.

(** The loop of removeText.py stops at the first document that raises. *)
Lemma removeText_main_stops (pre post : list string) (p : string)
  (fs fs1 fs2 : gmap string Fs.node) (e : exn) :
  script_batch pre fs = (fs1, None) ->
  script_one fs1 p = (fs2, Some e) ->
  script_batch (pre ++ p :: post) fs = (fs2, Some e).
Proof.
  intros Hpre Hp. rewrite removeText_main_app, Hpre.
  cbn [removeText_main]. now rewrite Hp.
Qed.

End BatchFacts.

Section BatchClaims.
Import Normalizer.

(** A failure after the file was opened for writing leaves the page
    empty: here [str(soup)] raises on the second page, in both pipelines. *)
Example render_failure_empties_page :
  process_files Fixtures.detect_ascii Fixtures.decode_ascii
    Fixtures.parse_text Samples.render_refused
    ["reorganized/0002_b.htm"] Fixtures.reorganized
  = (<["reorganized/0002_b.htm" := Fs.File []]> Fixtures.reorganized, [false])
  /\ removeText_main Fixtures.detect_ascii Fixtures.decode_ascii
       Fixtures.parse_text Samples.render_refused
       ["reorganized/0002_b.htm"] Fixtures.reorganized
     = (<["reorganized/0002_b.htm" := Fs.File []]> Fixtures.reorganized,
        Some (OtherError "RecursionError")).
Proof. split; reflexivity. Qed.

(** C5. In [HTMLProcessor] a document whose processing raises is answered
    [False] and every document gets an answer: the documents after it are
    processed from the file system the failure left, which differs from the
    one before at most in the failing page, left as it was or empty; when
    that page is not listed again, the other pages come out as in the batch
    without it.  The loop at the end of removeText.py has no handler: it
    stops at the first document that raises, with that exception, and the
    documents after it stay unprocessed. *)
Theorem normalizer_failure_skipped_in_process_only
  (detect : list Byte.byte -> option string)
  (decode : option string -> list Byte.byte -> result string)
  (html_parser : string -> result (list Soup.node))
  (render : list Soup.node -> result (list Byte.byte)) :
  (forall l fs,
      length (snd (process_files detect decode html_parser render l fs))
      = length l)
  /\ (forall pre p post fs fs2 e,
        process_body detect decode html_parser render
          (fst (process_files detect decode html_parser render pre fs)) p
        = (fs2, Some e) ->
        process_files detect decode html_parser render (pre ++ p :: post) fs
        = (fst (process_files detect decode html_parser render post fs2),
           snd (process_files detect decode html_parser render pre fs)
           ++ false
              :: snd (process_files detect decode html_parser render post fs2))
        /\ (forall q,
              q <> p ->
              fs2 !! q
              = fst (process_files detect decode html_parser render pre fs)
                  !! q)
        /\ (fs2 !! p
            = fst (process_files detect decode html_parser render pre fs) !! p
            \/ fs2 !! p = Some (Fs.File [])))
  /\ (forall pre p post fs fs2 e,
        process_body detect decode html_parser render
          (fst (process_files detect decode html_parser render pre fs)) p
        = (fs2, Some e) ->
        p ∉ post ->
        snd (process_files detect decode html_parser render
               (pre ++ p :: post) fs)
        = snd (process_files detect decode html_parser render pre fs)
          ++ false
             :: snd (process_files detect decode html_parser render post
                       (fst (process_files detect decode html_parser
                               render pre fs)))
        /\ forall q,
             q <> p ->
             fst (process_files detect decode html_parser render
                    (pre ++ p :: post) fs) !! q
             = fst (process_files detect decode html_parser render
                      (pre ++ post) fs) !! q)
  /\ (forall pre p post fs fs1 fs2 e,
        removeText_main detect decode html_parser render pre fs = (fs1, None) ->
        remove_show_framing detect decode html_parser render "show framing"
          fs1 p = (fs2, Some e) ->
        removeText_main detect decode html_parser render (pre ++ p :: post) fs
        = (fs2, Some e)).
Proof.
  split; [apply process_files_length |]. split; [| split].
  - intros pre p post fs fs2 e H.
    split; [now apply (process_files_failure _ _ _ _ pre post p fs fs2 e) |].
    pose proof (cloud_body_cases detect decode html_parser render
                  (fst (process_files detect decode html_parser render pre fs))
                  p) as (Hfr & _ & _ & _ & Hp).
    rewrite H in Hfr, Hp. cbn [fst snd] in Hfr, Hp.
    split; [exact Hfr | apply Hp; discriminate].
  - intros pre p post fs fs2 e.
    apply process_files_skips_failure.
  - intros pre p post fs fs1 fs2 e. apply removeText_main_stops.
Qed.

Lemma normalizer_failure_skipped_in_process_only_witness :
  removeText_main Fixtures.detect_ascii Fixtures.decode_ascii
    Fixtures.parse_text Fixtures.render_text
    ([] ++ "reorganized/0001_a.htm" :: ["reorganized/0002_b.htm"])
    Fixtures.reorganized
  = (Fixtures.reorganized, Some UnicodeDecodeError)
  /\ snd (process_files Fixtures.detect_ascii Fixtures.decode_ascii
            Fixtures.parse_text Fixtures.render_text
            ([] ++ "reorganized/0001_a.htm" :: ["reorganized/0002_b.htm"])
            Fixtures.reorganized)
     = [false; true]
  /\ fst (process_files Fixtures.detect_ascii Fixtures.decode_ascii
            Fixtures.parse_text Fixtures.render_text
            ([] ++ "reorganized/0001_a.htm" :: ["reorganized/0002_b.htm"])
            Fixtures.reorganized)
     !! "reorganized/0002_b.htm"
     = Some (Fs.File (list_byte_of_string "a b")).
Proof.
  destruct (normalizer_failure_skipped_in_process_only
              Fixtures.detect_ascii Fixtures.decode_ascii
              Fixtures.parse_text Fixtures.render_text) as (_ & H2 & _ & H4).
  split; [eapply H4; reflexivity |].
  destruct (H2 [] "reorganized/0001_a.htm" ["reorganized/0002_b.htm"]
              Fixtures.reorganized Fixtures.reorganized UnicodeDecodeError
              eq_refl) as [Hf _].
  rewrite Hf. split; reflexivity.
Defined.

End BatchClaims.

(** * Asset flattening *)

Section FlattenFacts.
Import Flatten FlattenSpec.

Lemma pass_as_run (html_dir : string) (entries : list (string * tree)) :
  copy_assets_to_flat_structure html_dir entries
  = run html_dir (visits_of html_dir entries) {| top := entries; copies := [] |}.
Proof.
  unfold copy_assets_to_flat_structure, visits_of, run, visits.
  generalize (walk html_dir (Dir entries)), {| top := entries; copies := [] |}.
  intros w. induction w as [|[[root dirs] files] w IH]; intros st; simpl;
    [reflexivity |].
  rewrite fold_left_app, IH. f_equal.
  clear. revert st. induction files as [|f files IH]; intros st; simpl;
    [reflexivity | apply IH].
Qed.

Lemma top_exists_app (t1 t2 : list (string * tree)) (name : string) :
  top_exists (t1 ++ t2) name = top_exists t1 name || top_exists t2 name.
Proof. apply existsb_app. Qed.

(** One turn of the inner loop: either nothing, or one new entry at the end
    of the top level for a wanted file whose name was free. *)
Lemma copy_step_cases (html_dir : string) (st : state)
  (v : string * (string * list Byte.byte)) :
  copy_step html_dir (fst v) st (snd v)
  = if wanted html_dir v && negb (top_exists (top st) (fst (snd v)))
    then {| top := top st ++ [(fst (snd v), File (snd (snd v)))];
            copies := copies st
                      ++ [(os_path_join (fst v) (fst (snd v)),
                           os_path_join html_dir (fst (snd v)))] |}
    else st.
Proof.
  unfold copy_step, wanted.
  destruct (is_asset (fst (snd v))); [| reflexivity].
  destruct (negb (String.eqb (fst v) html_dir)); [| reflexivity].
  now destruct (negb (top_exists (top st) (fst (snd v)))).
Qed.

Lemma run_cons (html_dir : string) (v : string * (string * list Byte.byte))
  (vs : list (string * (string * list Byte.byte))) (st : state) :
  run html_dir (v :: vs) st
  = run html_dir vs (copy_step html_dir (fst v) st (snd v)).
Proof. reflexivity. Qed.

(** A pass over a directory where every wanted name is taken changes
    nothing and copies nothing. *)
Lemma run_noop (html_dir : string)
  (vs : list (string * (string * list Byte.byte))) (st : state) :
  (forall v, v ∈ vs -> wanted html_dir v = true ->
             top_exists (top st) (fst (snd v)) = true) ->
  run html_dir vs st = st.
Proof.
  induction vs as [|v vs IH]; intros H; [reflexivity |].
  rewrite run_cons, copy_step_cases.
  destruct (wanted html_dir v) eqn:Hw; cbn [andb].
  - rewrite (H v) by (left || assumption). cbn [negb]. apply IH.
    intros u Hu. apply H. now right.
  - apply IH. intros u Hu. apply H. now right.
Qed.

Lemma first_asset_of_visit (html_dir : string)
  (vs : list (string * (string * list Byte.byte)))
  (v : string * (string * list Byte.byte)) :
  v ∈ vs -> wanted html_dir v = true ->
  exists data, first_asset html_dir (fst (snd v)) vs = Some data.
Proof.
  induction vs as [|u vs IH]; intros Hin Hw; [inversion Hin |].
  cbn [first_asset].
  destruct (wanted html_dir u && String.eqb (fst (snd u)) (fst (snd v)))
    eqn:E; [eauto |].
  apply elem_of_cons in Hin as [-> | Hin].
  - rewrite Hw, String.eqb_refl in E. discriminate.
  - now apply IH.
Qed.

Lemma top_exists_single (n name : string) (x : tree) :
  top_exists [(n, x)] name = String.eqb n name.
Proof. unfold top_exists. cbn [existsb fst]. apply orb_false_r. Qed.

(** What a pass adds: the top level it found, followed by one file for each
    name that was free and that some wanted file bears, with the bytes of
    the first such file. *)
Lemma run_added (html_dir : string)
  (vs : list (string * (string * list Byte.byte))) :
  forall st, exists added,
    top (run html_dir vs st) = top st ++ added
    /\ NoDup (map fst added)
    /\ (forall name node,
          (name, node) ∈ added <->
          top_exists (top st) name = false
          /\ exists data, node = File data
                          /\ first_asset html_dir name vs = Some data).
Proof.
  induction vs as [|[root [nv d]] vs IH]; intros st.
  - exists []. split; [now rewrite app_nil_r |]. split; [constructor |].
    intros name node. split; [intros H; inversion H |].
    intros (_ & data & _ & H). discriminate.
  - rewrite run_cons, copy_step_cases. cbn [fst snd].
    destruct (wanted html_dir (root, (nv, d))) eqn:Hw; cbn [andb];
      [destruct (top_exists (top st) nv) eqn:He; cbn [negb] |].
    + (* wanted, the name is taken *)
      destruct (IH st) as (added & Ht & Hnd & Hiff).
      exists added. split; [exact Ht |]. split; [exact Hnd |].
      intros name node. rewrite Hiff. cbn [first_asset fst snd]. rewrite Hw.
      cbn [andb]. destruct (String.eqb_spec nv name) as [<- | Hne]; [| tauto].
      rewrite He. split; intros [H _]; discriminate.
    + (* wanted, the name is free *)
      destruct (IH {| top := top st ++ [(nv, File d)];
                      copies := copies st
                                ++ [(os_path_join root nv,
                                     os_path_join html_dir nv)] |})
        as (added & Ht & Hnd & Hiff).
      cbn [top] in Ht, Hiff.
      exists ((nv, File d) :: added). split; [| split].
      * rewrite Ht, <- app_assoc. reflexivity.
      * cbn [map fst]. constructor; [| exact Hnd].
        intros Hin. apply list_elem_of_fmap in Hin as ([n node] & Hn & Hin).
        cbn [fst] in Hn. subst n. apply Hiff in Hin as [Hex _].
        rewrite top_exists_app, top_exists_single, String.eqb_refl in Hex.
        now rewrite orb_true_r in Hex.
      * intros name node. rewrite elem_of_cons, Hiff.
        rewrite top_exists_app, top_exists_single.
        cbn [first_asset fst snd]. rewrite Hw. cbn [andb].
        destruct (String.eqb_spec nv name) as [<- | Hne].
        -- rewrite orb_true_r. split.
           ++ intros [[= ->] | [H _]]; [| discriminate]. eauto.
           ++ intros (_ & data & -> & [= <-]). now left.
        -- rewrite orb_false_r. split.
           ++ intros [[= E _] | H]; [now contradiction Hne | exact H].
           ++ intros H. now right.
    + (* not wanted *)
      destruct (IH st) as (added & Ht & Hnd & Hiff).
      exists added. split; [exact Ht |]. split; [exact Hnd |].
      intros name node. rewrite Hiff. cbn [first_asset fst snd]. rewrite Hw.
      reflexivity.
Qed.

Lemma walk_dir (root : string) (entries : list (string * tree)) :
  walk root (Dir entries)
  = (root, dirnames entries, filenames entries) :: subwalk root entries.
Proof.
  cbn [walk]. f_equal. unfold subwalk.
  induction entries as [|[name child] es IH]; [reflexivity |].
  cbn [flat_map fst snd]. rewrite <- IH. now destruct child.
Qed.

Lemma subwalk_files (root : string) (added : list (string * tree)) :
  forallb is_file_entry added = true -> subwalk root added = [].
Proof.
  induction added as [|[name t] added IH]; [reflexivity |].
  cbn [forallb]. intros H. apply andb_true_iff in H as [Hf H].
  unfold subwalk. cbn [flat_map fst snd]. destruct t; [| discriminate].
  now apply IH.
Qed.

Lemma visits_app (w1 w2 : list (string * list string * list (string * list Byte.byte))) :
  visits (w1 ++ w2) = visits w1 ++ visits w2.
Proof. unfold visits. apply flat_map_app. Qed.

(** New files at the top level do not change which files are wanted. *)
Lemma wanted_visits_app (html_dir : string) (entries added : list (string * tree))
  (v : string * (string * list Byte.byte)) :
  forallb is_file_entry added = true ->
  v ∈ visits_of html_dir (entries ++ added) -> wanted html_dir v = true ->
  v ∈ visits_of html_dir entries.
Proof.
  intros Hf Hin Hw. unfold visits_of in *. rewrite walk_dir in *.
  change (?x :: ?l) with ([x] ++ l) in *. rewrite visits_app in *.
  apply elem_of_app in Hin as [Hin | Hin]; apply elem_of_app.
  - exfalso. unfold visits in Hin. cbn [flat_map] in Hin.
    rewrite app_nil_r in Hin.
    apply list_elem_of_fmap in Hin as (f & -> & _).
    unfold wanted in Hw. cbn [fst] in Hw.
    rewrite String.eqb_refl in Hw. now rewrite andb_false_r in Hw.
  - right. unfold subwalk in Hin. rewrite flat_map_app in Hin.
    fold (subwalk html_dir entries) in Hin. fold (subwalk html_dir added) in Hin.
    now rewrite (subwalk_files _ _ Hf), app_nil_r in Hin.
Qed.

Lemma top_exists_elem (entries : list (string * tree)) (name : string)
  (node : tree) :
  (name, node) ∈ entries -> top_exists entries name = true.
Proof.
  intros H. unfold top_exists. apply existsb_exists.
  exists (name, node). split; [now apply list_elem_of_In |].
  apply String.eqb_refl.
Qed.

(** After a pass every wanted name is at the top level. *)
Lemma pass_closed (html_dir : string) (entries : list (string * tree)) :
  closed html_dir (top (copy_assets_to_flat_structure html_dir entries)).
Proof.
  rewrite pass_as_run.
  destruct (run_added html_dir (visits_of html_dir entries)
              {| top := entries; copies := [] |}) as (added & Ht & _ & Hiff).
  cbn [top] in Ht, Hiff. rewrite Ht. intros v Hin Hw.
  assert (forallb is_file_entry added = true) as Hfiles.
  { apply forallb_forall. intros [n t] Hn.
    apply list_elem_of_In, Hiff in Hn as (_ & data & -> & _). reflexivity. }
  apply (wanted_visits_app _ _ _ _ Hfiles) in Hin; [| exact Hw].
  rewrite top_exists_app.
  destruct (top_exists entries (fst (snd v))) eqn:He; [reflexivity |].
  destruct (first_asset_of_visit _ _ _ Hin Hw) as [data Hd].
  cbn [orb]. apply (top_exists_elem _ _ (File data)), Hiff. eauto.
Qed.

Lemma pass_of_closed (html_dir : string) (entries : list (string * tree)) :
  closed html_dir entries ->
  copy_assets_to_flat_structure html_dir entries
  = {| top := entries; copies := [] |}.
Proof.
  intros H. rewrite pass_as_run. apply run_noop. exact H.
Qed.

Lemma tree_induction (P : tree -> Prop) :
  (forall d, P (File d)) ->
  (forall es, Forall (fun e => P (snd e)) es -> P (Dir es)) ->
  forall t, P t.
Proof.
  intros Hf Hd. fix IH 1. intros [d | es]; [apply Hf |].
  apply Hd. induction es as [|[n c] es IHes]; constructor;
    [apply IH | exact IHes].
Qed.

Lemma join_longer (r n : string) :
  String.eqb n "" = false -> count_char sep n = 0 ->
  String.length r < String.length (os_path_join r n).
Proof.
  intros Hn Hs. unfold os_path_join. rewrite (no_sep_relative _ Hs).
  destruct n as [|c n]; [discriminate |].
  destruct (String.eqb r "" || endswith "/" r); rewrite !length_append;
    simpl; lia.
Qed.

(** In a tree with proper names the walk goes down: every directory it
    reaches has a path at least as long as the one it started from. *)
Lemma walk_roots_longer (t : tree) :
  wf_names t = true ->
  forall root triple,
    triple ∈ walk root t ->
    String.length root <= String.length (fst (fst triple)).
Proof.
  induction t as [d | es IH] using tree_induction; intros Hwf root triple Hin.
  - inversion Hin.
  - rewrite walk_dir in Hin. apply elem_of_cons in Hin as [-> | Hin];
      [simpl; lia |].
    unfold subwalk in Hin. apply list_elem_of_In, in_flat_map in Hin
      as ([n c] & He & Hin).
    cbn [fst snd] in Hin. destruct c as [d | sub]; [contradiction |].
    cbn [wf_names] in Hwf. rewrite forallb_forall in Hwf.
    specialize (Hwf _ He). cbn [fst snd] in Hwf.
    apply andb_true_iff in Hwf as [Hname Hsub].
    apply andb_true_iff in Hname as [Hne Hsep].
    apply negb_true_iff in Hne. apply Nat.eqb_eq in Hsep.
    rewrite Forall_forall in IH.
    specialize (IH (n, Dir sub) (proj2 (list_elem_of_In _ _) He) Hsub
                  (os_path_join root n) triple
                  (proj2 (list_elem_of_In _ _) Hin)).
    pose proof (join_longer root n Hne Hsep). lia.
Qed.

(** So every asset listed below the top level is wanted. *)
Lemma subdir_assets_wanted (html_dir : string) (entries : list (string * tree))
  (v : string * (string * list Byte.byte)) :
  wf_names (Dir entries) = true ->
  v ∈ visits (subwalk html_dir entries) ->
  wanted html_dir v = is_asset (fst (snd v)).
Proof.
  intros Hwf Hin. unfold visits in Hin.
  apply list_elem_of_In, in_flat_map in Hin as ([[root dirs] files] & Ht & Hv).
  apply in_map_iff in Hv as (f & <- & _). cbn [fst snd].
  unfold subwalk in Ht. apply in_flat_map in Ht as ([n c] & He & Ht).
  cbn [fst snd] in Ht. destruct c as [d | sub]; [contradiction |].
  cbn [wf_names] in Hwf. rewrite forallb_forall in Hwf.
  specialize (Hwf _ He). cbn [fst snd] in Hwf.
  apply andb_true_iff in Hwf as [Hname Hsub].
  apply andb_true_iff in Hname as [Hne Hsep].
  apply negb_true_iff in Hne. apply Nat.eqb_eq in Hsep.
  pose proof (walk_roots_longer (Dir sub) Hsub _ _
                (proj2 (list_elem_of_In _ _) Ht)) as Hlen.
  pose proof (join_longer html_dir n Hne Hsep) as Hj.
  cbn [fst] in Hlen. unfold wanted. cbn [fst snd].
  destruct (String.eqb_spec root html_dir) as [-> | _]; [lia |].
  apply andb_true_r.
Qed.

Lemma visits_of_split (html_dir : string) (entries : list (string * tree)) :
  visits_of html_dir entries
  = map (pair html_dir) (filenames entries)
    ++ visits (subwalk html_dir entries).
Proof.
  unfold visits_of. rewrite walk_dir.
  change (?x :: ?l) with ([x] ++ l). rewrite visits_app.
  unfold visits at 1. cbn [flat_map]. now rewrite app_nil_r.
Qed.

End FlattenFacts.

Section FlattenClaims.
Import Flatten FlattenSpec.

(** C7. The asset-copy pass is idempotent, in both scripts: run on the
    directory a first pass left, it changes nothing and makes no copy, so it
    has no copy to fail; nothing the first pass found at the top level is
    lost; a destination that exists is passed over.  More generally the pass
    changes nothing in any directory where every asset below the top level
    has its name at the top level, and a pass leaves such a directory. *)
Theorem asset_flattening_idempotent (html_dir : string)
  (entries : list (string * tree)) :
  copy_assets_to_flat_structure html_dir
    (top (copy_assets_to_flat_structure html_dir entries))
  = {| top := top (copy_assets_to_flat_structure html_dir entries);
       copies := [] |}
  /\ (exists added,
        top (copy_assets_to_flat_structure html_dir entries) = entries ++ added)
  /\ closed html_dir (top (copy_assets_to_flat_structure html_dir entries))
  /\ (forall entries',
        closed html_dir entries' ->
        copy_assets_to_flat_structure html_dir entries'
        = {| top := entries'; copies := [] |})
  /\ (forall root st file,
        top_exists (top st) (fst file) = true ->
        copy_step html_dir root st file = st).
Proof.
  split; [apply pass_of_closed, pass_closed |].
  split; [| split; [apply pass_closed | split; [apply pass_of_closed |]]].
  - rewrite pass_as_run.
    destruct (run_added html_dir (visits_of html_dir entries)
                {| top := entries; copies := [] |}) as (added & Ht & _).
    now exists added.
  - intros root st file H. unfold copy_step. rewrite H.
    destruct (is_asset (fst file)); [| reflexivity].
    now destruct (negb (String.eqb root html_dir)).
Qed.

(** C10. The pass leaves the top level it found as it is, entry by entry,
    and adds files after it: one file for each name that was free at the
    top level and that some asset listed below the top level bears, with
    the bytes of the first such asset the walk comes by; later assets of
    that name are not copied, and a name that was taken gets nothing.  In a
    tree with proper entry names every asset in a subdirectory counts. *)
Theorem asset_flattening_first_wins (html_dir : string)
  (entries : list (string * tree)) :
  (exists added,
      top (copy_assets_to_flat_structure html_dir entries) = entries ++ added
      /\ NoDup (map fst added)
      /\ (forall name node,
            (name, node) ∈ added <->
            top_exists entries name = false
            /\ exists data,
                 node = File data
                 /\ first_asset html_dir name (visits_of html_dir entries)
                    = Some data))
  /\ visits_of html_dir entries
     = map (pair html_dir) (filenames entries)
       ++ visits (subwalk html_dir entries)
  /\ (wf_names (Dir entries) = true ->
      forall v, v ∈ visits (subwalk html_dir entries) ->
                wanted html_dir v = is_asset (fst (snd v))).
Proof.
  split; [| split; [apply visits_of_split |]].
  - rewrite pass_as_run.
    apply (run_added html_dir (visits_of html_dir entries)
             {| top := entries; copies := [] |}).
  - intros Hwf v Hv. now apply (subdir_assets_wanted html_dir entries).
Qed.

Lemma asset_flattening_first_wins_witness :
  top (copy_assets_to_flat_structure "reorganized" Fixtures.document_dir)
  = Fixtures.document_dir ++ [("s.css", File [Byte.x01])]
  /\ first_asset "reorganized" "s.css"
       (visits_of "reorganized" Fixtures.document_dir)
     = Some [Byte.x01]
  /\ wanted "reorganized" ("reorganized/js", ("s.css", [Byte.x03]))
     = is_asset "s.css".
Proof.
  destruct (asset_flattening_first_wins "reorganized" Fixtures.document_dir)
    as ((added & Ht & _ & Hiff) & _ & Hw).
  assert (added = [("s.css", File [Byte.x01])]) as ->.
  { apply (app_inv_head Fixtures.document_dir). rewrite <- Ht.
    vm_compute. reflexivity. }
  split; [exact Ht |]. split.
  - destruct (proj1 (Hiff "s.css" (File [Byte.x01])))
      as (_ & data & [= <-] & Hfa); [left | exact Hfa].
  - apply (Hw eq_refl ("reorganized/js", ("s.css", [Byte.x03]))).
    vm_compute. do 3 right. left.
Defined.

End FlattenClaims.

(** * Further properties of the sequencer *)

Section SequencerFrame.
Import Sequencer SequencerSpec SequencerInv.

Lemma copy2_as_copyfile (src dst : string) (fs : gmap string Fs.node) :
  fs !! dst <> Some Fs.Dir -> Fs.copy2 src dst fs = Fs.copyfile src dst fs.
Proof.
  intros H. unfold Fs.copy2.
  destruct (fs !! dst) as [[?|]|]; try reflexivity. now contradiction H.
Qed.

Lemma copy_step_writes : writes_ranked_name copy_step.
Proof.
  intros st f st' Hc Ht. unfold copy_step. rewrite Hc.
  rewrite copy2_as_copyfile
    by (apply target_clear_spec; [exact Ht | apply dst_in_target]).
  destruct (Fs.copyfile _ _ _) as [fs'|] eqn:E; [| discriminate].
  cbn [bind]. intros [= <-]. cbn [files].
  apply copyfile_ok in E as (data & Hs & ->). now exists data.
Qed.

Lemma orderHTM_step_writes : writes_ranked_name orderHTM_step.
Proof.
  intros st f st' Hc Ht. unfold orderHTM_step. cbv zeta.
  rewrite Hc, !append_assoc.
  destruct (Fs.copyfile _ _ _) as [fs'|] eqn:E; [| discriminate].
  cbn [bind]. intros [= <-]. cbn [files].
  apply copyfile_ok in E as (data & Hs & ->). now exists data.
Qed.

Lemma join_target_inj (a b : string) :
  startswith "/" a = false -> startswith "/" b = false ->
  os_path_join reorganized_dir a = os_path_join reorganized_dir b -> a = b.
Proof.
  intros Ha Hb. unfold os_path_join. rewrite Ha, Hb. cbn.
  intros H. now injection H.
Qed.

Lemma rank_below_index (st : state) (d : SequencedDocument) :
  dense st -> d ∈ copied st -> (rank d < index st)%N.
Proof.
  intros (Hi & Hr & _) Hd. rewrite Hi.
  assert (rank d ∈ ranks_from 1 (length (copied st))) as Hin
    by (rewrite <- Hr; now apply list_elem_of_fmap_2).
  clear Hr Hi Hd. revert Hin. generalize (length (copied st)). intros n.
  assert (forall s, rank d ∈ ranks_from s n -> (rank d < s + N.of_nat n)%N)
    as H; [| intros Hin; apply H in Hin; lia].
  induction n as [|n IH]; intros s Hin; simpl in Hin.
  - inversion Hin.
  - apply elem_of_cons in Hin as [-> | Hin]; [lia |].
    apply IH in Hin. lia.
Qed.

End SequencerFrame.

Section RunInPlace.
Import Sequencer SequencerSpec SequencerInv.

Variable step : state -> string -> result state.
Hypothesis laws : step_laws step.
Hypothesis writes : writes_ranked_name step.

Lemma step_in_place (fs0 : gmap string Fs.node) (st st' : state)
  (f : string) :
  copies_in_place fs0 st -> step st f = Ok st' -> copies_in_place fs0 st'.
Proof.
  intros (Ht & Hd & Hfr & Hcp) Hs.
  pose proof (step_dense step laws _ _ _ Hd Hs) as Hd'.
  pose proof (step_frame step laws _ _ _ Hs) as [Hfr' Ht'].
  split; [now apply Ht' |]. split; [exact Hd' |]. split.
  { intros p Hp. rewrite Hfr' by exact Hp. now apply Hfr. }
  destruct (Fs.path_exists (files st) (os_path_join extraction_dir f)
            && differs (basename f) (last_copied st)) eqn:Hc.
  - destruct (law_emit _ laws _ _ _ Hc Hs) as (_ & _ & _ & Hcopied).
    destruct (writes _ _ _ Hc Ht Hs) as (data & Hsrc & Hfiles).
    rewrite Hcopied. apply Forall_app. split.
    + apply Forall_forall. intros d Hin.
      rewrite Forall_forall in Hcp. destruct (Hcp d Hin) as [Hfile Hat].
      split; [exact Hfile |]. rewrite Hfiles, lookup_insert_ne; [exact Hat |].
      intros E. pose proof (rank_below_index _ _ Hd Hin) as Hlt.
      destruct Hd as (_ & _ & Hdoc). rewrite Forall_forall in Hdoc.
      destruct (Hdoc d Hin) as [g Hg]. rewrite Hg in E.
      cbn [output_filename document] in E.
      apply join_target_inj in E; try apply new_filename_relative.
      apply digits_underscore_inj in E as [E _]; try apply format_04d_digits.
      apply format_04d_inj in E. rewrite Hg in Hlt. cbn [rank document] in Hlt.
      lia.
    + constructor; [| constructor]. unfold copy_in_place.
      cbn [source_path output_filename document].
      rewrite <- (Hfr _ (src_outside_target f)), Hsrc.
      split; [reflexivity |]. rewrite Hfiles. apply lookup_insert_eq.
  - destruct (law_skip _ laws _ _ Hc) as (st'' & Hs' & Hf & _ & _ & Hcopied).
    rewrite Hs in Hs'. injection Hs' as <-. rewrite Hcopied.
    eapply Forall_impl; [exact Hcp |]. intros d [H1 H2].
    split; [exact H1 |]. now rewrite Hf.
Qed.

Lemma loop_in_place (refs : list string) (fs : gmap string Fs.node) :
  target_clear fs = true ->
  copies_in_place fs (fst (for_each step refs (initial fs))).
Proof.
  intros Ht. apply (loop_invariant step (copies_in_place fs)).
  - intros st f st'. apply step_in_place.
  - split; [exact Ht |]. split; [repeat split; constructor |].
    split; [reflexivity | constructor].
Qed.

Lemma loop_frame (refs : list string) (fs : gmap string Fs.node) (p : string) :
  startswith "reorganized/" p = false ->
  files (fst (for_each step refs (initial fs))) !! p = fs !! p.
Proof.
  intros Hp.
  apply (loop_invariant step (fun st => files st !! p = fs !! p));
    [| reflexivity].
  intros st f st' HI Hs.
  now rewrite (proj1 (step_frame step laws _ _ _ Hs) p Hp).
Qed.

End RunInPlace.

Section SequencerRuns.
Import Sequencer SequencerSpec SequencerInv.

(** X1. Neither copy loop creates, changes or removes anything outside
    [reorganized/]: every path that does not start with [reorganized/] is
    after the run, finished or cut short, what it was before. *)
Theorem sequencer_writes_target_only (refs : list string)
  (fs : gmap string Fs.node) (p : string) :
  startswith "reorganized/" p = false ->
  files (fst (_copy_files_in_order refs fs)) !! p = fs !! p
  /\ files (fst (orderHTM_copy_loop refs fs)) !! p = fs !! p.
Proof.
  intros Hp. split.
  - now apply (loop_frame copy_step copy_step_laws).
  - destruct (orderHTM_copy_loop_progress refs fs) as ((-> & _) & _).
    now apply (loop_frame orderHTM_step orderHTM_step_laws).
Qed.

Lemma sequencer_writes_target_only_witness :
  files (fst (_copy_files_in_order ["sub/b.htm"; "a.htm"] Fixtures.extracted))
    !! "extractedCHM/a.htm"
  = Some (Fs.File [])
  /\ files (fst (orderHTM_copy_loop ["sub/b.htm"; "a.htm"] Fixtures.extracted))
       !! "pdfs/0001_b.pdf"
     = None.
Proof.
  split.
  - now rewrite (proj1 (sequencer_writes_target_only
                          ["sub/b.htm"; "a.htm"] Fixtures.extracted
                          "extractedCHM/a.htm" eq_refl)).
  - now rewrite (proj2 (sequencer_writes_target_only
                          ["sub/b.htm"; "a.htm"] Fixtures.extracted
                          "pdfs/0001_b.pdf" eq_refl)).
Defined.




Lemma step_raises_on_directory (st : state) (f : string) :
  is_dir (files st !! os_path_join extraction_dir f) = true ->
  differs (basename f) (last_copied st) = true ->
  copy_step st f = Raise (IsADirectoryError (os_path_join extraction_dir f))
  /\ orderHTM_step st f
     = Raise (IsADirectoryError (os_path_join extraction_dir f)).
Proof.
  intros Hd Hl.
  destruct (files st !! os_path_join extraction_dir f) as [[?|]|] eqn:E;
    try discriminate.
  assert (forall dst, startswith "reorganized/" dst = true ->
            Fs.copyfile (os_path_join extraction_dir f) dst (files st)
            = Raise (IsADirectoryError (os_path_join extraction_dir f))) as Hcp.
  { intros dst Hdst. unfold Fs.copyfile.
    destruct (String.eqb_spec (os_path_join extraction_dir f) dst) as [<- | _].
    - now rewrite src_outside_target in Hdst.
    - now rewrite E. }
  split.
  - unfold copy_step, Fs.path_exists. rewrite E, Hl. cbn [andb].
    unfold Fs.copy2.
    destruct (files st !! os_path_join reorganized_dir _) as [[?|]|];
      rewrite Hcp; try reflexivity; try apply dst_in_target.
    apply join_dir_in_target; [apply dst_in_target | apply basename_no_sep].
  - unfold orderHTM_step, Fs.path_exists. cbv zeta.
    rewrite E, Hl, !append_assoc. cbn [andb].
    rewrite Hcp; [reflexivity | apply dst_in_target].
Qed.

(** X4. A reference that names a directory of the extraction, met when
    its basename is not the last copied one, ends either loop with
    [IsADirectoryError]: the references after it are never looked at, and
    the copies made before it stay. *)
Theorem sequencer_stops_at_directory (pre post : list string) (f : string)
  (fs : gmap string Fs.node) :
  is_dir (fs !! os_path_join extraction_dir f) = true ->
  (snd (_copy_files_in_order pre fs) = None ->
   differs (basename f) (last_copied (fst (_copy_files_in_order pre fs)))
   = true ->
   _copy_files_in_order (pre ++ f :: post) fs
   = (fst (_copy_files_in_order pre fs),
      Some (IsADirectoryError (os_path_join extraction_dir f))))
  /\ (snd (orderHTM_copy_loop pre fs) = None ->
      differs (basename f) (last_copied (fst (orderHTM_copy_loop pre fs)))
      = true ->
      snd (orderHTM_copy_loop (pre ++ f :: post) fs)
      = Some (IsADirectoryError (os_path_join extraction_dir f))
      /\ copied (fst (orderHTM_copy_loop (pre ++ f :: post) fs))
         = copied (fst (orderHTM_copy_loop pre fs))).
Proof.
  intros Hd. split.
  - intros Hok Hl. unfold _copy_files_in_order in *. rewrite for_each_app.
    pose proof (loop_keeps_sources copy_step copy_step_laws pre f (initial fs))
      as Hk.
    destruct (for_each copy_step pre (initial fs)) as [st1 e].
    cbn [fst snd initial files] in *. subst e.
    cbn [for_each]. rewrite <- Hk in Hd.
    now rewrite (proj1 (step_raises_on_directory st1 f Hd Hl)).
  - intros Hok Hl.
    destruct (orderHTM_copy_loop_progress pre fs) as ((_ & Hl1 & _ & Hc1) & He1).
    destruct (orderHTM_copy_loop_progress (pre ++ f :: post) fs)
      as ((_ & _ & _ & Hc2) & He2).
    rewrite He1 in Hok. rewrite Hl1 in Hl. rewrite He2, Hc2, Hc1.
    rewrite for_each_app.
    pose proof (loop_keeps_sources orderHTM_step orderHTM_step_laws pre f
                  (initial fs)) as Hk.
    destruct (for_each orderHTM_step pre (initial fs)) as [st1 e].
    cbn [fst snd initial files] in *. subst e.
    cbn [for_each]. rewrite <- Hk in Hd.
    rewrite (proj2 (step_raises_on_directory st1 f Hd Hl)). now split.
Qed.

Lemma sequencer_stops_at_directory_witness :
  is_dir (Samples.extracted_with_dir !! os_path_join extraction_dir "images")
  = true
  /\ _copy_files_in_order (["a.htm"] ++ "images" :: ["sub/b.htm"])
       Samples.extracted_with_dir
     = (fst (_copy_files_in_order ["a.htm"] Samples.extracted_with_dir),
        Some (IsADirectoryError "extractedCHM/images")).
Proof.
  split; [reflexivity |].
  apply (sequencer_stops_at_directory ["a.htm"] ["sub/b.htm"] "images"
           Samples.extracted_with_dir eq_refl); reflexivity.
Defined.

(** C4. A reference whose candidate path is not a file of the extraction
    is passed over by both loops when nothing is at the path: the turn
    raises nothing, copies nothing and leaves the index as it was, and the
    whole run is the run without the reference.  When a directory is at the
    path the reference is not passed over: [os.path.exists] answers true,
    the copy raises [IsADirectoryError] and the run ends there.  The
    reference left of [value="#top"] is the empty string, whose candidate
    path is the extraction directory itself. *)
Theorem dangling_reference_skipped_unless_directory :
  (forall st f,
      is_file (files st !! os_path_join extraction_dir f) = false ->
      Fs.path_exists (files st) (os_path_join extraction_dir f) = false
      \/ is_dir (files st !! os_path_join extraction_dir f) = true)
  /\ (forall st f,
        Fs.path_exists (files st) (os_path_join extraction_dir f) = false ->
        copy_step st f = Ok st /\ passes_over orderHTM_step st f)
  /\ (forall pre post f fs,
        Fs.path_exists fs (os_path_join extraction_dir f) = false ->
        _copy_files_in_order (pre ++ f :: post) fs
        = _copy_files_in_order (pre ++ post) fs
        /\ same_progress (fst (orderHTM_copy_loop (pre ++ post) fs))
                         (fst (orderHTM_copy_loop (pre ++ f :: post) fs))
        /\ snd (orderHTM_copy_loop (pre ++ f :: post) fs)
           = snd (orderHTM_copy_loop (pre ++ post) fs))
  /\ (forall st f,
        is_dir (files st !! os_path_join extraction_dir f) = true ->
        differs (basename f) (last_copied st) = true ->
        copy_step st f
        = Raise (IsADirectoryError (os_path_join extraction_dir f))
        /\ orderHTM_step st f
           = Raise (IsADirectoryError (os_path_join extraction_dir f)))
  /\ (split_hash_0 "#top" = ""
      /\ os_path_join extraction_dir "" = "extractedCHM/"
      /\ is_file (Samples.extracted_with_root !! "extractedCHM/") = false
      /\ _copy_files_in_order ["a.htm"; ""; "sub/b.htm"]
           Samples.extracted_with_root
         = (fst (_copy_files_in_order ["a.htm"] Samples.extracted_with_root),
            Some (IsADirectoryError "extractedCHM/"))
      /\ snd (orderHTM_copy_loop ["a.htm"; ""; "sub/b.htm"]
                Samples.extracted_with_root)
         = Some (IsADirectoryError "extractedCHM/")
      /\ copied (fst (orderHTM_copy_loop ["a.htm"; ""; "sub/b.htm"]
                        Samples.extracted_with_root))
         = [document "a.htm" 1]).
Proof.
  split; [| split; [| split; [| split]]].
  - intros st f H. unfold Fs.path_exists.
    destruct (files st !! os_path_join extraction_dir f) as [[data|]|];
      [discriminate | now right | now left].
  - apply missing_reference_skipped.
  - apply missing_reference_skipped.
  - apply step_raises_on_directory.
  - repeat split.
Qed.

Lemma dangling_reference_skipped_unless_directory_witness :
  is_file (Samples.extracted_with_root !! os_path_join extraction_dir "")
  = false
  /\ copy_step (fst (_copy_files_in_order ["a.htm"]
                       Samples.extracted_with_root)) ""
     = Raise (IsADirectoryError "extractedCHM/")
  /\ orderHTM_step (fst (orderHTM_copy_loop ["a.htm"]
                           Samples.extracted_with_root)) ""
     = Raise (IsADirectoryError "extractedCHM/")
  /\ _copy_files_in_order (["a.htm"] ++ "missing.htm" :: ["sub/b.htm"])
       Fixtures.extracted
     = _copy_files_in_order (["a.htm"] ++ ["sub/b.htm"]) Fixtures.extracted.
Proof.
  destruct dangling_reference_skipped_unless_directory
    as (_ & _ & Hskip & Hdir & _).
  split; [reflexivity |]. split; [| split].
  - apply (Hdir (fst (_copy_files_in_order ["a.htm"]
                        Samples.extracted_with_root)) ""); reflexivity.
  - apply (Hdir (fst (orderHTM_copy_loop ["a.htm"]
                        Samples.extracted_with_root)) ""); reflexivity.
  - destruct (Hskip ["a.htm"] ["sub/b.htm"] "missing.htm" Fixtures.extracted)
      as [Hc _]; [reflexivity | exact Hc].
Defined.

End SequencerRuns.

Section SequencerAgreement.
Import Sequencer SequencerSpec SequencerInv.

Lemma steps_agree (st1 st2 : state) (f : string) :
  same_progress st1 st2 -> target_clear (files st1) = true ->
  match copy_step st1 f, orderHTM_step st2 f with
  | Ok a, Ok b => same_progress a b
  | Raise e1, Raise e2 => e1 = e2
  | _, _ => False
  end.
Proof.
  destruct st1 as [fs1 l1 i1 c1 o1], st2 as [fs2 l2 i2 c2 o2].
  intros (Hf & Hl & Hi & Hc) Ht. cbn [files last_copied index copied] in *.
  subst. unfold copy_step, orderHTM_step.
  cbn [files last_copied index copied stdout]. cbv zeta.
  rewrite !append_assoc.
  destruct (_ && _).
  - rewrite copy2_as_copyfile
      by (apply target_clear_spec; [exact Ht | apply dst_in_target]).
    destruct (Fs.copyfile _ _ _); cbn [bind]; [repeat split | reflexivity].
  - destruct (negb _); repeat split.
Qed.

Lemma loops_agree (refs : list string) :
  forall st1 st2,
    same_progress st1 st2 -> target_clear (files st1) = true ->
    same_progress (fst (for_each copy_step refs st1))
                  (fst (for_each orderHTM_step refs st2))
    /\ snd (for_each copy_step refs st1)
       = snd (for_each orderHTM_step refs st2).
Proof.
  induction refs as [|f refs IH]; intros st1 st2 Hp Ht; simpl; [now split |].
  pose proof (steps_agree st1 st2 f Hp Ht) as Hs.
  destruct (copy_step st1 f) as [a|e1] eqn:Ea,
           (orderHTM_step st2 f) as [b|e2]; try contradiction.
  - apply IH; [exact Hs |].
    now apply (proj2 (step_frame copy_step copy_step_laws _ _ _ Ea)).
  - subst. now split.
Qed.

(** X5. When the target holds no directory the two pipelines sequence
    alike on every reference list: the same copies under the same names,
    the same files, the same index and last copied basename, and the same
    exception if any.  With a directory where a page is to be written they
    part: [shutil.copyfile] of orderHTM.py raises [IsADirectoryError],
    [shutil.copy2] of the cloud pipeline writes the page inside that
    directory and counts it as copied. *)
Theorem sequencers_agree_on_clear_target :
  (forall refs fs,
      target_clear fs = true ->
      same_progress (fst (_copy_files_in_order refs fs))
                    (fst (orderHTM_copy_loop refs fs))
      /\ snd (_copy_files_in_order refs fs) = snd (orderHTM_copy_loop refs fs))
  /\ (forall st f data,
        files st !! os_path_join extraction_dir f = Some (Fs.File data) ->
        differs (basename f) (last_copied st) = true ->
        files st !! os_path_join reorganized_dir
                      (format_04d (index st) +:+ "_" +:+ basename f)
        = Some Fs.Dir ->
        orderHTM_step st f
        = Raise (IsADirectoryError
                   (os_path_join reorganized_dir
                      (format_04d (index st) +:+ "_" +:+ basename f)))
        /\ (files st !! os_path_join
                          (os_path_join reorganized_dir
                             (format_04d (index st) +:+ "_" +:+ basename f))
                          (basename (os_path_join extraction_dir f))
            <> Some Fs.Dir ->
            exists st',
              copy_step st f = Ok st'
              /\ index st' = (index st + 1)%N
              /\ files st'
                 = <[os_path_join
                       (os_path_join reorganized_dir
                          (format_04d (index st) +:+ "_" +:+ basename f))
                       (basename (os_path_join extraction_dir f))
                     := Fs.File data]> (files st))).
Proof.
  split.
  - intros refs fs Ht.
    destruct (orderHTM_copy_loop_progress refs fs) as (Hp & ->).
    destruct (loops_agree refs (initial fs) (initial fs)
                (same_progress_refl _) Ht) as [Ha He].
    split; [| exact He]. unfold _copy_files_in_order.
    destruct Ha as (A1 & A2 & A3 & A4), Hp as (B1 & B2 & B3 & B4).
    repeat split; congruence.
  - intros st f data Hs Hl Hd. split.
    + unfold orderHTM_step, Fs.path_exists. cbv zeta.
      rewrite Hs, Hl, !append_assoc. cbn [andb].
      unfold Fs.copyfile.
      destruct (String.eqb_spec (os_path_join extraction_dir f)
                  (os_path_join reorganized_dir
                     (format_04d (index st) +:+ "_" +:+ basename f)))
        as [E | _]; [now apply src_dst_differ in E |].
      now rewrite Hs, Hd.
    + intros Hin. unfold copy_step, Fs.path_exists.
      rewrite Hs, Hl. cbn [andb]. unfold Fs.copy2. rewrite Hd.
      rewrite (copyfile_succeeds _ _ _ data); [| | exact Hs | exact Hin].
      * cbn [bind]. eexists. split; [reflexivity |]. now split.
      * intros E. pose proof (src_outside_target f) as Ho.
        rewrite E, join_dir_in_target in Ho;
          [discriminate | apply dst_in_target | apply basename_no_sep].
Qed.

End SequencerAgreement.

Section TargetReset.
Import Sequencer SequencerSpec SequencerInv Organize.

Lemma parents_listed_spec (fs : gmap string Fs.node) (p : string) :
  parents_listed fs = true -> startswith "reorganized/" p = true ->
  is_dir (fs !! reorganized_dir) = false -> fs !! p = None.
Proof.
  unfold parents_listed. rewrite forallb_forall. intros H Hp Hd.
  destruct (fs !! p) as [n|] eqn:E; [| reflexivity].
  apply elem_of_map_to_list, list_elem_of_In in E.
  specialize (H _ E). cbn [fst] in H. rewrite Hp, Hd in H. discriminate.
Qed.

Lemma below_not_target (p : string) :
  startswith "reorganized/" p = true -> p <> reorganized_dir.
Proof. intros H ->. discriminate. Qed.

Lemma src_not_target (g : string) :
  os_path_join extraction_dir g <> reorganized_dir.
Proof.
  unfold os_path_join. destruct (startswith "/" g) eqn:H.
  - intros ->. discriminate.
  - cbn. discriminate.
Qed.

Lemma rmtree_drops (p : string) :
  String.eqb p reorganized_dir = true
  \/ startswith "reorganized/" p = true ->
  (String.eqb p reorganized_dir
   || startswith (reorganized_dir +:+ "/") p) <> false.
Proof.
  change (reorganized_dir +:+ "/") with "reorganized/".
  intros [-> | ->]; [discriminate |]. rewrite orb_true_r. discriminate.
Qed.

Lemma rmtree_keeps (p : string) :
  p <> reorganized_dir -> startswith "reorganized/" p = false ->
  (String.eqb p reorganized_dir
   || startswith (reorganized_dir +:+ "/") p) = false.
Proof.
  change (reorganized_dir +:+ "/") with "reorganized/".
  intros Hne ->. now destruct (String.eqb_spec p reorganized_dir).
Qed.

Lemma rmtree_lookup (fs : gmap string Fs.node) (p : string) :
  filter (fun kv : string * Fs.node =>
            (String.eqb (fst kv) reorganized_dir
             || startswith (reorganized_dir +:+ "/") (fst kv)) = false) fs !! p
  = if String.eqb p reorganized_dir || startswith "reorganized/" p
    then None else fs !! p.
Proof.
  destruct (String.eqb p reorganized_dir || startswith "reorganized/" p) eqn:H.
  - apply map_lookup_filter_None_2. right. intros x _. cbn [fst].
    apply rmtree_drops. now apply orb_true_iff in H.
  - apply orb_false_iff in H as [H1 H2].
    destruct (fs !! p) as [n|] eqn:Ep.
    + apply map_lookup_filter_Some_2; [exact Ep |]. cbn [fst].
      apply rmtree_keeps; [| exact H2]. intros ->. discriminate.
    + apply map_lookup_filter_None_2. now left.
Qed.

Lemma reset_target_result (fs fs' : gmap string Fs.node) :
  parents_listed fs = true -> reset_target fs = Ok fs' ->
  fs' !! reorganized_dir = Some Fs.Dir
  /\ (forall p, startswith "reorganized/" p = true -> fs' !! p = None)
  /\ (forall p, p <> reorganized_dir ->
                startswith "reorganized/" p = false -> fs' !! p = fs !! p).
Proof.
  intros Hw. unfold reset_target, Fs.path_exists, rmtree, makedirs.
  destruct (fs !! reorganized_dir) as [[data|]|] eqn:E; cbn [bind].
  - discriminate.
  - rewrite (rmtree_lookup fs reorganized_dir).
    intros [= <-]. split; [apply lookup_insert_eq |]. split.
    + intros p Hp.
      rewrite lookup_insert_ne by (apply not_eq_sym; now apply below_not_target).
      rewrite rmtree_lookup, Hp. now rewrite orb_true_r.
    + intros p Hne Hp. rewrite lookup_insert_ne by now apply not_eq_sym.
      rewrite rmtree_lookup, Hp.
      now destruct (String.eqb_spec p reorganized_dir).
  - rewrite E. intros [= <-]. split; [apply lookup_insert_eq |]. split.
    + intros p Hp.
      rewrite lookup_insert_ne by (apply not_eq_sym; now apply below_not_target).
      apply parents_listed_spec; [exact Hw | exact Hp | now rewrite E].
    + intros p Hne Hp. now rewrite lookup_insert_ne by now apply not_eq_sym.
Qed.

(** X6. The reset both pipelines run before sequencing
    ([if os.path.exists: shutil.rmtree], then [os.makedirs]) leaves
    [reorganized] an empty directory and every other path as it was, so the
    copy loop that follows raises nothing as long as no reference names a
    directory; the reset itself fails exactly when [reorganized] is a
    regular file. *)
Theorem reset_target_clears (fs : gmap string Fs.node) :
  parents_listed fs = true ->
  (is_file (fs !! reorganized_dir) = true ->
   reset_target fs = Raise (OtherError "NotADirectoryError"))
  /\ (is_file (fs !! reorganized_dir) = false ->
      exists fs',
        reset_target fs = Ok fs'
        /\ fs' !! reorganized_dir = Some Fs.Dir
        /\ (forall p, startswith "reorganized/" p = true -> fs' !! p = None)
        /\ (forall p, p <> reorganized_dir ->
                      startswith "reorganized/" p = false ->
                      fs' !! p = fs !! p)
        /\ (forall refs,
              no_dir_refs fs refs = true ->
              snd (_copy_files_in_order refs fs') = None
              /\ snd (orderHTM_copy_loop refs fs') = None)).
Proof.
  intros Hw. split.
  - unfold reset_target, Fs.path_exists, rmtree.
    destruct (fs !! reorganized_dir) as [[data|]|] eqn:E; try discriminate.
    reflexivity.
  - intros Hf.
    assert (exists fs', reset_target fs = Ok fs') as [fs' Hr].
    { unfold reset_target, Fs.path_exists, rmtree, makedirs.
      destruct (fs !! reorganized_dir) as [[data|]|] eqn:E; cbn [bind].
      - discriminate.
      - rewrite (rmtree_lookup fs reorganized_dir). eauto.
      - rewrite E. eauto. }
    exists fs'. split; [exact Hr |].
    destruct (reset_target_result fs fs' Hw Hr) as (H1 & H2 & H3).
    repeat split; try assumption.
    + apply (loop_ok copy_step copy_step_laws refs (initial fs')).
      * cbn [initial files]. rewrite (no_dir_refs_ext fs' fs); [assumption |].
        intros g. apply H3; [apply src_not_target | apply src_outside_target].
      * apply target_clear_spec. intros p Hp. cbn [initial files].
        now rewrite (H2 p Hp).
    + destruct (orderHTM_copy_loop_progress refs fs') as (_ & ->).
      apply (loop_ok orderHTM_step orderHTM_step_laws refs (initial fs')).
      * cbn [initial files]. rewrite (no_dir_refs_ext fs' fs); [assumption |].
        intros g. apply H3; [apply src_not_target | apply src_outside_target].
      * apply target_clear_spec. intros p Hp. cbn [initial files].
        now rewrite (H2 p Hp).
Qed.

Lemma reset_target_clears_witness :
  parents_listed Samples.stale_target = true
  /\ exists fs',
       reset_target Samples.stale_target = Ok fs'
       /\ fs' !! "reorganized/0001_a.htm" = None
       /\ snd (_copy_files_in_order ["a.htm"; "sub/b.htm"] fs') = None.
Proof.
  split; [reflexivity |].
  destruct (reset_target_clears Samples.stale_target eq_refl) as [_ H].
  destruct (H eq_refl) as (fs' & Hr & _ & Hb & _ & Hrun).
  exists fs'. split; [exact Hr |]. split; [now apply Hb |].
  now apply Hrun.
Defined.

End TargetReset.

(** * Further properties of the TOC parser *)

Section TocFragments.
Import Soup TocParser TocSpec.

Lemma split_hash_0_spec (v : string) :
  count_char "#" (split_hash_0 v) = 0
  /\ (split_hash_0 v = v
      \/ exists frag, v = split_hash_0 v +:+ String "#" frag).
Proof.
  induction v as [|c v [IH1 IH2]]; cbn [split_hash_0].
  - split; [reflexivity | now left].
  - destruct (Ascii.eqb_spec c "#") as [-> | Hc].
    + split; [reflexivity |]. right. now exists v.
    + split.
      * cbn [count_char]. rewrite IH1.
        destruct (Ascii.eqb_spec c "#"); [contradiction | reflexivity].
      * destruct IH2 as [-> | [frag Hf]]; [now left |].
        right. exists frag. cbn [String.append]. now rewrite <- Hf.
Qed.

(** X7. Every reference either parser returns is the [value] of a
    [param] tag whose [name] is [Local] in some case, cut at its first
    [#]: it holds no [#], and the value is the reference itself or the
    reference, a [#] and a fragment. *)
Theorem parsed_references_have_no_fragment
  (html_parser : string -> list node) (text : string) (refs : list string) :
  _parse_hhc_file html_parser text = Ok refs
  \/ orderHTM_parse html_parser text = Ok refs ->
  Forall (fun r =>
            count_char "#" r = 0
            /\ exists param v,
                 param ∈ local_params (html_parser text)
                 /\ attrs_of param !! "value" = Some v
                 /\ (r = v \/ exists frag, v = r +:+ String "#" frag))
         refs.
Proof.
  intros H.
  assert (refs = flat_map reference_of (local_params (html_parser text)))
    as ->.
  { destruct H as [H | H].
    - rewrite _parse_hhc_file_total in H. now injection H.
    - rewrite orderHTM_parse_cases in H.
      destruct (forallb has_value _); [| discriminate].
      rewrite _parse_hhc_file_total in H. now injection H. }
  apply Forall_flat_map_iff, Forall_forall. intros param Hin.
  unfold reference_of. destruct (attrs_of param !! "value") as [v|] eqn:Hv;
    [| constructor].
  constructor; [| constructor].
  destruct (split_hash_0_spec v) as [H0 Hp]. split; [exact H0 |].
  exists param, v. repeat split; assumption.
Qed.

Lemma parsed_references_have_no_fragment_witness :
  _parse_hhc_file (fun _ => [Fixtures.param_with_fragment]) "" = Ok ["intro.htm"]
  /\ Forall (fun r => count_char "#" r = 0) ["intro.htm"].
Proof.
  split; [reflexivity |].
  eapply Forall_impl.
  - apply (parsed_references_have_no_fragment
             (fun _ => [Fixtures.param_with_fragment]) "" ["intro.htm"]).
    left. reflexivity.
  - intros r [H _]. exact H.
Defined.

End TocFragments.

(** * Further properties of the normalizer *)

Section NormalizerFrame.
Import Soup Normalizer.

Variable detect : list Byte.byte -> option string.
Variable decode : option string -> list Byte.byte -> result string.
Variable html_parser : string -> result (list node).
Variable render : list node -> result (list Byte.byte).

#[local] Abbreviation kind_kept fs fs' :=
  (forall q, SequencerSpec.is_file (fs' !! q) = SequencerSpec.is_file (fs !! q)
             /\ SequencerSpec.is_dir (fs' !! q)
                = SequencerSpec.is_dir (fs !! q)).

Lemma frame_kind_kept (fs fs' : gmap string Fs.node) (p : string) :
  (forall q, q <> p -> fs' !! q = fs !! q) ->
  SequencerSpec.is_file (fs' !! p) = SequencerSpec.is_file (fs !! p) ->
  SequencerSpec.is_dir (fs' !! p) = SequencerSpec.is_dir (fs !! p) ->
  kind_kept fs fs'.
Proof.
  intros Hfr Hf Hd q. destruct (decide (q = p)) as [-> | Hne].
  - now split.
  - now rewrite (Hfr q Hne).
Qed.

Lemma process_files_frame (files : list string) :
  forall fs,
    kind_kept fs (fst (process_files detect decode html_parser render files fs))
    /\ forall q, q ∉ files ->
         fst (process_files detect decode html_parser render files fs) !! q
         = fs !! q.
Proof.
  induction files as [|p files IH]; intros fs; [now split |].
  rewrite process_files_cons. cbn [fst].
  destruct (cloud_body_cases detect decode html_parser render fs p)
    as (Hfr & Hf & Hd & _).
  destruct (IH (fst (process_body detect decode html_parser render fs p)))
    as [IHk IHf].
  split.
  - intros q. destruct (IHk q) as [-> ->].
    now apply (frame_kind_kept fs _ p).
  - intros q Hq. apply not_elem_of_cons in Hq as [Hne Hq].
    rewrite (IHf q Hq). now apply Hfr.
Qed.

Lemma removeText_main_frame (files : list string) :
  forall fs,
    kind_kept fs
      (fst (removeText_main detect decode html_parser render files fs))
    /\ forall q, q ∉ files ->
         fst (removeText_main detect decode html_parser render files fs) !! q
         = fs !! q.
Proof.
  induction files as [|p files IH]; intros fs; [now split |].
  cbn [removeText_main].
  destruct (script_body_cases detect decode html_parser render
              "show framing" fs p) as (Hfr & Hf & Hd & _).
  destruct (remove_show_framing detect decode html_parser render
              "show framing" fs p) as [fs1 [e|]]; cbn [fst] in *.
  - split.
    + now apply (frame_kind_kept fs fs1 p).
    + intros q Hq. apply not_elem_of_cons in Hq as [Hne _]. now apply Hfr.
  - destruct (IH fs1) as [IHk IHf]. split.
    + intros q. destruct (IHk q) as [-> ->].
      now apply (frame_kind_kept fs fs1 p).
    + intros q Hq. apply not_elem_of_cons in Hq as [Hne Hq].
      rewrite (IHf q Hq). now apply Hfr.
Qed.

(** X8. Normalizing a batch of pages, in either pipeline, creates no
    path, removes none and turns no file into a directory or back, and a
    path that is not in the batch keeps its bytes; a page is rewritten
    only when it is a regular file, and a page whose processing fails is
    left as it was or, when the failure comes after the file was opened
    for writing, empty. *)
Theorem normalizer_rewrites_listed_files_only (files : list string)
  (fs : gmap string Fs.node) :
  (forall q,
      SequencerSpec.is_file
        (fst (process_files detect decode html_parser render files fs) !! q)
      = SequencerSpec.is_file (fs !! q)
      /\ SequencerSpec.is_file
           (fst (removeText_main detect decode html_parser render files fs)
              !! q)
         = SequencerSpec.is_file (fs !! q))
  /\ (forall q,
        Fs.path_exists
          (fst (process_files detect decode html_parser render files fs)) q
        = Fs.path_exists fs q
        /\ Fs.path_exists
             (fst (removeText_main detect decode html_parser render files fs))
             q
           = Fs.path_exists fs q)
  /\ (forall q,
        q ∉ files ->
        fst (process_files detect decode html_parser render files fs) !! q
        = fs !! q
        /\ fst (removeText_main detect decode html_parser render files fs) !! q
           = fs !! q)
  /\ (forall p,
        snd (process_body detect decode html_parser render fs p) = None ->
        SequencerSpec.is_file (fs !! p) = true)
  /\ (forall p,
        snd (process_body detect decode html_parser render fs p) <> None ->
        _process_single_file detect decode html_parser render fs p
        = (fst (process_body detect decode html_parser render fs p), false)
        /\ (forall q,
              q <> p ->
              fst (process_body detect decode html_parser render fs p) !! q
              = fs !! q)
        /\ (fst (process_body detect decode html_parser render fs p) !! p
            = fs !! p
            \/ fst (process_body detect decode html_parser render fs p) !! p
               = Some (Fs.File []))).
Proof.
  destruct (process_files_frame files fs) as [Pk Pf].
  destruct (removeText_main_frame files fs) as [Rk Rf].
  assert (forall a b : option Fs.node,
            SequencerSpec.is_file a = SequencerSpec.is_file b ->
            SequencerSpec.is_dir a = SequencerSpec.is_dir b ->
            match a with Some _ => true | None => false end
            = match b with Some _ => true | None => false end) as Hex.
  { intros [[?|]|] [[?|]|]; cbn; congruence. }
  split; [| split; [| split; [| split]]].
  - intros q. split; [apply Pk | apply Rk].
  - intros q. unfold Fs.path_exists.
    split; apply Hex; try apply Pk; apply Rk.
  - intros q Hq. split; [now apply Pf | now apply Rf].
  - intros p. apply (cloud_body_cases detect decode html_parser render fs p).
  - intros p Hb.
    destruct (cloud_body_cases detect decode html_parser render fs p)
      as (Hfr & _ & _ & _ & Hp).
    split; [| split; [exact Hfr | now apply Hp]].
    unfold _process_single_file.
    destruct (process_body detect decode html_parser render fs p)
      as [fs' [e|]]; [reflexivity | now contradiction Hb].
Qed.

End NormalizerFrame.

Section ReplaceFacts.

Lemma replace_from_skip (old new : string) (k : nat) (s : string) :
  replace_from k old new s = replace_from 0 old new (drop k s).
Proof.
  revert k; induction s as [|c s IH]; intros [|k]; try reflexivity.
  cbn [replace_from drop]. apply IH.
Qed.

Lemma replace_cons (o : ascii) (old' new : string) (c : ascii) (s : string) :
  replace (String o old') new (String c s)
  = if startswith (String o old') (String c s)
    then new +:+ replace (String o old') new (drop (String.length old') s)
    else String c (replace (String o old') new s).
Proof.
  unfold replace. cbn [replace_from].
  destruct (startswith (String o old') (String c s)); [| reflexivity].
  rewrite replace_from_skip.
  replace (String.length (String o old') - 1) with (String.length old')
    by (cbn [String.length]; lia).
  reflexivity.
Qed.

Lemma contains_cons (p : string) (c : ascii) (s : string) :
  contains p (String c s) = startswith p (String c s) || contains p s.
Proof. reflexivity. Qed.

Lemma contains_empty (p : string) : contains p "" = startswith p "".
Proof. cbn [contains]. apply orb_false_r. Qed.

Lemma contains_drop (p : string) (k : nat) (s : string) :
  contains p (drop k s) = true -> contains p s = true.
Proof.
  revert s; induction k as [|k IH]; intros [|c s] H; try exact H.
  rewrite contains_cons. cbn [drop] in H. rewrite (IH _ H). apply orb_true_r.
Qed.

Lemma length_drop (k : nat) (s : string) :
  String.length (drop k s) <= String.length s.
Proof.
  revert s; induction k as [|k IH]; intros [|c s]; cbn [drop String.length];
    try lia. specialize (IH s). lia.
Qed.

(** A replaced text starts with a pattern that holds no space only where
    the text itself does. *)
Lemma startswith_replace (o : ascii) (old' p s : string) :
  count_char " " p = 0 ->
  startswith p (replace (String o old') " " s) = true ->
  startswith p s = true.
Proof.
  revert s; induction p as [|a p IH]; intros s Hp H; [reflexivity |].
  cbn [count_char] in Hp.
  destruct (Ascii.eqb a " ") eqn:Ha; [discriminate |]. cbn in Hp.
  destruct s as [|c s]; [exact H |].
  rewrite replace_cons in H.
  destruct (startswith (String o old') (String c s)).
  - cbn [String.append startswith] in H. rewrite Ha in H. discriminate.
  - cbn [startswith] in *. apply andb_true_iff in H as [-> H].
    now rewrite (IH s Hp H).
Qed.

Lemma contains_replace_bounded (o : ascii) (old' p : string) (n : nat) :
  count_char " " p = 0 ->
  forall s, String.length s <= n ->
            contains p (replace (String o old') " " s) = true ->
            contains p s = true.
Proof.
  intros Hp. induction n as [|n IH]; intros [|c s] Hl H;
    cbn [String.length] in Hl; try lia; try exact H.
  pose proof (startswith_replace o old' p (String c s) Hp) as Hs.
  rewrite replace_cons in H, Hs. rewrite contains_cons.
  destruct (startswith (String o old') (String c s)).
  - destruct p as [|a p]; [reflexivity |].
    cbn [String.append] in H. rewrite contains_cons in H.
    apply orb_true_iff in H as [H | H].
    + cbn [startswith] in H. cbn [count_char] in Hp.
      destruct (Ascii.eqb a " "); [discriminate | discriminate H].
    + apply IH in H; [| pose proof (length_drop (String.length old') s); lia].
      rewrite (contains_drop _ _ _ H). apply orb_true_r.
  - rewrite contains_cons in H. apply orb_true_iff in H as [H | H].
    + now rewrite (Hs H).
    + rewrite (IH s ltac:(lia) H). apply orb_true_r.
Qed.

Lemma contains_replace (o : ascii) (old' p s : string) :
  count_char " " p = 0 ->
  contains p s = false ->
  contains p (replace (String o old') " " s) = false.
Proof.
  intros Hp Hs.
  destruct (contains p (replace (String o old') " " s)) eqn:H; [| reflexivity].
  apply (contains_replace_bounded o old' p _ Hp s (le_n _)) in H. congruence.
Qed.

Lemma replace_removes_bounded (o : ascii) (old' : string) (n : nat) :
  count_char " " (String o old') = 0 ->
  forall s, String.length s <= n ->
            contains (String o old') (replace (String o old') " " s) = false.
Proof.
  intros Hp. induction n as [|n IH]; intros [|c s] Hl;
    cbn [String.length] in Hl; try lia; try reflexivity.
  pose proof (startswith_replace o old' (String o old') (String c s) Hp) as Hs.
  rewrite replace_cons in *.
  destruct (startswith (String o old') (String c s)) eqn:E.
  - cbn [String.append]. rewrite contains_cons.
    rewrite IH by (pose proof (length_drop (String.length old') s); lia).
    cbn [startswith]. cbn [count_char] in Hp.
    destruct (Ascii.eqb o " "); [discriminate | reflexivity].
  - rewrite contains_cons, (IH s) by lia.
    destruct (startswith (String o old') (String c (replace _ _ s)));
      [now discriminate Hs | reflexivity].
Qed.

Lemma replace_absent (old new s : string) :
  contains old s = false -> replace old new s = s.
Proof.
  unfold replace. induction s as [|c s IH]; intros H; [reflexivity |].
  rewrite contains_cons in H. apply orb_false_iff in H as [H1 H2].
  cbn [replace_from]. rewrite H1. f_equal. now apply IH.
Qed.

End ReplaceFacts.

Section CleanFacts.
Import Normalizer.

(** X9. After the three [replace] calls the text holds none of the three
    patterns (the bytes EF BF BD read as three characters, the no-break
    space, the letters [xe2]), so cleaning twice is cleaning once; a text
    that holds none of them is returned as it is. *)
Theorem clean_leaves_no_pattern (content : string) :
  contains mojibake (clean content) = false
  /\ contains nbsp (clean content) = false
  /\ contains "xe2" (clean content) = false
  /\ clean (clean content) = clean content
  /\ (contains mojibake content || contains nbsp content
      || contains "xe2" content = false -> clean content = content).
Proof.
  assert (contains mojibake (clean content) = false
          /\ contains nbsp (clean content) = false
          /\ contains "xe2" (clean content) = false) as (H1 & H2 & H3).
  { unfold clean. cbv zeta. repeat split.
    - unfold nbsp at 1. unfold mojibake at 1.
      do 2 (apply contains_replace; [reflexivity |]).
      unfold mojibake.
      eapply replace_removes_bounded; [reflexivity | apply le_n].
    - unfold nbsp at 1. apply contains_replace; [reflexivity |].
      unfold nbsp.
      eapply replace_removes_bounded; [reflexivity | apply le_n].
    - eapply replace_removes_bounded; [reflexivity | apply le_n]. }
  repeat split; try assumption.
  - unfold clean at 1. cbv zeta.
    now rewrite (replace_absent mojibake), (replace_absent nbsp),
      (replace_absent "xe2").
  - intros H. apply orb_false_iff in H as [H Hx].
    apply orb_false_iff in H as [Hm Hn].
    unfold clean. cbv zeta.
    now rewrite (replace_absent mojibake), (replace_absent nbsp),
      (replace_absent "xe2").
Qed.

End CleanFacts.

(** * The listing of the ranked pages *)

Section ListingFacts.
Import Sequencer SequencerSpec Merge MergeSpec Listing.

Lemma sort_by_prefix_cases (l : list string) :
  sort_by_key prefix_number l
  = if forallb has_prefix_group l
    then Ok (sorted merge_key l)
    else Raise AttributeError.
Proof.
  destruct (forallb has_prefix_group l) eqn:H.
  - apply sort_by_key_total. rewrite forallb_forall in H.
    apply Forall_forall. intros x Hx. apply prefix_number_group, H.
    now apply list_elem_of_In.
  - now apply sort_by_key_raises.
Qed.

Lemma length_lower (s : string) : String.length (lower s) = String.length s.
Proof. induction s as [|c s IH]; simpl; [reflexivity | now rewrite IH]. Qed.

Lemma lower_drop (k : nat) (s : string) : lower (drop k s) = drop k (lower s).
Proof.
  revert s; induction k as [|k IH]; intros [|c s]; try reflexivity.
  cbn [drop lower]. apply IH.
Qed.

Lemma endswith_lower (suf s : string) :
  lower suf = suf -> endswith suf s = true -> endswith suf (lower s) = true.
Proof.
  intros Hs. unfold endswith. rewrite length_lower.
  intros H. apply andb_true_iff in H as [-> H]. cbn [andb].
  apply String.eqb_eq in H. rewrite <- lower_drop, H, Hs.
  apply String.eqb_refl.
Qed.

Lemma script_is_html_cloud (f : string) :
  script_is_html f = true -> cloud_is_html f = true.
Proof.
  unfold script_is_html, cloud_is_html, endswith_any. cbn [existsb].
  intros H. apply orb_true_iff in H as [H | H];
    apply endswith_lower in H; try reflexivity; rewrite H;
    [reflexivity | now rewrite orb_true_r].
Qed.

(** X10. Both listings of the ranked pages sort the selected paths by
    the integer of the first run of digits followed by [_] in the
    basename, and give up with [AttributeError] as soon as one selected
    name has no such run: nothing is processed then.  The script selects
    the names ending in [.htm] or [.html] as written; the cloud pipeline
    selects them whatever the case, so it takes every page the script
    takes, and [A.HTM] besides. *)
Theorem html_listing_sorted_or_aborts (html_dir : string)
  (listing : list string) :
  _get_html_files html_dir listing
  = (if forallb has_prefix_group
          (map (os_path_join html_dir)
             (filter (fun f => cloud_is_html f = true) listing))
     then Ok (sorted merge_key
                (map (os_path_join html_dir)
                   (filter (fun f => cloud_is_html f = true) listing)))
     else Raise AttributeError)
  /\ htm_files_sorted listing
     = (if forallb has_prefix_group
            (map (os_path_join "reorganized")
               (filter (fun f => script_is_html f = true) listing))
        then Ok (sorted merge_key
                   (map (os_path_join "reorganized")
                      (filter (fun f => script_is_html f = true) listing)))
        else Raise AttributeError)
  /\ (forall f, f ∈ filter (fun f => script_is_html f = true) listing ->
                f ∈ filter (fun f => cloud_is_html f = true) listing)
  /\ cloud_is_html "A.HTM" = true /\ script_is_html "A.HTM" = false.
Proof.
  split; [apply sort_by_prefix_cases |].
  split; [apply sort_by_prefix_cases |].
  split; [| split; reflexivity].
  intros f Hf. apply list_elem_of_filter in Hf as [Hs Hin].
  apply list_elem_of_filter. split; [now apply script_is_html_cloud | exact Hin].
Qed.

End ListingFacts.

Section RankedListing.
Import Sequencer SequencerSpec Merge MergeSpec Listing.

Lemma number_of_ranked_basename (x : string) (r : N) (base : string) :
  basename x = format_04d r +:+ "_" +:+ base ->
  prefix_number x = Ok r /\ extract_number x = Ok r /\ merge_key x = r.
Proof.
  intros H. unfold merge_key, extract_number, prefix_number.
  now rewrite H, search_format_04d, int_format_04d.
Qed.

Lemma all_digits_no_sep (s : string) :
  all_digits s = true -> count_char sep s = 0.
Proof.
  induction s as [|c s IH]; [reflexivity |]. simpl.
  intros H. apply andb_true_iff in H as [Hc Hs].
  rewrite Ascii.eqb_sym, (is_digit_not_sep _ Hc). now apply IH.
Qed.

Lemma ranked_name_flat (r : N) (base : string) :
  count_char sep base = 0 ->
  count_char sep (format_04d r +:+ "_" +:+ base) = 0.
Proof.
  intros Hb.
  now rewrite !count_char_append, Hb, (all_digits_no_sep _ (format_04d_digits r)).
Qed.

Lemma basename_join_flat (dir name : string) :
  String.eqb dir "" = false -> endswith "/" dir = false ->
  count_char sep name = 0 ->
  basename (os_path_join dir name) = name.
Proof.
  intros Hd He Hn. unfold os_path_join.
  rewrite (no_sep_relative _ Hn), Hd, He. cbn [orb].
  change (dir +:+ "/" +:+ name) with (dir +:+ String sep name).
  now apply basename_in_dir.
Qed.

Lemma sorted_of_sorted {A : Type} (key : A -> N) (l : list A) :
  StronglySorted (fun a b => (key a <= key b)%N) l -> sorted key l = l.
Proof.
  induction 1 as [|x l Hs IH Hx]; [reflexivity |].
  cbn [sorted]. rewrite IH. destruct l as [|y l]; [reflexivity |].
  cbn [insert_by]. apply Forall_cons in Hx as [Hxy _].
  apply N.leb_le in Hxy. now rewrite Hxy.
Qed.

Lemma StronglySorted_filter_keeps {A : Type} (R : A -> A -> Prop)
  (P : A -> Prop) `{forall x, Decision (P x)} (l : list A) :
  StronglySorted R l -> StronglySorted R (filter P l).
Proof.
  induction 1 as [|x l Hs IH Hx]; [constructor |].
  rewrite filter_cons. destruct (decide (P x)); [| exact IH].
  constructor; [exact IH |].
  apply Forall_forall. intros y Hy. rewrite Forall_forall in Hx.
  apply list_elem_of_filter in Hy as [_ Hy]. now apply Hx.
Qed.

Lemma ranks_from_sorted (s : N) (n : nat) :
  StronglySorted N.lt (ranks_from s n).
Proof.
  revert s; induction n as [|n IH]; intros s; simpl; constructor.
  - apply IH.
  - apply Forall_forall. intros x Hx. apply ranks_from_lower in Hx. lia.
Qed.

Lemma sorted_by_rank (l : list SequencedDocument) :
  StronglySorted N.lt (map rank l) ->
  StronglySorted (fun a b => (rank a < rank b)%N) l.
Proof.
  induction l as [|d l IH]; intros H; [constructor |].
  cbn [map] in H. apply StronglySorted_inv in H as [Hs Hd].
  constructor; [now apply IH |].
  apply Forall_forall. intros x Hx.
  rewrite Forall_forall in Hd. apply Hd.
  now apply list_elem_of_fmap_2.
Qed.

(** The path of the page of a document, as the listings build it. *)
#[local] Abbreviation page d := (os_path_join "reorganized" (output_filename d)).

Lemma page_number (d : SequencedDocument) :
  (exists f, d = document f (rank d)) ->
  prefix_number (page d) = Ok (merge_key (page d))
  /\ merge_key (page d) = rank d.
Proof.
  intros [f Hd].
  destruct (number_of_ranked_basename (page d) (rank d) (basename f))
    as (H1 & _ & H3).
  - rewrite Hd at 1. cbn [output_filename document].
    apply basename_join_flat; try reflexivity.
    apply ranked_name_flat, basename_no_sep.
  - now rewrite H3.
Qed.

Lemma pages_sorted (l : list SequencedDocument) :
  Forall (fun d => exists f, d = document f (rank d)) l ->
  StronglySorted (fun a b => (rank a < rank b)%N) l ->
  StronglySorted (fun a b => (merge_key a < merge_key b)%N)
    (map (fun d => page d) l).
Proof.
  intros Hwf Hs. induction Hs as [|d l Hs IH Hd]; [constructor |].
  apply Forall_cons in Hwf as [Hd0 Hwf].
  cbn [map]. constructor; [now apply IH |].
  apply Forall_forall. intros x Hx.
  apply list_elem_of_fmap in Hx as (e & -> & He).
  rewrite Forall_forall in Hd, Hwf.
  rewrite (proj2 (page_number d Hd0)), (proj2 (page_number e (Hwf e He))).
  now apply Hd.
Qed.

Lemma strictly_sorted_facts (l : list string) :
  StronglySorted (fun a b => (merge_key a < merge_key b)%N) l ->
  StronglySorted (fun a b => (merge_key a <= merge_key b)%N) l
  /\ NoDup (map merge_key l).
Proof.
  induction 1 as [|x l Hs [IH1 IH2] Hx]; [split; constructor |].
  split.
  - constructor; [exact IH1 |].
    eapply Forall_impl; [exact Hx |]. intros y Hy. cbn in Hy. lia.
  - cbn [map]. constructor; [| exact IH2].
    intros Hin. apply list_elem_of_fmap in Hin as (y & Hk & Hy).
    rewrite Forall_forall in Hx. specialize (Hx y Hy). cbn in Hx. lia.
Qed.

Lemma filter_names (sel : string -> bool) (docs : list SequencedDocument) :
  filter (fun f => sel f = true) (map output_filename docs)
  = map output_filename
      (filter (fun d => sel (output_filename d) = true) docs).
Proof.
  induction docs as [|d docs IH]; [reflexivity |].
  cbn [map]. rewrite !filter_cons, IH.
  now destruct (decide (sel (output_filename d) = true)).
Qed.

Lemma ranked_listing_sorted (sel : string -> bool)
  (docs : list SequencedDocument) (listing : list string) :
  Forall (fun d => exists f, d = document f (rank d)) docs ->
  StronglySorted (fun a b => (rank a < rank b)%N) docs ->
  listing ≡ₚ map output_filename docs ->
  sort_by_key prefix_number
    (map (os_path_join "reorganized")
       (filter (fun f => sel f = true) listing))
  = Ok (map (os_path_join "reorganized")
          (filter (fun f => sel f = true) (map output_filename docs))).
Proof.
  intros Hwf Hs Hperm.
  assert (map (os_path_join "reorganized")
            (filter (fun f => sel f = true) listing)
          ≡ₚ map (os_path_join "reorganized")
               (filter (fun f => sel f = true) (map output_filename docs)))
    as HP by now rewrite Hperm.
  revert HP. rewrite filter_names, map_map.
  set (docs' := filter (fun d => sel (output_filename d) = true) docs).
  set (P := map (os_path_join "reorganized") _). intros HP.
  assert (Forall (fun d => exists f, d = document f (rank d)) docs') as Hwf'.
  { apply Forall_forall. intros d Hd. rewrite Forall_forall in Hwf.
    apply list_elem_of_filter in Hd as [_ Hd]. now apply Hwf. }
  pose proof (StronglySorted_filter_keeps _
                (fun d => sel (output_filename d) = true) docs Hs) as Hs'.
  fold docs' in Hs'.
  destruct (strictly_sorted_facts _ (pages_sorted docs' Hwf' Hs'))
    as [Hle Hnd].
  rewrite (sort_by_key_total prefix_number merge_key).
  - f_equal. rewrite <- (sorted_of_sorted merge_key _ Hle). symmetry.
    apply sorted_order_independent; [now symmetry | exact Hnd].
  - rewrite HP. apply Forall_forall. intros x Hx.
    apply list_elem_of_fmap in Hx as (d & -> & Hd).
    rewrite Forall_forall in Hwf'. apply page_number. now apply Hwf'.
Qed.

Lemma copied_sorted (step : state -> string -> result state)
  (refs : list string) (fs : gmap string Fs.node) :
  step_laws step ->
  Forall (fun d => exists f, d = document f (rank d))
    (copied (fst (for_each step refs (initial fs))))
  /\ StronglySorted (fun a b => (rank a < rank b)%N)
       (copied (fst (for_each step refs (initial fs)))).
Proof.
  intros laws. destruct (loop_dense step laws refs fs) as (_ & Hr & Hwf).
  split; [exact Hwf |]. apply sorted_by_rank. rewrite Hr.
  apply ranks_from_sorted.
Qed.

(** X11. The pages a sequencer run has written are listed for the next
    stage in the order they were copied, that is in TOC order, whatever
    order [os.listdir] returns them in, and the listing never raises on
    them: every name the sequencer writes has the digits the sort key
    looks for, and they read back as its rank. *)
Theorem ranked_pages_listed_in_copy_order (refs : list string)
  (fs : gmap string Fs.node) (listing : list string) :
  (listing ≡ₚ map output_filename
                (copied (fst (_copy_files_in_order refs fs))) ->
   _get_html_files "reorganized" listing
   = Ok (map (os_path_join "reorganized")
           (filter (fun f => cloud_is_html f = true)
              (map output_filename
                 (copied (fst (_copy_files_in_order refs fs)))))))
  /\ (listing ≡ₚ map output_filename
                   (copied (fst (orderHTM_copy_loop refs fs))) ->
      htm_files_sorted listing
      = Ok (map (os_path_join "reorganized")
              (filter (fun f => script_is_html f = true)
                 (map output_filename
                    (copied (fst (orderHTM_copy_loop refs fs))))))).
Proof.
  split; intros Hperm.
  - destruct (copied_sorted copy_step refs fs copy_step_laws) as [Hwf Hs].
    now apply ranked_listing_sorted.
  - rewrite orderHTM_copy_loop_copied in *.
    destruct (copied_sorted orderHTM_step refs fs orderHTM_step_laws)
      as [Hwf Hs].
    now apply ranked_listing_sorted.
Qed.

Lemma ranked_pages_listed_in_copy_order_witness :
  _get_html_files "reorganized" ["0002_a.htm"; "0001_b.htm"]
  = Ok ["reorganized/0001_b.htm"; "reorganized/0002_a.htm"].
Proof.
  apply (proj1 (ranked_pages_listed_in_copy_order ["sub/b.htm"; "a.htm"]
                  Fixtures.extracted ["0002_a.htm"; "0001_b.htm"])).
  vm_compute. apply perm_swap.
Defined.

End RankedListing.

(** * The names of the PDFs *)

Section PdfNames.
Import Sequencer SequencerSpec Merge MergeSpec Convert.

Lemma splitext_root (p : string) :
  fst (splitext p) = p
  \/ exists i, rfind_dot p = Some i /\ fst (splitext p) = take i p.
Proof.
  unfold splitext. destruct (rfind_dot p) as [i|]; [| now left].
  destruct (_ && _); [right; now exists i | now left].
Qed.

Lemma rfind_dot_append (a b : string) (i : nat) :
  count_char "." a = 0 -> rfind_dot (a +:+ b) = Some i ->
  String.length a <= i.
Proof.
  revert i; induction a as [|c a IH]; intros i Ha H; cbn [String.length];
    [lia |].
  cbn [String.append rfind_dot] in H. cbn [count_char] in Ha.
  destruct (Ascii.eqb c "."); [discriminate |]. cbn in Ha.
  destruct (rfind_dot (a +:+ b)) as [j|]; [| discriminate].
  injection H as <-. specialize (IH j Ha eq_refl). lia.
Qed.

Lemma take_append (a b : string) (i : nat) :
  String.length a <= i ->
  take i (a +:+ b) = a +:+ take (i - String.length a) b.
Proof.
  revert i; induction a as [|c a IH]; intros i H; cbn [String.length] in *.
  - now rewrite Nat.sub_0_r.
  - destruct i as [|i]; [lia |]. cbn [String.append take Nat.sub].
    f_equal. apply IH. lia.
Qed.

Lemma count_char_take (c : ascii) (k : nat) (s : string) :
  count_char c s = 0 -> count_char c (take k s) = 0.
Proof.
  revert k; induction s as [|a s IH]; intros [|k] H; try reflexivity.
  cbn [take count_char] in *. destruct (Ascii.eqb a c); [discriminate |].
  now apply IH.
Qed.

Lemma all_digits_no_dot (s : string) :
  all_digits s = true -> count_char "." s = 0.
Proof.
  induction s as [|c s IH]; [reflexivity |]. simpl.
  intros H. apply andb_true_iff in H as [Hc Hs].
  destruct (Ascii.eqb_spec c "."); [subst c; discriminate |]. now apply IH.
Qed.

Lemma endswith_append (a suf : string) : endswith suf (a +:+ suf) = true.
Proof.
  unfold endswith. rewrite length_append.
  replace (String.length a + String.length suf - String.length suf)
    with (String.length a) by lia.
  rewrite drop_append, String.eqb_refl, andb_true_r.
  apply Nat.leb_le. lia.
Qed.

(** The stem [splitext] leaves of a ranked name keeps the rank and the
    underscore in front. *)
Lemma ranked_stem (r : N) (base : string) :
  count_char sep base = 0 ->
  exists stem,
    fst (splitext (format_04d r +:+ "_" +:+ base))
    = format_04d r +:+ "_" +:+ stem
    /\ count_char sep stem = 0.
Proof.
  intros Hb.
  destruct (splitext_root (format_04d r +:+ "_" +:+ base))
    as [-> | (i & Hi & ->)]; [now exists base |].
  rewrite <- append_assoc in *.
  apply rfind_dot_append in Hi as Hle.
  - rewrite (take_append _ _ _ Hle), append_assoc.
    eexists. split; [reflexivity |]. now apply count_char_take.
  - rewrite count_char_append, (all_digits_no_dot _ (format_04d_digits r)).
    reflexivity.
Qed.

Lemma rfind_dot_none (s : string) :
  count_char "." s = 0 -> rfind_dot s = None.
Proof.
  induction s as [|c s IH]; [reflexivity |]. cbn [count_char rfind_dot].
  destruct (Ascii.eqb c "."); [discriminate |]. intros H.
  now rewrite IH.
Qed.

Lemma rfind_dot_last (a ext : string) :
  count_char "." ext = 0 ->
  rfind_dot (a +:+ String "." ext) = Some (String.length a).
Proof.
  intros He. induction a as [|c a IH]; cbn [String.append rfind_dot].
  - now rewrite (rfind_dot_none _ He).
  - now rewrite IH.
Qed.

Lemma take_all (a b : string) : take (String.length a) (a +:+ b) = a.
Proof.
  induction a as [|c a IH]; cbn [String.length String.append take].
  - now destruct b.
  - now rewrite IH.
Qed.

(** [splitext] of a flat name that starts with a digit and ends in a dot
    and an extension without dot. *)
Lemma splitext_ranked (c : ascii) (a ext : string) :
  is_digit c = true -> count_char sep (String c a) = 0 ->
  count_char sep ext = 0 -> count_char "." ext = 0 ->
  splitext (String c a +:+ String "." ext) = (String c a, String "." ext).
Proof.
  intros Hc Ha He Hd. unfold splitext.
  rewrite (rfind_dot_last _ _ Hd).
  assert (rfind_sep (String c a +:+ String "." ext) = None) as ->.
  { apply rfind_sep_none. rewrite count_char_append, Ha.
    cbn [count_char]. now rewrite He. }
  cbn [Nat.leb andb drop]. rewrite Nat.sub_0_r, take_all, drop_append.
  cbn [has_non_dot].
  destruct (Ascii.eqb_spec c "."); [subst c; discriminate | reflexivity].
Qed.

(** X12. The PDF of the page ranked [r] is written in [pdfs/] under a
    name that starts with the four-digit rank and an underscore and ends in
    [.pdf]: the merge selects it, and both sort keys of the merge read the
    rank back from it, so the PDFs of two pages of different rank never
    share a path.  For a page name with an extension the PDF name is the
    page name with [.pdf] in place of the last extension. *)
Theorem pdf_name_keeps_rank :
  (forall r base,
      count_char sep base = 0 ->
      exists stem,
        pdf_path (os_path_join "reorganized" (format_04d r +:+ "_" +:+ base))
        = os_path_join "pdfs" (format_04d r +:+ "_" +:+ stem +:+ ".pdf")
        /\ endswith ".pdf" (format_04d r +:+ "_" +:+ stem +:+ ".pdf") = true
        /\ prefix_number
             (pdf_path (os_path_join "reorganized"
                          (format_04d r +:+ "_" +:+ base))) = Ok r
        /\ extract_number
             (pdf_path (os_path_join "reorganized"
                          (format_04d r +:+ "_" +:+ base))) = Ok r)
  /\ (forall r stem ext,
        count_char sep stem = 0 -> count_char sep ext = 0 ->
        count_char "." ext = 0 ->
        pdf_path (os_path_join "reorganized"
                    (format_04d r +:+ "_" +:+ stem +:+ "." +:+ ext))
        = os_path_join "pdfs" (format_04d r +:+ "_" +:+ stem +:+ ".pdf")).
Proof.
  split.
  - intros r base Hb. destruct (ranked_stem r base Hb) as (stem & Hroot & Hs).
    exists stem.
    assert (pdf_path (os_path_join "reorganized"
                        (format_04d r +:+ "_" +:+ base))
            = os_path_join "pdfs" (format_04d r +:+ "_" +:+ stem +:+ ".pdf"))
      as Hp.
    { unfold pdf_path. cbv zeta.
      rewrite basename_join_flat; try reflexivity;
        [| now apply ranked_name_flat].
      now rewrite Hroot, !append_assoc. }
    split; [exact Hp |]. split.
    { rewrite <- !append_assoc. apply endswith_append. }
    destruct (number_of_ranked_basename
                (os_path_join "pdfs"
                   (format_04d r +:+ "_" +:+ stem +:+ ".pdf"))
                r (stem +:+ ".pdf")) as (H1 & H2 & _).
    + apply basename_join_flat; try reflexivity.
      apply ranked_name_flat. now rewrite count_char_append, Hs.
    + rewrite Hp. now split.
  - intros r stem ext Hs He Hd. unfold pdf_path. cbv zeta.
    rewrite basename_join_flat; try reflexivity.
    + pose proof (ranked_name_flat r stem Hs) as Hflat.
      rewrite <- !append_assoc in *.
      destruct (format_04d_cons r) as (c & s & Heq & Hc).
      rewrite Heq in *. cbn [String.append] in *.
      rewrite (append_assoc _ "." ext). cbn [String.append].
      pose proof (splitext_ranked c _ ext Hc Hflat He Hd) as E.
      cbn [String.append] in E. now rewrite E.
    + apply ranked_name_flat. rewrite !count_char_append, Hs.
      cbn [count_char]. now rewrite He.
Qed.

Lemma pdf_name_keeps_rank_witness :
  count_char sep "a.b.htm" = 0
  /\ prefix_number (pdf_path "reorganized/0012_a.b.htm") = Ok 12%N
  /\ pdf_path "reorganized/0012_a.b.htm" = "pdfs/0012_a.b.pdf".
Proof.
  split; [reflexivity |]. split.
  - destruct (proj1 pdf_name_keeps_rank 12%N "a.b.htm" eq_refl)
      as (_ & _ & _ & H & _).
    exact H.
  - exact (proj2 pdf_name_keeps_rank 12%N "a.b" "htm"
             eq_refl eq_refl eq_refl).
Defined.

End PdfNames.

(** * Finding the table of contents *)

Section LocateFacts.
Import Flatten FlattenSpec Locate.

#[local] Abbreviation is_hhc v := (endswith ".hhc" (lower (fst (snd v)))).

Lemma find_in_files_spec (root : string)
  (files : list (string * list Byte.byte)) :
  match find_in_files root files with
  | None => Forall (fun v => is_hhc v = false) (map (pair root) files)
  | Some p =>
      exists pre v post,
        map (pair root) files = pre ++ v :: post
        /\ p = os_path_join (fst v) (fst (snd v))
        /\ is_hhc v = true
        /\ Forall (fun u => is_hhc u = false) pre
  end.
Proof.
  unfold find_in_files. induction files as [|f files IH]; cbn [List.find map].
  - constructor.
  - destruct (endswith ".hhc" (lower (fst f))) eqn:E.
    + exists [], (root, f), (map (pair root) files).
      repeat split; [exact E | constructor].
    + destruct (List.find _ files) as [g|].
      * destruct IH as (pre & v & post & Hm & Hp & Hv & Hpre).
        exists ((root, f) :: pre), v, post. rewrite Hm.
        repeat split; try assumption. now constructor.
      * now constructor.
Qed.

Lemma find_in_walk_spec
  (w : list (string * list string * list (string * list Byte.byte))) :
  match find_in_walk w with
  | None => Forall (fun v => is_hhc v = false) (visits w)
  | Some p =>
      exists pre v post,
        visits w = pre ++ v :: post
        /\ p = os_path_join (fst v) (fst (snd v))
        /\ is_hhc v = true
        /\ Forall (fun u => is_hhc u = false) pre
  end.
Proof.
  induction w as [|[[root dirs] files] w IH]; [constructor |].
  cbn [find_in_walk visits flat_map].
  pose proof (find_in_files_spec root files) as Hf.
  destruct (find_in_files root files) as [p|].
  - destruct Hf as (pre & v & post & Hm & Hp & Hv & Hpre).
    exists pre, v, (post ++ visits w). rewrite Hm, <- app_assoc.
    repeat split; assumption.
  - fold (visits w). destruct (find_in_walk w) as [p|].
    + destruct IH as (pre & v & post & Hm & Hp & Hv & Hpre).
      exists (map (pair root) files ++ pre), v, post.
      rewrite Hm, <- app_assoc. repeat split; try assumption.
      apply Forall_app. now split.
    + apply Forall_app. now split.
Qed.

(** X13. [find_hhc_file] answers the first file of the walk, directory
    by directory from the top and in listing order inside a directory,
    whose name ends in [.hhc] in any case, and [None] exactly when the
    extraction holds no such file; a table of contents at the top level
    is therefore taken before any in a subdirectory. *)
Theorem find_hhc_file_takes_first (entries : list (string * tree)) :
  match find_hhc_file entries with
  | None =>
      Forall (fun v => endswith ".hhc" (lower (fst (snd v))) = false)
        (visits_of "extractedCHM" entries)
  | Some hhc_path =>
      exists pre v post,
        visits_of "extractedCHM" entries = pre ++ v :: post
        /\ hhc_path = os_path_join (fst v) (fst (snd v))
        /\ endswith ".hhc" (lower (fst (snd v))) = true
        /\ Forall (fun u => endswith ".hhc" (lower (fst (snd u))) = false) pre
  end
  /\ (forall f,
        List.find (fun f => endswith ".hhc" (lower (fst f)))
          (filenames entries) = Some f ->
        find_hhc_file entries = Some (os_path_join "extractedCHM" (fst f))).
Proof.
  split.
  - apply (find_in_walk_spec (walk "extractedCHM" (Dir entries))).
  - intros f Hf. unfold find_hhc_file. cbn [walk find_in_walk].
    unfold find_in_files. now rewrite Hf.
Qed.

End LocateFacts.

(** * Extraction paths *)

Section ExtractFacts.
Import Extract.

Lemma startswith_drop (p s : string) :
  startswith p s = true -> s = p +:+ drop (String.length p) s.
Proof.
  intros H. apply startswith_spec in H as [r ->]. now rewrite drop_append.
Qed.

(** X14. The extractor writes an entry of the archive below
    [extractedCHM/], under its path less one leading slash, unless the path
    starts with two slashes: what is left after the first is then an
    absolute path, [os.path.join] drops the directory, and the entry is
    written outside the extraction directory. *)
Theorem extraction_path_cases (ui_path : string) :
  (startswith "//" ui_path = false ->
   output_path ui_path = "extractedCHM/" +:+ relative_path ui_path
   /\ (startswith "/" ui_path = true ->
       ui_path = "/" +:+ relative_path ui_path)
   /\ (startswith "/" ui_path = false -> relative_path ui_path = ui_path))
  /\ (startswith "//" ui_path = true ->
      ui_path = "/" +:+ output_path ui_path
      /\ startswith "/" (output_path ui_path) = true
      /\ startswith "extractedCHM/" (output_path ui_path) = false).
Proof.
  assert (forall r, startswith "/" r = false ->
            os_path_join "extractedCHM" r = "extractedCHM/" +:+ r) as Hjoin.
  { intros r Hr. unfold os_path_join. now rewrite Hr. }
  unfold output_path, relative_path.
  destruct (startswith "/" ui_path) eqn:H1.
  - apply startswith_drop in H1. cbn [String.length] in H1.
    set (r := drop 1 ui_path) in *. rewrite H1. clearbody r. clear H1.
    change (startswith "//" ("/" +:+ r)) with (startswith "/" r).
    split; intros H2.
    + rewrite (Hjoin r H2). repeat split. discriminate.
    + unfold os_path_join. rewrite H2.
      split; [reflexivity |]. split; [exact H2 |].
      destruct r as [|c r]; [discriminate |]. cbn [startswith] in *.
      apply andb_true_iff in H2 as [H2 _]. apply Ascii.eqb_eq in H2.
      now subst c.
  - assert (startswith "//" ui_path = false) as ->.
    { destruct ui_path as [|a s]; [reflexivity |].
      cbn [startswith] in *. now destruct (Ascii.eqb "/" a). }
    split; [intros _ | discriminate].
    rewrite (Hjoin _ H1). repeat split. discriminate.
Qed.

Lemma extraction_path_cases_witness :
  startswith "//" "//etc/motd" = true
  /\ startswith "extractedCHM/" (output_path "//etc/motd") = false
  /\ output_path "/index.htm" = "extractedCHM/index.htm".
Proof.
  split; [reflexivity |]. split.
  - exact (proj2 (proj2 (proj2 (extraction_path_cases "//etc/motd") eq_refl))).
  - exact (proj1 (proj1 (extraction_path_cases "/index.htm") eq_refl)).
Defined.

End ExtractFacts.

(** * The framing scripts *)

Section ScriptFacts.
Import Soup Normalizer ScriptSpec.

Variable text : string.

#[local] Abbreviation sel := (is_framing_script text).
#[local] Abbreviation hits n := (framing_scripts text [n]).

Lemma framing_scripts_app (l1 l2 : list node) :
  framing_scripts text (l1 ++ l2)
  = framing_scripts text l1 ++ framing_scripts text l2.
Proof.
  unfold framing_scripts, find_all. now rewrite flat_map_app, filter_app.
Qed.

Lemma framing_scripts_cons (n : node) (l : list node) :
  framing_scripts text (n :: l) = hits n ++ framing_scripts text l.
Proof. apply (framing_scripts_app [n] l). Qed.

Lemma hits_string (t : string) : hits (NavigableString t) = [].
Proof. reflexivity. Qed.

Lemma hits_tag (nm : string) (a : gmap string string) (cs : list node) :
  hits (Tag nm a cs)
  = (if sel (Tag nm a cs) then [Tag nm a cs] else [])
    ++ framing_scripts text cs.
Proof.
  unfold framing_scripts, find_all. cbn [flat_map descendants].
  rewrite app_nil_r, filter_cons.
  assert (String.eqb nm "script" && sel (Tag nm a cs) = sel (Tag nm a cs))
    as ->.
  { cbn [is_framing_script]. now destruct (String.eqb nm "script"). }
  destruct (sel (Tag nm a cs)) eqn:E.
  - rewrite decide_True by reflexivity. reflexivity.
  - rewrite decide_False by discriminate. reflexivity.
Qed.

Lemma sel_script (nm : string) (a : gmap string string) (cs : list node) :
  sel (Tag nm a cs) = true -> String.eqb nm "script" = true.
Proof. cbn [is_framing_script]. now destruct (String.eqb nm "script"). Qed.

Lemma strings_no_hits (cs : list node) :
  forallb is_string cs = true -> framing_scripts text cs = [].
Proof.
  induction cs as [|c cs IH]; [reflexivity |]. cbn [forallb].
  intros H. apply andb_true_iff in H as [Hc Hcs].
  rewrite framing_scripts_cons, (IH Hcs). now destruct c.
Qed.

Lemma strings_remove_where (cs : list node) :
  forallb is_string cs = true -> flat_map (remove_where sel) cs = cs.
Proof.
  induction cs as [|c cs IH]; [reflexivity |]. cbn [forallb flat_map].
  intros H. apply andb_true_iff in H as [Hc Hcs].
  rewrite (IH Hcs). now destruct c.
Qed.

Lemma remove_where_hits (n : node) :
  scripts_hold_text n = true -> framing_scripts text (remove_where sel n) = [].
Proof.
  induction n as [t | nm a cs IH] using node_induction; intros H.
  - reflexivity.
  - cbn [scripts_hold_text] in H. apply andb_true_iff in H as [H1 H2].
    cbn [remove_where]. destruct (sel (Tag nm a cs)) eqn:E; [reflexivity |].
    rewrite hits_tag.
    assert (framing_scripts text (flat_map (remove_where sel) cs) = [])
      as ->.
    { clear H1 E. induction IH as [|c cs Hc _ IHcs]; [reflexivity |].
      cbn [forallb] in H2. apply andb_true_iff in H2 as [Hc2 Hcs2].
      cbn [flat_map]. rewrite framing_scripts_app, (Hc Hc2), (IHcs Hcs2).
      reflexivity. }
    rewrite app_nil_r.
    destruct (String.eqb nm "script") eqn:En.
    + cbn [negb orb] in H1. rewrite (strings_remove_where _ H1), E.
      reflexivity.
    + destruct (sel (Tag nm a (flat_map (remove_where sel) cs))) eqn:E';
        [| reflexivity].
      apply sel_script in E'. congruence.
Qed.

Lemma remove_first_hits (n : node) :
  scripts_hold_text n = true ->
  match remove_first sel n with
  | None => hits n = []
  | Some r => exists h, hits n = h :: framing_scripts text r
  end.
Proof.
  induction n as [t | nm a cs IH] using node_induction; intros H.
  - reflexivity.
  - cbn [scripts_hold_text] in H. apply andb_true_iff in H as [H1 H2].
    rewrite hits_tag. cbn [remove_first].
    destruct (sel (Tag nm a cs)) eqn:E.
    + exists (Tag nm a cs). rewrite (sel_script _ _ _ E) in H1.
      cbn [negb orb] in H1. now rewrite (strings_no_hits _ H1).
    + cbn [app].
      match goal with
      | |- match match ?g cs with _ => _ end with _ => _ end =>
          assert (match g cs with
                  | None => framing_scripts text cs = []
                  | Some cs' =>
                      exists h, framing_scripts text cs
                                = h :: framing_scripts text cs'
                  end) as Hgo;
          [| destruct (g cs) as [cs'|]; [| exact Hgo] ]
      end.
      * clear H1 E. induction IH as [|c cs Hc _ IHcs]; [reflexivity |].
        cbn [forallb] in H2. apply andb_true_iff in H2 as [Hc2 Hcs2].
        specialize (Hc Hc2). specialize (IHcs Hcs2).
        rewrite framing_scripts_cons.
        destruct (remove_first sel c) as [rc|].
        -- destruct Hc as [h ->]. exists h.
           now rewrite framing_scripts_app.
        -- rewrite Hc. cbn [app].
           match type of IHcs with
           | match ?g cs with _ => _ end => destruct (g cs) as [cs''|]
           end; [| exact IHcs].
           destruct IHcs as [h ->]. exists h.
           now rewrite framing_scripts_cons, Hc.
      * destruct Hgo as [h Hh]. exists h. rewrite Hh, hits_tag.
        destruct (String.eqb nm "script") eqn:En.
        -- cbn [negb orb] in H1. rewrite (strings_no_hits _ H1) in Hh.
           discriminate.
        -- destruct (sel (Tag nm a cs')) eqn:E'; [| reflexivity].
           apply sel_script in E'. congruence.
Qed.

(** X15. On a tree as the parser builds it, where a [script] element
    holds text only, the cloud pipeline leaves no script that mentions the
    framing text, while removeText.py removes the first one in document
    order and keeps every later one: the two pipelines write the same page
    only when at most one script mentions it. *)
Theorem framing_scripts_all_or_first (soup : list node) :
  forallb scripts_hold_text soup = true ->
  framing_scripts text (flat_map (remove_where (is_framing_script text)) soup)
  = []
  /\ framing_scripts text (remove_first_in (is_framing_script text) soup)
     = tl (framing_scripts text soup).
Proof.
  intros H. split.
  - induction soup as [|n soup IH]; [reflexivity |].
    cbn [forallb] in H. apply andb_true_iff in H as [Hn Hs].
    cbn [flat_map]. rewrite framing_scripts_app, (remove_where_hits n Hn).
    now apply IH.
  - induction soup as [|n soup IH]; [reflexivity |].
    cbn [forallb] in H. apply andb_true_iff in H as [Hn Hs].
    specialize (IH Hs). pose proof (remove_first_hits n Hn) as Hf.
    cbn [remove_first_in]. rewrite (framing_scripts_cons n soup).
    destruct (remove_first sel n) as [r|].
    + destruct Hf as [h ->]. now rewrite framing_scripts_app.
    + now rewrite framing_scripts_cons, Hf, IH.
Qed.

End ScriptFacts.

Lemma framing_scripts_all_or_first_witness :
  forallb ScriptSpec.scripts_hold_text Samples.two_framing_scripts = true
  /\ ScriptSpec.framing_scripts "show framing"
       (Soup.remove_first_in (Normalizer.is_framing_script "show framing")
          Samples.two_framing_scripts)
     = [Soup.Tag "script" ∅ [Soup.NavigableString "show framing again"]].
Proof.
  split; [reflexivity |].
  exact (proj2 (framing_scripts_all_or_first "show framing"
                  Samples.two_framing_scripts eq_refl)).
Defined.

(** * Normalizing the references twice *)

Section FixTwice.
Import Soup Normalizer NormalizerSpec.

Lemma set_basename_twice (k : string) (a : gmap string string) :
  set_basename k (set_basename k a) = set_basename k a.
Proof.
  unfold set_basename. destruct (a !! k) as [v|] eqn:E.
  - rewrite lookup_insert_eq, basename_idempotent. apply insert_insert_eq.
  - now rewrite E.
Qed.

Lemma is_stylesheet_link_set_basename (nm : string) (a : gmap string string) :
  is_stylesheet_link nm (set_basename "href" a) = is_stylesheet_link nm a.
Proof.
  unfold is_stylesheet_link. now rewrite set_basename_other.
Qed.

Lemma fix_attrs_twice (nm : string) (a : gmap string string) :
  fix_attrs nm (fix_attrs nm a) = fix_attrs nm a.
Proof.
  unfold fix_attrs, is_img, is_script. cbv zeta.
  destruct (String.eqb_spec nm "img") as [-> | Hi].
  - cbn. apply set_basename_twice.
  - destruct (String.eqb_spec nm "script") as [-> | Hs].
    + cbn. apply set_basename_twice.
    + destruct (is_stylesheet_link nm a) eqn:Hl.
      * now rewrite is_stylesheet_link_set_basename, Hl, set_basename_twice.
      * now rewrite Hl.
Qed.

Lemma map_attrs_ext
  (g1 g2 : string -> gmap string string -> gmap string string) (n : node) :
  (forall nm a, g1 nm a = g2 nm a) -> map_attrs g1 n = map_attrs g2 n.
Proof.
  intros Hg. induction n as [t | nm a cs IH] using node_induction; simpl;
    [reflexivity |].
  rewrite Hg. f_equal.
  induction IH as [|c cs Hc _ IHcs]; simpl; [reflexivity |].
  now rewrite Hc, IHcs.
Qed.

(** X16. Normalizing the asset references of a tree that is already
    normalized changes nothing, in either pipeline: a second run of the
    stage over its own output leaves every [src] and [href] as it is. *)
Theorem fix_image_paths_idempotent (soup : list node) :
  fix_image_paths (fix_image_paths soup) = fix_image_paths soup
  /\ _fix_asset_paths (_fix_asset_paths soup) = _fix_asset_paths soup.
Proof.
  assert (fix_image_paths (fix_image_paths soup) = fix_image_paths soup) as H.
  { rewrite !fix_image_paths_map_attrs, map_map. apply map_ext. intros n.
    rewrite map_attrs_compose. apply map_attrs_ext, fix_attrs_twice. }
  split; [exact H |].
  change (_fix_asset_paths (_fix_asset_paths soup))
    with (fix_image_paths (fix_image_paths soup)).
  change (_fix_asset_paths soup) with (fix_image_paths soup). exact H.
Qed.

End FixTwice.

(** * From the table of contents to the merged document *)

Section MergedOrder.
Import Sequencer SequencerSpec Merge MergeSpec Listing Convert.

#[local] Abbreviation page_of d :=
  (os_path_join "reorganized" (output_filename d)).
#[local] Abbreviation pdf_of d := (pdf_path (page_of d)).

(** The PDF of a page the sequencer wrote: its listed name, its path and
    its sort key. *)
Lemma pdf_of_page (d : SequencedDocument) :
  (exists f, d = document f (rank d)) ->
  exists name,
    pdf_of d = os_path_join "pdfs" name
    /\ basename (pdf_of d) = name
    /\ endswith ".pdf" name = true
    /\ has_prefix_group (pdf_of d) = true
    /\ merge_key (pdf_of d) = rank d.
Proof.
  intros [f Hd].
  destruct (ranked_stem (rank d) (basename f) (basename_no_sep f))
    as (stem & Hroot & Hs).
  exists (format_04d (rank d) +:+ "_" +:+ stem +:+ ".pdf").
  assert (count_char sep (format_04d (rank d) +:+ "_" +:+ stem +:+ ".pdf") = 0)
    as Hflat by (apply ranked_name_flat; now rewrite count_char_append, Hs).
  assert (pdf_of d
          = os_path_join "pdfs"
              (format_04d (rank d) +:+ "_" +:+ stem +:+ ".pdf")) as Hp.
  { unfold pdf_path. cbv zeta. rewrite Hd at 1.
    cbn [output_filename document].
    rewrite basename_join_flat; try reflexivity;
      [| apply ranked_name_flat, basename_no_sep].
    now rewrite Hroot, !append_assoc. }
  assert (basename (pdf_of d)
          = format_04d (rank d) +:+ "_" +:+ stem +:+ ".pdf") as Hb
    by (rewrite Hp; now apply basename_join_flat).
  split; [exact Hp |]. split; [exact Hb |]. split.
  { rewrite <- !append_assoc. apply endswith_append. }
  split.
  - unfold has_prefix_group. now rewrite Hb, search_format_04d.
  - now apply (number_of_ranked_basename _ _ (stem +:+ ".pdf")).
Qed.

Lemma pdfs_sorted (l : list SequencedDocument) :
  Forall (fun d => exists f, d = document f (rank d)) l ->
  StronglySorted (fun a b => (rank a < rank b)%N) l ->
  StronglySorted (fun a b => (merge_key a < merge_key b)%N)
    (map (fun d => pdf_of d) l).
Proof.
  intros Hwf Hs. induction Hs as [|d l Hs IH Hd]; [constructor |].
  apply Forall_cons in Hwf as [Hd0 Hwf].
  cbn [map]. constructor; [now apply IH |].
  apply Forall_forall. intros x Hx.
  apply list_elem_of_fmap in Hx as (e & -> & He).
  rewrite Forall_forall in Hd, Hwf.
  destruct (pdf_of_page d Hd0) as (_ & _ & _ & _ & _ & ->).
  destruct (pdf_of_page e (Hwf e He)) as (_ & _ & _ & _ & _ & ->).
  now apply Hd.
Qed.

Lemma pdf_paths_of_pages (l : list SequencedDocument) :
  Forall (fun d => exists f, d = document f (rank d)) l ->
  pdf_paths "pdfs" (map (fun d => basename (pdf_of d)) l)
  = map (fun d => pdf_of d) l.
Proof.
  unfold pdf_paths. induction 1 as [|d l Hd _ IH]; [reflexivity |].
  cbn [map]. destruct (pdf_of_page d Hd) as (name & Hp & Hb & He & _).
  rewrite filter_cons, Hb, decide_True by exact He.
  cbn [map]. rewrite IH. f_equal. now rewrite <- Hp.
Qed.

Lemma merge_of_pages (l : list SequencedDocument) (listing : list string) :
  Forall (fun d => exists f, d = document f (rank d)) l ->
  StronglySorted (fun a b => (rank a < rank b)%N) l ->
  listing ≡ₚ map (fun d => basename (pdf_of d)) l ->
  l <> [] ->
  combine_pdfs listing = (true, map (fun d => pdf_of d) l)
  /\ combinePDFs_order listing = Ok (map (fun d => pdf_of d) l).
Proof.
  intros Hwf Hs Hperm Hne.
  pose proof (pdf_paths_Permutation "pdfs" _ _ Hperm) as HP.
  rewrite (pdf_paths_of_pages l Hwf) in HP.
  destruct (strictly_sorted_facts _ (pdfs_sorted l Hwf Hs)) as [Hle Hnd].
  assert (sorted merge_key (pdf_paths "pdfs" listing)
          = map (fun d => pdf_of d) l) as Hsort.
  { rewrite <- (sorted_of_sorted merge_key _ Hle). symmetry.
    apply sorted_order_independent; [now symmetry | exact Hnd]. }
  split.
  - rewrite combine_pdfs_cases.
    destruct (pdf_paths "pdfs" listing) as [|x P] eqn:E.
    + apply Permutation_nil in HP. destruct l; [contradiction | discriminate].
    + cbv zeta. assert (forallb has_prefix_group (x :: P) = true) as ->.
      { apply forallb_forall. intros y Hy. apply list_elem_of_In in Hy.
        rewrite HP in Hy. apply list_elem_of_fmap in Hy as (d & -> & Hd).
        rewrite Forall_forall in Hwf.
        now destruct (pdf_of_page d (Hwf d Hd)) as (_ & _ & _ & _ & H & _). }
      now rewrite Hsort.
  - unfold combinePDFs_order. cbv zeta.
    rewrite (sort_by_key_total extract_number merge_key), Hsort;
      [reflexivity |].
    apply Forall_forall. intros y _. apply extract_number_total.
Qed.

(** X17. From the sequencer to the merged document, cloud pipeline:
    when [pdfs/] holds the PDFs of the pages listed from a sequencer run,
    in whatever order the directory lists them, [combine_pdfs] succeeds and
    appends them in the order the sequencer copied the pages, that is the
    order of the table of contents. *)
Theorem merged_pdf_in_toc_order (refs : list string)
  (fs : gmap string Fs.node) (html_files listing : list string) :
  _get_html_files "reorganized"
    (map output_filename (copied (fst (_copy_files_in_order refs fs))))
  = Ok html_files ->
  html_files <> [] ->
  listing ≡ₚ map (fun f => basename (pdf_path f)) html_files ->
  html_files
  = map (os_path_join "reorganized")
      (filter (fun f => cloud_is_html f = true)
         (map output_filename (copied (fst (_copy_files_in_order refs fs)))))
  /\ combine_pdfs listing = (true, map pdf_path html_files).
Proof.
  intros Hlist Hne Hperm.
  destruct (copied_sorted copy_step refs fs copy_step_laws) as [Hwf Hs].
  unfold _copy_files_in_order in *.
  set (docs := copied (fst (for_each copy_step refs (initial fs)))) in *.
  unfold _get_html_files in Hlist. cbv zeta in Hlist.
  rewrite (ranked_listing_sorted cloud_is_html docs _ Hwf Hs
             (Permutation_refl _)) in Hlist.
  injection Hlist as <-. split; [reflexivity |].
  rewrite filter_names, map_map in *.
  set (docs' := filter (fun d => cloud_is_html (output_filename d) = true)
                  docs) in *.
  rewrite map_map in *.
  apply merge_of_pages.
  - apply Forall_forall. intros d Hd. rewrite Forall_forall in Hwf.
    apply list_elem_of_filter in Hd as [_ Hd]. now apply Hwf.
  - now apply StronglySorted_filter_keeps.
  - exact Hperm.
  - intros E. apply Hne. now rewrite E.
Qed.

Lemma merged_pdf_in_toc_order_witness :
  _get_html_files "reorganized"
    (map output_filename
       (copied (fst (_copy_files_in_order ["sub/b.htm"; "a.htm"]
                       Fixtures.extracted))))
  = Ok ["reorganized/0001_b.htm"; "reorganized/0002_a.htm"]
  /\ combine_pdfs ["0002_a.pdf"; "0001_b.pdf"]
     = (true, ["pdfs/0001_b.pdf"; "pdfs/0002_a.pdf"]).
Proof.
  split; [reflexivity |].
  apply (merged_pdf_in_toc_order ["sub/b.htm"; "a.htm"] Fixtures.extracted
           ["reorganized/0001_b.htm"; "reorganized/0002_a.htm"]
           ["0002_a.pdf"; "0001_b.pdf"]).
  - reflexivity.
  - discriminate.
  - vm_compute. apply perm_swap.
Defined.

End MergedOrder.
